(** * Carbon Footprint Tracker: the emissions calculator and the carbon-log store

    A shallow embedding of [calculateFootprint], [displayCalculationResult],
    [getPreviousCalculation] (app.js) and of [API.saveCarbonLog],
    [API.getCarbonLogs] (api.js), with the properties the specification
    states about them.

    JavaScript numbers are IEEE 754 binary64 values: they are modelled by
    the Standard Library's [spec_float] at precision 53 and exponent bound
    1024, whose operations round to nearest, ties to even. *)

From Stdlib Require Import ZArith Bool Ascii String SpecFloat Reals Lra Lia.
From stdpp Require Import gmap strings list pretty.

Open Scope string_scope.
Open Scope Z_scope.

(* ===================================================================== *)
(** ** JavaScript numbers *)
(* ===================================================================== *)

Module JS.

Definition number : Type := spec_float.

Definition prec : Z := 53.
Definition emax : Z := 1024.

Definition NaN : number := S754_nan.
Definition Infinity : number := S754_infinity false.
Definition zero : number := S754_zero false.

Definition add : number -> number -> number := SFadd prec emax.
Definition sub : number -> number -> number := SFsub prec emax.
Definition mul : number -> number -> number := SFmul prec emax.
Definition div : number -> number -> number := SFdiv prec emax.

(** [x < y], [x > y] and [x === y] on numbers; all are false on NaN. *)
Definition lt : number -> number -> bool := SFltb.
Definition gt (x y : number) : bool := SFltb y x.
Definition strict_eq : number -> number -> bool := SFeqb.

(** An integer literal; exact below 2^53. *)
Definition of_Z (z : Z) : number := binary_normalize prec emax z 0 false.

(** The decimal literal [n / d] for integers [n], [d] below 2^53: the
    correctly rounded quotient is the double nearest to the decimal. *)
Definition dec (n d : Z) : number := div (of_Z n) (of_Z d).

Definition isNaN (x : number) : bool :=
  match x with S754_nan => true | _ => false end.

Definition isFinite (x : number) : bool :=
  match x with S754_zero _ | S754_finite _ _ _ => true | _ => false end.

Definition is_zero (x : number) : bool :=
  match x with S754_zero _ => true | _ => false end.

(** ToBoolean on a number: false for +0, -0 and NaN. *)
Definition truthy (x : number) : bool := negb (is_zero x || isNaN x).

(** [x || y] on numbers. *)
Definition or_else (x y : number) : number := if truthy x then x else y.

Definition Math_abs : number -> number := SFabs.

(** [Math.max(x, y)]: NaN if either is NaN, and +0 is larger than -0. *)
Definition Math_max (x y : number) : number :=
  if isNaN x || isNaN y then NaN
  else if lt x y then y
  else if lt y x then x
  else match x with S754_zero true => y | _ => x end.

(** [Math.min(x, y)]: NaN if either is NaN, and -0 is smaller than +0. *)
Definition Math_min (x y : number) : number :=
  if isNaN x || isNaN y then NaN
  else if lt x y then x
  else if lt y x then y
  else match x with S754_zero false => y | _ => x end.

(** *** parseFloat

    [parseFloat] skips leading white space, reads the longest prefix that
    is a StrDecimalLiteral and rounds its decimal value to the nearest
    double; without such a prefix the result is NaN.  Characters are code
    units below 256. *)

Definition is_ws (c : ascii) : bool :=
  let n := Z.of_N (N_of_ascii c) in
  ((9 <=? n) && (n <=? 13)) || (n =? 32) || (n =? 160).

Fixpoint trim_leading (s : string) : string :=
  match s with
  | String c r => if is_ws c then trim_leading r else s
  | EmptyString => s
  end.

Definition digit_of (c : ascii) : option Z :=
  let n := Z.of_N (N_of_ascii c) in
  if (48 <=? n) && (n <=? 57) then Some (n - 48) else None.

(** Reads a maximal run of decimal digits, continuing the value [acc];
    returns the value, the number of digits read and the remainder. *)
Fixpoint read_digits (s : string) (acc cnt : Z) : Z * Z * string :=
  match s with
  | String c r =>
      match digit_of c with
      | Some d => read_digits r (10 * acc + d) (cnt + 1)
      | None => (acc, cnt, s)
      end
  | EmptyString => (acc, cnt, s)
  end.

Definition read_sign (s : string) : bool * string :=
  match s with
  | String "-" r => (true, r)
  | String "+" r => (false, r)
  | _ => (false, s)
  end.

(** An ExponentPart counts only when it has at least one digit. *)
Definition read_exponent (s : string) : Z :=
  match s with
  | String c r =>
      if Ascii.eqb c "e" || Ascii.eqb c "E" then
        let '(neg, r') := read_sign r in
        let '(v, n, _) := read_digits r' 0 0 in
        if n =? 0 then 0 else if neg then - v else v
      else 0
  | EmptyString => 0
  end.

(** The double nearest to [m * 10^e10], with the sign [neg]. *)
Definition round_decimal (neg : bool) (m e10 : Z) : number :=
  match m with
  | Zpos p =>
      if 0 <=? e10 then binary_round prec emax neg (p * Z.to_pos (10 ^ e10)) 0
      else
        let '(q, e', l) :=
          SFdiv_core_binary prec emax (Zpos p) 0 (10 ^ (- e10)) 0 in
        binary_round_aux prec emax neg q e' l
  | _ => S754_zero neg
  end.

Fixpoint has_prefix (p s : string) : bool :=
  match p, s with
  | EmptyString, _ => true
  | String a p', String b s' => Ascii.eqb a b && has_prefix p' s'
  | _, _ => false
  end.

Definition parseFloat (input : string) : number :=
  let '(neg, s) := read_sign (trim_leading input) in
  if has_prefix "Infinity" s then S754_infinity neg
  else
    let '(m1, n1, r1) := read_digits s 0 0 in
    match r1 with
    | String "." r =>
        let '(m2, n2, r2) := read_digits r m1 0 in
        if (n1 =? 0) && (n2 =? 0) then NaN
        else round_decimal neg m2 (read_exponent r2 - n2)
    | _ =>
        if n1 =? 0 then NaN else round_decimal neg m1 (read_exponent r1)
    end.

(** *** Values

    What [JSON.parse] produces, and [undefined].  An object is the list of
    its own properties in the order JavaScript lists them: the keys that
    are array indices first, in ascending order, then the other keys in
    the order of their insertion; its keys are distinct. *)

Inductive value : Type :=
| VUndefined
| VNull
| VBool (b : bool)
| VNum (x : number)
| VStr (s : string)
| VArr (items : list value)
| VObj (fields : list (string * value)).

(** ToBoolean. *)
Definition truthy_value (v : value) : bool :=
  match v with
  | VUndefined | VNull => false
  | VBool b => b
  | VNum x => truthy x
  | VStr s => negb (String.eqb s EmptyString)
  | VArr _ | VObj _ => true
  end.

(** [o[k]] on a property list. *)
Fixpoint lookup_field (k : string) (fields : list (string * value)) : value :=
  match fields with
  | [] => VUndefined
  | (k', v) :: rest => if String.eqb k k' then v else lookup_field k rest
  end.

(** [v.k]: reading a property of [null] or [undefined] throws a TypeError
    ([None]); a primitive or an array has none of the properties read here. *)
Definition get_property (v : value) (k : string) : option value :=
  match v with
  | VUndefined | VNull => None
  | VObj fields => Some (lookup_field k fields)
  | _ => Some VUndefined
  end.

(** Whether an object has the own property [k]. *)
Definition has_own (k : string) (fields : list (string * value)) : bool :=
  existsb (fun kv => String.eqb k (fst kv)) fields.

(** An array index: the canonical decimal of an integer below 2^32 - 1. *)
Definition index_of (k : string) : option Z :=
  let '(n, cnt, rest) := read_digits k 0 0 in
  if (0 <? cnt) && String.eqb rest EmptyString && String.eqb (pretty n) k
     && (n <? 4294967295)
  then Some n else None.

(** Whether a new key [k] is listed before the key [k']: an array index
    before a larger one and before every other key. *)
Definition listed_before (k k' : string) : bool :=
  match index_of k, index_of k' with
  | Some n, Some n' => n <? n'
  | Some _, None => true
  | None, _ => false
  end.

(** [o[k] = v]: an existing property keeps its place; a new one that is an
    array index goes to its place among the indices, another new one is
    added last. *)
Fixpoint set_field (k : string) (v : value) (fields : list (string * value))
  : list (string * value) :=
  match fields with
  | [] => [(k, v)]
  | (k', v') :: rest =>
      if String.eqb k k' then (k, v) :: rest
      else if listed_before k k' && negb (has_own k rest)
      then (k, v) :: fields
      else (k', v') :: set_field k v rest
  end.

(** [{...target, ...source}]: the properties of [source] are set in order. *)
Definition spread (target source : list (string * value))
  : list (string * value) :=
  fold_left (fun acc kv => set_field (fst kv) (snd kv) acc) source target.

(** Whether the conversion of [v] to a string, or to a primitive, throws
    a TypeError.  An object is converted by its [toString]; an own property
    of that name hides the inherited method, and a value parsed from JSON
    is never callable (nor does the inherited [valueOf] give a primitive),
    so the conversion throws.  An array is converted by joining the strings
    of its elements. *)
Fixpoint ToString_throws (v : value) : bool :=
  match v with
  | VObj fields => has_own "toString" fields
  | VArr items => existsb ToString_throws items
  | _ => false
  end.

(** The number [parseFloat] reads from the string of [v], when [v] has
    one.  A number prints to a decimal that reads back as itself (as +0 for
    -0); an array prints its elements separated by commas, so that only its
    first element can be read; [true], [null], [undefined] and objects
    print to text that is no number. *)
Fixpoint parseFloat_printed (v : value) : number :=
  match v with
  | VNum (S754_zero _) => zero
  | VNum x => x
  | VStr s => parseFloat s
  | VArr (x :: _) => parseFloat_printed x
  | _ => NaN
  end.

(** [parseFloat(v)] for a value: [v] is first converted to a string;
    [None] when that throws. *)
Definition parseFloat_value (v : value) : option number :=
  if ToString_throws v then None else Some (parseFloat_printed v).

End JS.

(* ===================================================================== *)
(** ** Dates *)
(* ===================================================================== *)

Module Date.

Import JS.

(** Days since 1970-01-01 to (year, month, day) of the proleptic Gregorian
    calendar. *)
Definition civil_from_days (days : Z) : Z * Z * Z :=
  let z := days + 719468 in
  let era := z / 146097 in
  let doe := z - era * 146097 in
  let yoe := (doe - doe / 1460 + doe / 36524 - doe / 146096) / 365 in
  let doy := doe - (365 * yoe + yoe / 4 - yoe / 100) in
  let mp := (5 * doy + 2) / 153 in
  let d := doy - (153 * mp + 2) / 5 + 1 in
  let m := if mp <? 10 then mp + 3 else mp - 9 in
  (if m <=? 2 then yoe + era * 400 + 1 else yoe + era * 400, m, d).

Definition days_from_civil (y m d : Z) : Z :=
  let y' := if m <=? 2 then y - 1 else y in
  let era := y' / 400 in
  let yoe := y' - era * 400 in
  let doy := (153 * (if 2 <? m then m - 3 else m + 9) + 2) / 5 + d - 1 in
  let doe := yoe * 365 + yoe / 4 - yoe / 100 + doy in
  era * 146097 + doe - 719468.

Fixpoint zeros (n : nat) : string :=
  match n with O => EmptyString | S k => String "0" (zeros k) end.

(** The decimal of [n >= 0], padded with zeros on the left to [width]. *)
Definition pad (width : nat) (n : Z) : string :=
  let s := pretty n in
  zeros (width - String.length s) +:+ s.

(** [new Date(t).toISOString()] for a time value [t] in milliseconds:
    YYYY-MM-DDTHH:mm:ss.sssZ, with a signed six-digit year outside
    0..9999. *)
Definition toISOString (t : Z) : string :=
  let '(y, m, d) := civil_from_days (t / 86400000) in
  let ms := t mod 86400000 in
  (if (0 <=? y) && (y <=? 9999) then pad 4 y
   else if y <? 0 then "-" +:+ pad 6 (- y) else "+" +:+ pad 6 y)
  +:+ "-" +:+ pad 2 m +:+ "-" +:+ pad 2 d
  +:+ "T" +:+ pad 2 (ms / 3600000) +:+ ":" +:+ pad 2 (ms / 60000 mod 60)
  +:+ ":" +:+ pad 2 (ms / 1000 mod 60) +:+ "." +:+ pad 3 (ms mod 1000) +:+ "Z".

(** The integer part of a finite number, towards zero. *)
Definition truncate (x : number) : option Z :=
  match x with
  | S754_zero _ => Some 0
  | S754_finite s m e =>
      let n := if 0 <=? e then Zpos m * 2 ^ e else Zpos m / 2 ^ (- e) in
      Some (if s then - n else n)
  | _ => None
  end.

(** TimeClip: a time value is an integer of at most 8.64e15 in magnitude. *)
Definition timeClip (x : number) : number :=
  match truncate x with
  | Some n => if Z.abs n <=? 8640000000000000 then of_Z n else NaN
  | None => NaN
  end.

(** Reads exactly [n] digits. *)
Fixpoint digits (n : nat) (s : string) (acc : Z) : option (Z * string) :=
  match n with
  | O => Some (acc, s)
  | S k =>
      match s with
      | String c r =>
          match digit_of c with
          | Some d => digits k r (10 * acc + d)
          | None => None
          end
      | EmptyString => None
      end
  end.

Definition expect (c : ascii) (s : string) : option string :=
  match s with
  | String c' r => if Ascii.eqb c c' then Some r else None
  | EmptyString => None
  end.

Definition days_in_month (y m : Z) : Z :=
  days_from_civil (if m =? 12 then y + 1 else y) (if m =? 12 then 1 else m + 1) 1
  - days_from_civil y m 1.

(** *** Date.parse

    The date-time string format of the language: a date [YYYY],
    [YYYY-MM] or [YYYY-MM-DD], with a signed six-digit year outside
    0..9999, alone or followed by a time [THH:mm], [THH:mm:ss] or
    [THH:mm:ss.sss] and then by nothing, [Z] or an offset [+HH:mm],
    [-HH:mm].  What a host makes of any other text is its own business. *)

Definition parse_year (s : string) : option (Z * string) :=
  match s with
  | String "+" r => digits 6 r 0
  | String "-" r =>
      '(y, r') ← digits 6 r 0;
      if y =? 0 then None else Some (- y, r')
  | _ => digits 4 s 0
  end.

(** [-MM] and [-DD], each of which may be left out. *)
Definition parse_month_day (s : string) : option (Z * Z * string) :=
  match s with
  | String "-" r =>
      '(m, r1) ← digits 2 r 0;
      match r1 with
      | String "-" r2 => '(d, r3) ← digits 2 r2 0; Some (m, d, r3)
      | _ => Some (m, 1, r1)
      end
  | _ => Some (1, 1, s)
  end.

(** The time after the [T], in milliseconds of the day; 24:00:00 is the
    end of the day. *)
Definition parse_time (s : string) : option (Z * string) :=
  '(hh, s) ← digits 2 s 0; s ← expect ":" s;
  '(mm, s) ← digits 2 s 0;
  '(ss, ms, s) ←
    match s with
    | String ":" r =>
        '(ss, r1) ← digits 2 r 0;
        match r1 with
        | String "." r2 => '(ms, r3) ← digits 3 r2 0; Some (ss, ms, r3)
        | _ => Some (ss, 0, r1)
        end
    | _ => Some (0, 0, s)
    end;
  if (hh <=? 23) && (mm <=? 59) && (ss <=? 59)
     || (hh =? 24) && (mm =? 0) && (ss =? 0) && (ms =? 0)
  then Some (hh * 3600000 + mm * 60000 + ss * 1000 + ms, s)
  else None.

(** The offset from UTC in milliseconds, up to the end of the text. *)
Definition parse_offset (s : string) : option Z :=
  match s with
  | String "Z" EmptyString => Some 0
  | String c r =>
      if Ascii.eqb c "+" || Ascii.eqb c "-" then
        '(hh, r) ← digits 2 r 0; r ← expect ":" r;
        '(mm, r) ← digits 2 r 0;
        if String.eqb r EmptyString && (hh <=? 23) && (mm <=? 59)
        then Some ((if Ascii.eqb c "-" then -1 else 1)
                   * (hh * 3600000 + mm * 60000))
        else None
      else None
  | EmptyString => None
  end.

(** [Date.parse] on a host in the time zone UTC that reads the date-time
    string format and no other text.  A date alone is a time of UTC; a
    date and time without an offset is a local time, which is UTC here. *)
Definition parse_iso (s : string) : number :=
  let result :=
    '(y, s) ← parse_year s;
    '(m, d, s) ← parse_month_day s;
    '(time, offset) ←
      match s with
      | EmptyString => Some (0, 0)
      | String "T" r =>
          '(time, r) ← parse_time r;
          match r with
          | EmptyString => Some (time, 0)
          | _ => offset ← parse_offset r; Some (time, offset)
          end
      | _ => None
      end;
    let t := days_from_civil y m d * 86400000 + time - offset in
    if (1 <=? m) && (m <=? 12) && (1 <=? d) && (d <=? days_in_month y m)
       && (Z.abs t <=? 8640000000000000)
    then Some (of_Z t) else None in
  default NaN result.

(** The text of a number that may be a year: an integer of at most six
    digits prints as its decimal. *)
Definition year_text (x : number) : option string :=
  match truncate x with
  | Some n =>
      if SFeqb (of_Z n) x && (Z.abs n <=? 999999) then Some (pretty n) else None
  | None => None
  end.

(** The time value of [new Date(v)] on that host.  An array prints as its
    elements separated by commas, so only a one-element array can print a
    date. *)
Fixpoint Date_iso (v : value) : number :=
  match v with
  | VUndefined => NaN
  | VNull => zero
  | VBool b => if b then of_Z 1 else zero
  | VNum x => timeClip x
  | VStr s => parse_iso s
  | VArr [x] =>
      match x with
      | VStr s => parse_iso s
      | VNum n => match year_text n with Some s => parse_iso s | None => NaN end
      | VArr _ => Date_iso x
      | _ => NaN
      end
  | VArr _ => NaN
  | VObj _ => NaN
  end.

End Date.

(* ===================================================================== *)
(** ** config.js: the shape of CONFIG *)
(* ===================================================================== *)

(** A factor that is missing from its category reads as [undefined], which
    is NaN in every product: it is modelled by NaN.  A missing category
    makes the property access below it throw. *)
Module Config.

Import JS.

Record TransportFactors : Type :=
  { car : number; flightShort : number; publicTransport : number }.
Record EnergyFactors : Type := { electricity : number; gas : number }.
Record FoodFactors : Type := { meatMeal : number; dairyServing : number }.
Record WasteFactors : Type := { wasteBag : number; recyclingOffset : number }.
Record ShoppingFactors : Type := { general : number; electronics : number }.

Record EmissionFactors : Type :=
  { transport : option TransportFactors;
    energy : option EnergyFactors;
    food : option FoodFactors;
    waste : option WasteFactors;
    shopping : option ShoppingFactors }.

Record Conversions : Type := { kgToTonnes : number }.
Record App : Type := { demoMode : bool }.

Record t : Type :=
  { app : option App;
    emissionFactors : option EmissionFactors;
    conversions : option Conversions }.

(** What a name such as [CONFIG] or [window.CONFIG] holds. *)
Inductive binding : Type :=
| Undefined
| Falsy
| Bound (c : t).

(** The factor table that config.js and the fallback of [getConfig] both
    carry. *)
Definition defaultFactors : EmissionFactors :=
  {| transport := Some {| car := dec 41 100; flightShort := dec 158 1000;
                          publicTransport := dec 53 1000 |};
     energy := Some {| electricity := dec 233 1000; gas := dec 53 10 |};
     food := Some {| meatMeal := dec 719 100; dairyServing := dec 25 10 |};
     waste := Some {| wasteBag := dec 25 10;
                      recyclingOffset := SFopp (dec 12 10) |};
     shopping := Some {| general := dec 5 1000; electronics := of_Z 50 |} |}.

(** The object [getConfig] returns when no CONFIG is loaded. *)
Definition fallback : t :=
  {| app := Some {| demoMode := true |};
     emissionFactors := Some defaultFactors;
     conversions := Some {| kgToTonnes := dec 1 1000 |} |}.

End Config.

(* ===================================================================== *)
(** ** The page: globals, form, storage, clock *)
(* ===================================================================== *)

(** What [localStorage] holds under a key: a JSON text, given by the value
    it denotes, the empty string, or text that is not JSON. *)
Inductive item : Type :=
| Json (v : JS.value)
| EmptyText
| NotJson.

(** [appState.currentCalculation]. *)
Record Breakdown : Type :=
  { transport : JS.number;
    energy : JS.number;
    food : JS.number;
    waste : JS.number;
    shopping : JS.number }.

Record Calculation : Type :=
  { co2e : JS.number;
    category : string;
    timestamp : string;
    breakdown : option Breakdown }.

(** The comparison sentence of the result description.  The page prints
    the magnitudes of [difference] and [percentChange] for a reduction and
    the numbers themselves for an increase, to two and one decimals. *)
Inductive Direction : Type := reduction | increase | unchanged.

Record Comparison : Type :=
  { difference : JS.number;
    percentChange : JS.number;
    direction : Direction }.

Inductive Rating : Type := belowAverage | closeToAverage | aboveAverage.

Inductive Description : Type :=
| EnterValues
| Rated (r : Rating) (c : option Comparison).

(** What the user is shown. *)
Inductive Output : Type :=
| AlertConfigurationNotLoaded
| AlertFootprint (tonnes : JS.number)
| ShowResult (displayValue : JS.number) (description : option Description).

(** [document] maps the id of an element to its [value]; the result
    elements matter by their presence only.  [clock] is the sequence of
    readings [Date.now()] and [new Date()] return, [reads] the number of
    readings taken so far.  [shown] lists what the page has presented: the
    alerts, and the results displayed in the result elements. *)
Record World : Type :=
  { CONFIG : Config.binding;
    window_CONFIG : Config.binding;
    document : gmap string string;
    localStorage : gmap string item;
    clock : nat -> Z;
    reads : nat;
    currentCalculation : option Calculation;
    shown : list Output }.

Definition Date_now (w : World) : Z * World :=
  (clock w (reads w),
   {| CONFIG := CONFIG w; window_CONFIG := window_CONFIG w;
      document := document w; localStorage := localStorage w;
      clock := clock w; reads := S (reads w);
      currentCalculation := currentCalculation w; shown := shown w |}).

Definition set_currentCalculation (c : Calculation) (w : World) : World :=
  {| CONFIG := CONFIG w; window_CONFIG := window_CONFIG w;
     document := document w; localStorage := localStorage w;
     clock := clock w; reads := reads w;
     currentCalculation := Some c; shown := shown w |}.

Definition show (o : Output) (w : World) : World :=
  {| CONFIG := CONFIG w; window_CONFIG := window_CONFIG w;
     document := document w; localStorage := localStorage w;
     clock := clock w; reads := reads w;
     currentCalculation := currentCalculation w; shown := shown w ++ [o] |}.

Definition setItem (k : string) (v : item) (w : World) : World :=
  {| CONFIG := CONFIG w; window_CONFIG := window_CONFIG w;
     document := document w; localStorage := <[k := v]> (localStorage w);
     clock := clock w; reads := reads w;
     currentCalculation := currentCalculation w; shown := shown w |}.

Declare Scope js_scope.
Delimit Scope js_scope with js.
Infix "+" := JS.add : js_scope.
Infix "-" := JS.sub : js_scope.
Infix "*" := JS.mul : js_scope.
Infix "/" := JS.div : js_scope.
Infix "<" := JS.lt : js_scope.
Infix ">" := JS.gt : js_scope.
Infix "===" := JS.strict_eq (at level 70) : js_scope.
Infix "||" := JS.or_else : js_scope.

(* ===================================================================== *)
(** ** app.js *)
(* ===================================================================== *)

Module App.

Import JS.

(** [getConfig]: the global CONFIG when it is defined, else a truthy
    [window.CONFIG], else the fallback object. *)
Definition getConfig (w : World) : Config.binding :=
  match CONFIG w with
  | Config.Undefined =>
      match window_CONFIG w with
      | Config.Bound c => Config.Bound c
      | _ => Config.Bound Config.fallback
      end
  | b => b
  end.

(** The helper [safeParseFloat] of [calculateFootprint]. *)
Definition safeParseFloat (doc : gmap string string) (elementId : string)
  : number :=
  match doc !! elementId with
  | None => zero
  | Some text =>
      let value := parseFloat text in
      if isNaN value || (value < zero)%js then zero else value
  end.

(** [Math.min(100, Math.max(0, x))]. *)
Definition clampPercent (x : number) : number :=
  Math_min (of_Z 100) (Math_max zero x).

(** The per-activity emissions in kg CO2e per day: the constants of the
    [try] block, under their names. *)
Record Emissions : Type :=
  { transportCarCo2e : number;
    transportFlightsCo2e : number;
    transportPublicCo2e : number;
    electricityEmissions : number;
    gasCo2e : number;
    foodMeatCo2e : number;
    foodDairyCo2e : number;
    wasteCo2e : number;
    shoppingCo2e : number;
    electronicsCo2e : number }.

(** Net waste: the bags' emissions less the recycling offset. *)
Definition netWaste (wasteBagsPerDay recyclingPercent : number)
  (f : Config.WasteFactors) : number :=
  let wasteEmissions := (wasteBagsPerDay * Config.wasteBag f)%js in
  let recyclingOffset :=
    (wasteEmissions * (recyclingPercent / of_Z 100)
     * Math_abs (Config.recyclingOffset f))%js in
  (wasteEmissions - recyclingOffset)%js.

(** The emissions the [try] block computes from the form; [None] when a
    category of the factor table is missing and its access throws. *)
Definition emissions (factors : Config.EmissionFactors)
  (doc : gmap string string) : option Emissions :=
  t ← Config.transport factors;
  let carMilesPerDay := safeParseFloat doc "car-miles" in
  let flightsPerDay := safeParseFloat doc "flights" in
  let publicTransportPerDay := safeParseFloat doc "public-transport" in
  e ← Config.energy factors;
  let electricityPerDay := safeParseFloat doc "electricity" in
  let gasPerDay := safeParseFloat doc "gas" in
  let renewablePercent := clampPercent (safeParseFloat doc "renewable-percent") in
  f ← Config.food factors;
  let meatMealsPerDay := safeParseFloat doc "meat-meals" in
  let dairyPerDay := safeParseFloat doc "dairy-products" in
  let localFoodPercent := clampPercent (safeParseFloat doc "local-food") in
  let meatReduction :=
    Math_max (dec 8 10) (of_Z 1 - (localFoodPercent / of_Z 100) * dec 2 10)%js in
  wf ← Config.waste factors;
  let wasteBagsPerDay := safeParseFloat doc "waste-bags" in
  let recyclingPercent := clampPercent (safeParseFloat doc "recycling-percent") in
  s ← Config.shopping factors;
  let shoppingSpendPerDay := safeParseFloat doc "shopping-spend" in
  let electronicsPerDay := safeParseFloat doc "electronics" in
  Some
    {| transportCarCo2e := (carMilesPerDay * Config.car t)%js;
       transportFlightsCo2e :=
         (flightsPerDay * of_Z 1000 * Config.flightShort t)%js;
       transportPublicCo2e :=
         (publicTransportPerDay * Config.publicTransport t)%js;
       electricityEmissions :=
         (electricityPerDay * Config.electricity e
          * (of_Z 1 - renewablePercent / of_Z 100))%js;
       gasCo2e := (gasPerDay * Config.gas e)%js;
       foodMeatCo2e := (meatMealsPerDay * Config.meatMeal f * meatReduction)%js;
       foodDairyCo2e := (dairyPerDay * Config.dairyServing f)%js;
       wasteCo2e := netWaste wasteBagsPerDay recyclingPercent wf;
       shoppingCo2e := (shoppingSpendPerDay * Config.general s)%js;
       electronicsCo2e := (electronicsPerDay * Config.electronics s)%js |}.

(** [totalCo2e] after its ten [+=], starting from 0. *)
Definition totalCo2e (e : Emissions) : number :=
  (zero + transportCarCo2e e + transportFlightsCo2e e + transportPublicCo2e e
   + electricityEmissions e + gasCo2e e
   + foodMeatCo2e e + foodDairyCo2e e
   + wasteCo2e e
   + shoppingCo2e e + electronicsCo2e e)%js.

(** [CONFIG_TO_USE.conversions?.kgToTonnes || 0.001]. *)
Definition kgToTonnes (c : Config.t) : number :=
  (match Config.conversions c with
   | Some cv => Config.kgToTonnes cv
   | None => NaN
   end || dec 1 1000)%js.

Definition totalTonnes (c : Config.t) (e : Emissions) : number :=
  (totalCo2e e * kgToTonnes c)%js.

(** [isNaN(x) || x < 0 ? 0 : x], as applied to [totalTonnes] and, in
    [displayCalculationResult], to [tonnes]. *)
Definition validNumber (x : number) : number :=
  if isNaN x || (x < zero)%js then zero else x.

Definition finalTotalTonnes (c : Config.t) (e : Emissions) : number :=
  validNumber (totalTonnes c e).

Definition breakdownOf (c : Config.t) (e : Emissions) : Breakdown :=
  let k := kgToTonnes c in
  {| transport :=
       ((transportCarCo2e e + transportFlightsCo2e e + transportPublicCo2e e)
        * k)%js;
     energy := ((electricityEmissions e + gasCo2e e) * k)%js;
     food := ((foodMeatCo2e e + foodDairyCo2e e) * k)%js;
     waste := (wasteCo2e e * k)%js;
     shopping := ((shoppingCo2e e + electronicsCo2e e) * k)%js |}.

(** [api.getCarbonLogs()]: the parsed item, [[]] when there is none;
    [None] when [JSON.parse] throws. *)
Definition getCarbonLogs (w : World) : option value :=
  match localStorage w !! "carbonLogs" with
  | None | Some EmptyText => Some (VArr [])
  | Some NotJson => None
  | Some (Json v) => Some v
  end.

(** The comparison block of [displayCalculationResult]: made only when
    [previousCalculation && previousCalculation.co2e] is truthy. *)
Definition previous_co2e (previousCalculation : value) : value :=
  if truthy_value previousCalculation then
    match previousCalculation with
    | VObj fields => lookup_field "co2e" fields
    | _ => VUndefined
    end
  else previousCalculation.

(** The comparison, if one is made; the outer [None] when [parseFloat]
    throws on the [co2e] of the previous calculation. *)
Definition compareWithPrevious (displayValue : number)
  (previousCalculation : value) : option (option Comparison) :=
  let co2e := previous_co2e previousCalculation in
  if truthy_value co2e then
    parsed ← parseFloat_value co2e;
    let previousValue := (parsed || zero)%js in
    let difference := (displayValue - previousValue)%js in
    let percentChange :=
      if (previousValue > zero)%js
      then (difference / previousValue * of_Z 100)%js else zero in
    Some (Some {| difference := difference;
                  percentChange := percentChange;
                  direction :=
                    if (Math_abs difference > dec 1 100)%js then
                      if (difference < zero)%js then reduction else increase
                    else unchanged |})
  else Some None.

(** The description; [None] when building it throws. *)
Definition describe (displayValue : number) (previousCalculation : value)
  : option Description :=
  if (displayValue === zero)%js then Some EnterValues
  else
    Rated
      (if (displayValue < dec 13 1000)%js then belowAverage
       else if (displayValue < dec 22 1000)%js then closeToAverage
       else aboveAverage)
    <$> compareWithPrevious displayValue previousCalculation.

(** [displayCalculationResult(tonnes, previousCalculation = null)]; the
    flag tells whether it ran to its end.  When building the description
    throws, the text of [resultValue] has been written and nothing else:
    the page presents no result of this call, and [calculateFootprint]
    writes the elements again in its [catch] block before the script
    yields. *)
Definition displayCalculationResult (tonnes : number)
  (previousCalculation : value) (w : World) : World * bool :=
  match document w !! "calculationResult", document w !! "resultValue" with
  | Some _, Some _ =>
      let displayValue := validNumber tonnes in
      match document w !! "resultDescription" with
      | Some _ =>
          match describe displayValue previousCalculation with
          | Some description =>
              (show (ShowResult displayValue (Some description)) w, true)
          | None => (w, false)
          end
      | None => (show (ShowResult displayValue None) w, true)
      end
  | _, _ => (show (AlertFootprint tonnes) w, true)
  end.

(** What the language leaves to the host.  [Date_of_value v] is the time
    value of [new Date(v)] for a value [v] that has a primitive; for a
    string this is [Date.parse], which each host implements in its own
    way.  [Array_sort] is the order in which [sort] leaves the entries,
    paired with their dates, when the comparator [dateB - dateA] is not
    consistent; the language asks for a rearrangement and no more. *)
Record Host : Type :=
  { Date_of_value : value -> number;
    Array_sort : list (value * number) -> list (value * number);
    Array_sort_permutation : forall logs, Array_sort logs ≡ₚ logs }.

Section Host.

Variable host : Host.

(** [new Date(a.timestamp || a.date || 0)]; [None] when it throws: [a] is
    [null], or the argument has no primitive. *)
Definition entryDate (a : value) : option number :=
  ts ← get_property a "timestamp";
  argument ←
    (if truthy_value ts then Some ts
     else
       d ← get_property a "date";
       Some (if truthy_value d then d else VNum zero));
  if ToString_throws argument then None
  else Some (Date_of_value host argument).

(** The stable insertion sort by the comparator [dateB - dateA]: [a] goes
    behind [b] when the comparator is positive on [(a, b)]. *)
Fixpoint insertLog (a : value * number) (sorted : list (value * number))
  : list (value * number) :=
  match sorted with
  | [] => [a]
  | b :: rest =>
      if (snd b - snd a > zero)%js then b :: insertLog a rest
      else a :: sorted
  end.

(** [logs.sort((a, b) => dateB - dateA)] on the entries paired with their
    dates.  The sort is stable; when no date is NaN the comparator is
    consistent and the result is the one of the insertion sort.  With a
    NaN date the comparator is not consistent, and the order is the
    host's. *)
Definition sortLogs (logs : list (value * number)) : list (value * number) :=
  if forallb (fun log => negb (isNaN (snd log))) logs
  then foldr insertLog [] logs
  else Array_sort host logs.

(** [getPreviousCalculation]: the entry with the latest date, [null]
    without entries; [None] when it throws.  A single entry is returned
    without a call of the comparator.  Text that is no array has no [sort]. *)
Definition getPreviousCalculation (w : World) : option value :=
  logs ← getCarbonLogs w;
  match logs with
  | VArr [] => Some VNull
  | VArr [a] => Some a
  | VArr entries =>
      dates ← mapM entryDate entries;
      Some (default VUndefined (fst <$> head (sortLogs (zip entries dates))))
  | VStr s => if String.eqb s EmptyString then Some VNull else None
  | VObj fields =>
      match lookup_field "length" fields with
      | VNum (S754_zero _) => Some VNull
      | _ => None
      end
  | _ => None
  end.

(** The [try] block of [calculateFootprint]; the flag tells whether it ran
    to its end, and the world is the one reached when it stopped. *)
Definition tryCalculate (c : Config.t) (factors : Config.EmissionFactors)
  (w : World) : World * bool :=
  match emissions factors (document w) with
  | None => (w, false)
  | Some e =>
      let '(now, w1) := Date_now w in
      let w2 :=
        set_currentCalculation
          {| co2e := finalTotalTonnes c e;
             category := "mixed";
             timestamp := Date.toISOString now;
             breakdown := Some (breakdownOf c e) |} w1 in
      match getPreviousCalculation w2 with
      | None => (w2, false)
      | Some previousCalculation =>
          displayCalculationResult (finalTotalTonnes c e)
            previousCalculation w2
      end
  end.

(** The [catch] block: a result of 0 without a breakdown, displayed
    without a previous calculation. *)
Definition catchCalculate (w : World) : World :=
  let '(now, w1) := Date_now w in
  fst (displayCalculationResult zero VNull
         (set_currentCalculation
            {| co2e := zero;
               category := "mixed";
               timestamp := Date.toISOString now;
               breakdown := None |} w1)).

(** [calculateFootprint()]: the world it leaves and what it returns. *)
Definition calculateFootprint (w : World) : World * bool :=
  match getConfig w with
  | Config.Bound c =>
      match Config.emissionFactors c with
      | Some factors =>
          let '(w', completed) := tryCalculate c factors w in
          if completed then (w', true) else (catchCalculate w', false)
      | None => (show AlertConfigurationNotLoaded w, false)
      end
  | _ => (show AlertConfigurationNotLoaded w, false)
  end.

End Host.

End App.

(* ===================================================================== *)
(** ** api.js: the carbon-log store *)
(* ===================================================================== *)

Module API.

Import JS.

(** The value a JSON text of [v] denotes, [JSON.parse(JSON.stringify(v))]:
    a number that is not finite is written as [null], -0 as 0; a property
    holding [undefined] is left out, and [undefined] in an array is written
    as [null]. *)
Fixpoint jsonify (v : value) : value :=
  match v with
  | VUndefined => VNull
  | VNum x =>
      if isFinite x then (if is_zero x then VNum zero else VNum x) else VNull
  | VArr items => VArr (map jsonify items)
  | VObj fields =>
      VObj
        ((fix properties (fs : list (string * value)) :=
            match fs with
            | [] => []
            | (k, VUndefined) :: rest => properties rest
            | (k, x) :: rest => (k, jsonify x) :: properties rest
            end) fields)
  | _ => v
  end.

(** The properties of a JSON object, as [jsonify] writes them. *)
Definition jsonify_fields (fields : list (string * value))
  : list (string * value) :=
  match jsonify (VObj fields) with
  | VObj fs => fs
  | _ => []
  end.

(** [getCarbonLogs] of api.js. *)
Definition getCarbonLogs : World -> option value := App.getCarbonLogs.

(** [getApiConfig().app.demoMode]: without a CONFIG the defaults say
    [true]; [None] when CONFIG has no [app]. *)
Definition demoMode (w : World) : option bool :=
  let read (c : Config.t) := Config.demoMode <$> Config.app c in
  match CONFIG w with
  | Config.Undefined =>
      match window_CONFIG w with
      | Config.Bound c => read c
      | _ => Some true
      end
  | Config.Falsy => Some true
  | Config.Bound c => read c
  end.

(** The object literal [{ id: 'log-' + Date.now(), ...logData, timestamp:
    new Date().toISOString() }]. *)
Definition newLog (now_id now_timestamp : Z) (logData : list (string * value))
  : list (string * value) :=
  set_field "timestamp" (VStr (Date.toISOString now_timestamp))
    (spread [("id", VStr ("log-" +:+ pretty now_id))] logData).

(** How the promise of [saveCarbonLog] settles: rejected by an exception,
    resolved with the new entry, or handed to the request for [/logs]. *)
Inductive Saved : Type :=
| Rejected
| Resolved (entry : value)
| Posted (entry : value).

(** [saveCarbonLog(logData)]. *)
Definition saveCarbonLog (logData : list (string * value)) (w : World)
  : World * Saved :=
  match getCarbonLogs w with
  | None => (w, Rejected)
  | Some logs =>
      let '(now_id, w1) := Date_now w in
      let '(now_timestamp, w2) := Date_now w1 in
      let entry := VObj (newLog now_id now_timestamp logData) in
      match logs with
      | VArr entries =>
          let w3 := setItem "carbonLogs" (Json (jsonify (VArr (entries ++ [entry])))) w2 in
          match demoMode w3 with
          | None => (w3, Rejected)
          | Some true => (w3, Resolved entry)
          | Some false => (w3, Posted entry)
          end
      | _ => (w2, Rejected)
      end
  end.

(** *** The account methods *)

(** The state of the instance: [this.authToken] and [this.user]. *)
Record Client : Type :=
  { authToken : value;
    user : value }.

(** [localStorage.removeItem(k)]. *)
Definition removeItem (k : string) (w : World) : World :=
  {| CONFIG := CONFIG w; window_CONFIG := window_CONFIG w;
     document := document w; localStorage := delete k (localStorage w);
     clock := clock w; reads := reads w;
     currentCalculation := currentCalculation w; shown := shown w |}.

(** How the promise of a method settles: rejected by an exception,
    resolved with a value, or handed to [this.request] with an endpoint, a
    method and the value its body text denotes. *)
Inductive Reply : Type :=
| Throws
| Returns (v : value)
| Requests (endpoint : string) (method : option string) (body : option value).

(** The properties [{...v}] copies: those of an object, the elements of an
    array and the characters of a string under their indices, none of
    another value. *)
Definition own_properties (v : value) : list (string * value) :=
  match v with
  | VObj fields => fields
  | VArr items => imap (fun i x => (pretty (Z.of_nat i), x)) items
  | VStr s =>
      imap (fun i ch => (pretty (Z.of_nat i), VStr (String ch EmptyString)))
        (list_ascii_of_string s)
  | _ => []
  end.

(** [this.user?.k]. *)
Definition user_property (c : Client) (k : string) : value :=
  match user c with
  | VObj fields => lookup_field k fields
  | _ => VUndefined
  end.

(** [setAuthToken(token)].  The text stored is the token itself; the
    tokens of this class, ['demo-token-' + Date.now()], are no JSON text. *)
Definition setAuthToken (token : string) (c : Client) (w : World)
  : Client * World :=
  ({| authToken := VStr token; user := user c |},
   setItem "authToken" NotJson w).

(** [setUser(user)]; [JSON.stringify(undefined)] is [undefined], stored as
    the text [undefined]. *)
Definition setUser (u : value) (c : Client) (w : World) : Client * World :=
  ({| authToken := authToken c; user := u |},
   setItem "user"
     (match u with VUndefined => NotJson | _ => Json (jsonify u) end) w).

(** [login(email, password)]. *)
Definition login (email password : value) (c : Client) (w : World)
  : Client * World * Reply :=
  match demoMode w with
  | None => (c, w, Throws)
  | Some true =>
      let mockUser :=
        VObj [("id", VStr "demo-user-1"); ("email", email);
              ("isPremium", VBool false); ("householdSize", VNum (of_Z 1));
              ("location", VStr "San Francisco, USA")] in
      let '(now, w1) := Date_now w in
      let mockToken := "demo-token-" +:+ pretty now in
      let '(c1, w2) := setAuthToken mockToken c w1 in
      let '(c2, w3) := setUser mockUser c1 w2 in
      (c2, w3, Returns (VObj [("user", mockUser); ("token", VStr mockToken)]))
  | Some false =>
      (c, w,
       Requests "/auth/login" (Some "POST")
         (Some (jsonify (VObj [("email", email); ("password", password)]))))
  end.

(** [signup(email, password, name)]. *)
Definition signup (email password name : value) (c : Client) (w : World)
  : Client * World * Reply :=
  match demoMode w with
  | None => (c, w, Throws)
  | Some true =>
      let '(now_id, w1) := Date_now w in
      let mockUser :=
        VObj [("id", VStr ("demo-user-" +:+ pretty now_id)); ("email", email);
              ("name", name); ("isPremium", VBool false);
              ("householdSize", VNum (of_Z 1));
              ("location", VStr EmptyString)] in
      let '(now, w2) := Date_now w1 in
      let mockToken := "demo-token-" +:+ pretty now in
      let '(c1, w3) := setAuthToken mockToken c w2 in
      let '(c2, w4) := setUser mockUser c1 w3 in
      (c2, w4, Returns (VObj [("user", mockUser); ("token", VStr mockToken)]))
  | Some false =>
      (c, w,
       Requests "/auth/signup" (Some "POST")
         (Some (jsonify (VObj [("email", email); ("password", password);
                               ("name", name)]))))
  end.

(** [logout()]. *)
Definition logout (c : Client) (w : World) : Client * World * Reply :=
  ({| authToken := VNull; user := VNull |},
   removeItem "user" (removeItem "authToken" w),
   Returns VUndefined).

(** [getUserProfile()]. *)
Definition getUserProfile (c : Client) (w : World) : Reply :=
  match demoMode w with
  | None => Throws
  | Some true =>
      Returns
        (if truthy_value (user c) then user c
         else VObj [("id", VStr "demo-user");
                    ("email", VStr "demo@example.com");
                    ("isPremium", VBool false);
                    ("householdSize", VNum (of_Z 1));
                    ("location", VStr "San Francisco, USA");
                    ("units", VStr "imperial")])
  | Some false => Requests "/user/profile" None None
  end.

(** [updateUserProfile(profileData)], for the properties of an object
    [profileData]. *)
Definition updateUserProfile (profileData : list (string * value))
  (c : Client) (w : World) : Client * World * Reply :=
  match demoMode w with
  | None => (c, w, Throws)
  | Some true =>
      let updatedUser := VObj (spread (own_properties (user c)) profileData) in
      let '(c1, w1) := setUser updatedUser c w in
      (c1, w1, Returns updatedUser)
  | Some false =>
      (c, w,
       Requests "/user/profile" (Some "PUT")
         (Some (jsonify (VObj profileData))))
  end.

(** [getSubscriptionStatus()]. *)
Definition getSubscriptionStatus (c : Client) (w : World) : Reply :=
  match demoMode w with
  | None => Throws
  | Some true =>
      let isPremium := user_property c "isPremium" in
      Returns
        (VObj [("isPremium",
                if truthy_value isPremium then isPremium else VBool false);
               ("status", VStr "active")])
  | Some false => Requests "/subscriptions/status" None None
  end.

(** [cancelSubscription()]. *)
Definition cancelSubscription (c : Client) (w : World)
  : Client * World * Reply :=
  match demoMode w with
  | None => (c, w, Throws)
  | Some true =>
      let u :=
        VObj (set_field "isPremium" (VBool false) (own_properties (user c))) in
      let '(c1, w1) := setUser u c w in
      (c1, w1, Returns (VObj [("success", VBool true)]))
  | Some false => (c, w, Requests "/subscriptions/cancel" (Some "POST") None)
  end.

End API.

(* ===================================================================== *)
(** ** Notions the properties are stated with *)
(* ===================================================================== *)

Import JS.

(** A number that is a zero or NaN: what arithmetic on zero inputs yields
    whatever the factors are. *)
Definition zeroOrNaN (x : number) : bool := is_zero x || isNaN x.

(** The result stored when the [try] block runs to its end. *)
Definition computed (c : Config.t) (e : App.Emissions) (now : Z) : Calculation :=
  {| co2e := App.finalTotalTonnes c e;
     category := "mixed";
     timestamp := Date.toISOString now;
     breakdown := Some (App.breakdownOf c e) |}.

(** The result stored by the [catch] block. *)
Definition defaulted (now : Z) : Calculation :=
  {| co2e := zero;
     category := "mixed";
     timestamp := Date.toISOString now;
     breakdown := None |}.

(** The form fields [calculateFootprint] reads: ten quantities and three
    percentages. *)
Definition quantityIds : list string :=
  ["car-miles"; "flights"; "public-transport"; "electricity"; "gas";
   "meat-meals"; "dairy-products"; "waste-bags"; "shopping-spend";
   "electronics"].

Definition percentIds : list string :=
  ["renewable-percent"; "local-food"; "recycling-percent"].

(** The empty input: none of the fields is there. *)
Definition noInput (doc : gmap string string) : Prop :=
  Forall (fun id => doc !! id = None) (quantityIds ++ percentIds).

(** The CONFIG that config.js defines, as far as the calculator reads it. *)
Definition shippedConfig : Config.t := Config.fallback.

(** The host of the examples: its [Date.parse] reads the date-time string
    format in the time zone UTC, and its [sort] leaves the entries in
    their order when the comparator is not consistent. *)
Definition isoHost : App.Host :=
  {| App.Date_of_value := Date.Date_iso;
     App.Array_sort := fun logs => logs;
     App.Array_sort_permutation := fun logs => Permutation_refl logs |}.

(** A calculator page with config.js loaded: the three result elements,
    the given form values and stored items, a clock that starts at [t0]
    and advances by a millisecond per reading. *)
Definition page (inputs : list (string * string))
  (stored : list (string * item)) (t0 : Z) : World :=
  {| CONFIG := Config.Bound shippedConfig;
     window_CONFIG := Config.Bound shippedConfig;
     document :=
       list_to_map
         (inputs ++ [("calculationResult", EmptyString);
                     ("resultValue", EmptyString);
                     ("resultDescription", EmptyString)]);
     localStorage := list_to_map stored;
     clock := fun n => t0 + Z.of_nat n;
     reads := 0;
     currentCalculation := None;
     shown := [] |}.

(** The same page when config.js did not load. *)
Definition pageWithoutConfig (inputs : list (string * string))
  (stored : list (string * item)) (t0 : Z) : World :=
  {| CONFIG := Config.Undefined;
     window_CONFIG := Config.Undefined;
     document := document (page inputs stored t0);
     localStorage := localStorage (page inputs stored t0);
     clock := clock (page inputs stored t0);
     reads := 0;
     currentCalculation := None;
     shown := [] |}.

(** The comparison a description carries, if any. *)
Definition comparisonShown (d : Description) : option Comparison :=
  match d with
  | Rated _ c => c
  | EnterValues => None
  end.

(** The classification as the specification words it: a reduction below
    -0.01, an increase above 0.01, unchanged in between. *)
Definition classify (delta : number) : Direction :=
  if (delta < SFopp (dec 1 100))%js then reduction
  else if (delta > dec 1 100)%js then increase
  else unchanged.

(** The world with another form. *)
Definition with_document (doc : gmap string string) (w : World) : World :=
  {| CONFIG := CONFIG w; window_CONFIG := window_CONFIG w;
     document := doc; localStorage := localStorage w;
     clock := clock w; reads := reads w;
     currentCalculation := currentCalculation w; shown := shown w |}.

(** The form with the field [id] set to [text]. *)
Definition with_input (id text : string) (w : World) : World :=
  with_document (<[id := text]> (document w)) w.

(** What a run of [calculateFootprint] yields: the stored result, what the
    page shows, and the value returned. *)
Definition outcome (r : World * bool)
  : option Calculation * list Output * bool :=
  (currentCalculation (fst r), shown (fst r), snd r).

(** The real number a finite number stands for (0 for the others). *)
Definition toR (x : number) : R :=
  match x with
  | S754_finite s m e => (IZR (cond_Zopp s (Zpos m)) * powerRZ 2 e)%R
  | _ => 0%R
  end.

(** The sum of the five entries of a breakdown, as a real number. *)
Definition breakdownTotal (b : Breakdown) : R :=
  (toR (transport b) + toR (energy b) + toR (food b) + toR (waste b)
   + toR (shopping b))%R.

(** The ten per-activity emissions of a calculation. *)
Definition terms (e : App.Emissions) : list number :=
  [App.transportCarCo2e e; App.transportFlightsCo2e e;
   App.transportPublicCo2e e; App.electricityEmissions e; App.gasCo2e e;
   App.foodMeatCo2e e; App.foodDairyCo2e e; App.wasteCo2e e;
   App.shoppingCo2e e; App.electronicsCo2e e].

(** The stored user mirrors the user of the instance: no item while the
    instance has none, and the text [JSON.stringify] writes for the user
    otherwise. *)
Definition in_sync (c : API.Client) (w : World) : Prop :=
  localStorage w !! "user"
  = match API.user c with
    | VNull => None
    | VUndefined => Some NotJson
    | u => Some (Json (API.jsonify u))
    end.

(** The calls of the instance that write: each takes the instance and the
    page to the state it leaves. *)
Inductive Call : Type :=
| Login (email password : value)
| Signup (email password name : value)
| Logout
| UpdateUserProfile (profileData : list (string * value))
| CancelSubscription
| SaveCarbonLog (logData : list (string * value)).

Definition call (k : Call) (s : API.Client * World) : API.Client * World :=
  match k with
  | Login email password => fst (API.login email password (fst s) (snd s))
  | Signup email password name =>
      fst (API.signup email password name (fst s) (snd s))
  | Logout => fst (API.logout (fst s) (snd s))
  | UpdateUserProfile profileData =>
      fst (API.updateUserProfile profileData (fst s) (snd s))
  | CancelSubscription => fst (API.cancelSubscription (fst s) (snd s))
  | SaveCarbonLog logData => (fst s, fst (API.saveCarbonLog logData (snd s)))
  end.

Definition calls (ks : list Call) (s : API.Client * World)
  : API.Client * World :=
  fold_left (fun s k => call k s) ks s.

(** An instance that nobody is logged in to. *)
Definition loggedOut : API.Client :=
  {| API.authToken := VNull; API.user := VNull |}.

(** A finite double: a zero, or a finite number in the form the operations
    produce.  The time value of a date that is a time is one. *)
Definition finiteDouble (d : number) : bool :=
  isFinite d && valid_binary prec emax d.

(* ===================================================================== *)
(** ** Facts about numbers *)
(* ===================================================================== *)


Lemma zeroOrNaN_mul_l (x y : number) :
  zeroOrNaN x = true -> zeroOrNaN (x * y)%js = true.
Proof. destruct x as [ | | | ]; try discriminate; intros _; destruct y; reflexivity. Qed.

Lemma zeroOrNaN_add (x y : number) :
  zeroOrNaN x = true -> zeroOrNaN y = true -> zeroOrNaN (x + y)%js = true.
Proof.
  destruct x as [sx | | | ]; try discriminate; intros _;
    destruct y as [sy | | | ]; try discriminate; intros _; try reflexivity.
  destruct sx, sy; reflexivity.
Qed.

Lemma zeroOrNaN_sub (x y : number) :
  zeroOrNaN x = true -> zeroOrNaN y = true -> zeroOrNaN (x - y)%js = true.
Proof.
  destruct x as [sx | | | ]; try discriminate; intros _;
    destruct y as [sy | | | ]; try discriminate; intros _; try reflexivity.
  destruct sx, sy; reflexivity.
Qed.

Lemma validNumber_not_NaN (x : number) : isNaN (App.validNumber x) = false.
Proof.
  unfold App.validNumber. destruct (isNaN x) eqn:Hn; simpl; [reflexivity |].
  destruct (x < zero)%js; [reflexivity | exact Hn].
Qed.

Lemma validNumber_not_negative (x : number) :
  (App.validNumber x < zero)%js = false.
Proof.
  unfold App.validNumber. destruct (isNaN x); simpl; [reflexivity |].
  destruct (x < zero)%js eqn:Hlt; [reflexivity | exact Hlt].
Qed.

Lemma validNumber_clamps (x : number) :
  isNaN x = true \/ (x < zero)%js = true -> App.validNumber x = zero.
Proof.
  unfold App.validNumber. intros [-> | ->]; [reflexivity |].
  rewrite orb_true_r. reflexivity.
Qed.

Lemma validNumber_zeroOrNaN (x : number) :
  zeroOrNaN x = true -> (App.validNumber x === zero)%js = true.
Proof. destruct x as [[] | | | ]; try discriminate; reflexivity. Qed.

(** [x < y] is [false] when [x] is NaN; a number above a positive one is
    positive. *)
Lemma lt_positive_trans (x : number) :
  (of_Z 100 < x)%js = true -> (zero < x)%js = true.
Proof. destruct x as [ | [] | | [] ? ?]; try discriminate; reflexivity. Qed.

(* ===================================================================== *)
(** ** What [calculateFootprint] leaves behind *)
(* ===================================================================== *)

Section Outcome.

Import App.

Variable host : App.Host.

Lemma getPreviousCalculation_storage (w w' : World) :
  localStorage w = localStorage w' ->
  getPreviousCalculation host w = getPreviousCalculation host w'.
Proof.
  intros H. unfold getPreviousCalculation, getCarbonLogs. rewrite H. reflexivity.
Qed.


(** A display adds one output and runs to its end, or it throws and
    leaves the page as it was. *)
Lemma displayCalculationResult_cases (t : number) (p : value) (w : World) :
  (exists o, displayCalculationResult t p w = (show o w, true))
  \/ displayCalculationResult t p w = (w, false).
Proof.
  unfold displayCalculationResult.
  destruct (document w !! "calculationResult"), (document w !! "resultValue");
    try (left; eexists; reflexivity).
  destruct (document w !! "resultDescription");
    [ | left; eexists; reflexivity].
  destruct (describe (validNumber t) p);
    [left; eexists; reflexivity | right; reflexivity].
Qed.

Lemma currentCalculation_display (t : number) (p : value) (w : World) :
  currentCalculation (fst (displayCalculationResult t p w))
  = currentCalculation w.
Proof.
  destruct (displayCalculationResult_cases t p w) as [[o ->] | ->];
    reflexivity.
Qed.

(** Whether a display runs to its end depends on the page through its
    elements only. *)
Lemma display_completes_document (t : number) (p : value) (w w' : World) :
  document w = document w' ->
  snd (displayCalculationResult t p w) = snd (displayCalculationResult t p w').
Proof.
  intros H. unfold displayCalculationResult. rewrite H.
  destruct (document w' !! "calculationResult"), (document w' !! "resultValue");
    try reflexivity.
  destruct (document w' !! "resultDescription"); [ | reflexivity].
  destruct (describe (validNumber t) p); reflexivity.
Qed.

(** A display without a previous calculation runs to its end. *)
Lemma display_without_previous (t : number) (w : World) :
  snd (displayCalculationResult t VNull w) = true.
Proof.
  unfold displayCalculationResult.
  destruct (document w !! "calculationResult"), (document w !! "resultValue");
    try reflexivity.
  destruct (document w !! "resultDescription"); [ | reflexivity].
  unfold describe. destruct (validNumber t === zero)%js; reflexivity.
Qed.

(** The [co2e] of a previous calculation that [parseFloat] can read, or
    that is not read at all, lets the display run to its end. *)
Lemma display_of_readable (t : number) (p : value) (w : World) :
  ToString_throws (previous_co2e p) = false ->
  snd (displayCalculationResult t p w) = true.
Proof.
  intros Hp. unfold displayCalculationResult.
  destruct (document w !! "calculationResult"), (document w !! "resultValue");
    try reflexivity.
  destruct (document w !! "resultDescription"); [ | reflexivity].
  unfold describe. destruct (validNumber t === zero)%js; [reflexivity |].
  unfold compareWithPrevious, parseFloat_value. rewrite Hp.
  destruct (truthy_value (previous_co2e p)); reflexivity.
Qed.

(** With a usable CONFIG, [calculateFootprint] stores the computed result
    and returns [true] when every category is there, the log store can be
    read and the display runs to its end; otherwise it stores the default
    of the [catch] block and returns [false]. *)
Lemma calculateFootprint_stores (w : World) (c : Config.t)
  (factors : Config.EmissionFactors) :
  getConfig w = Config.Bound c ->
  Config.emissionFactors c = Some factors ->
  (currentCalculation (fst (calculateFootprint host w)),
   snd (calculateFootprint host w)) =
  match emissions factors (document w),
        getPreviousCalculation host w with
  | Some e, Some p =>
      if snd (displayCalculationResult (finalTotalTonnes c e) p w)
      then (Some (computed c e (clock w (reads w))), true)
      else (Some (defaulted (clock w (S (reads w)))), false)
  | Some e, None => (Some (defaulted (clock w (S (reads w)))), false)
  | None, _ => (Some (defaulted (clock w (reads w))), false)
  end.
Proof.
  intros Hc Hf. unfold calculateFootprint, tryCalculate. rewrite Hc, Hf.
  destruct (emissions factors (document w)) as [e | ] eqn:He.
  - cbn [Date_now].
    match goal with
    | |- context [getPreviousCalculation _ ?w2] =>
        rewrite (getPreviousCalculation_storage w2 w) by reflexivity
    end.
    destruct (getPreviousCalculation host w) as [p | ]; cbn [fst snd].
    + match goal with
      | |- context [displayCalculationResult ?t ?p ?w2] =>
          rewrite <- (display_completes_document t p w2 w) by reflexivity;
          destruct (displayCalculationResult_cases t p w2) as [[o ->] | ->]
      end; cbn [fst snd]; [reflexivity |].
      unfold catchCalculate. cbn [Date_now fst snd].
      rewrite currentCalculation_display. reflexivity.
    + unfold catchCalculate. cbn [Date_now fst snd].
      rewrite currentCalculation_display. reflexivity.
  - destruct (getPreviousCalculation host w); cbn [fst snd];
      unfold catchCalculate; cbn [Date_now fst snd];
      rewrite currentCalculation_display; reflexivity.
Qed.

End Outcome.

(* ===================================================================== *)
(** ** The total is a valid number *)
(* ===================================================================== *)

(** C3, as the code has it: with a factor table in CONFIG, the [co2e] that
    [calculateFootprint] stores is never NaN and never negative, and it is
    0 whenever the computed total in tonnes is NaN or negative.  It is not
    always finite: an overflowing total is stored as Infinity. *)
Theorem co2e_is_valid_number (host : App.Host) (w : World)
  (c : Config.t) (factors : Config.EmissionFactors) :
  App.getConfig w = Config.Bound c ->
  Config.emissionFactors c = Some factors ->
  exists calc,
    currentCalculation (fst (App.calculateFootprint host w)) = Some calc
    /\ isNaN (co2e calc) = false
    /\ (co2e calc < zero)%js = false
    /\ (forall e,
          App.emissions factors (document w) = Some e ->
          isNaN (App.totalTonnes c e) = true
          \/ (App.totalTonnes c e < zero)%js = true ->
          co2e calc = zero).
Proof.
  intros Hc Hf.
  pose proof (calculateFootprint_stores host w c factors Hc Hf) as H.
  destruct (App.emissions factors (document w)) as [e | ];
    [destruct (App.getPreviousCalculation host w) as [p | ];
       [destruct (snd (App.displayCalculationResult _ p w)) | ] | ];
    injection H as H _; rewrite H; eexists; (split; [reflexivity |]); cbn [co2e].
  - split; [apply validNumber_not_NaN |].
    split; [apply validNumber_not_negative |].
    intros e' [= <-] Hbad. apply validNumber_clamps, Hbad.
  - repeat split.
  - repeat split.
  - repeat split.
Qed.

(** A page on which the hypotheses of C3 hold. *)
Lemma co2e_is_valid_number_witness :
  exists calc,
    currentCalculation
      (fst (App.calculateFootprint isoHost
              (page [("car-miles", "20")] [] 1700000000000))) = Some calc
    /\ isNaN (co2e calc) = false
    /\ (co2e calc < zero)%js = false
    /\ (forall e,
          App.emissions Config.defaultFactors
            (document (page [("car-miles", "20")] [] 1700000000000)) = Some e ->
          isNaN (App.totalTonnes shippedConfig e) = true
          \/ (App.totalTonnes shippedConfig e < zero)%js = true ->
          co2e calc = zero).
Proof.
  apply (co2e_is_valid_number isoHost
           (page [("car-miles", "20")] [] 1700000000000)
           shippedConfig Config.defaultFactors); reflexivity.
Defined.

(** The claim C3 fails as it is stated: a million flights a day with the
    shipped factors overflow, and the stored total is Infinity. *)
Lemma co2e_not_always_finite :
  let w := page [("flights", "1e306")] [] 1700000000000 in
  (co2e <$> currentCalculation (fst (App.calculateFootprint isoHost w)))
  = Some Infinity
  /\ isFinite Infinity = false.
Proof. split; vm_compute; reflexivity. Qed.

(* ===================================================================== *)
(** ** Zero input, zero output *)
(* ===================================================================== *)

Lemma safeParseFloat_absent (doc : gmap string string) (id : string) :
  doc !! id = None -> App.safeParseFloat doc id = zero.
Proof. intros H. unfold App.safeParseFloat. rewrite H. reflexivity. Qed.

Lemma netWaste_zeroOrNaN (pct : number) (f : Config.WasteFactors) :
  zeroOrNaN (App.netWaste zero pct f) = true.
Proof.
  unfold App.netWaste.
  apply zeroOrNaN_sub; repeat apply zeroOrNaN_mul_l; reflexivity.
Qed.

Lemma emissions_noInput (factors : Config.EmissionFactors)
  (doc : gmap string string) (e : App.Emissions) :
  noInput doc ->
  App.emissions factors doc = Some e ->
  zeroOrNaN (App.totalCo2e e) = true.
Proof.
  unfold noInput, quantityIds, percentIds. cbn [app]. intros H.
  repeat match type of H with
         | Forall _ (_ :: _) =>
             let H1 := fresh "Hid" in
             apply Forall_cons in H; destruct H as [H1 H];
             apply safeParseFloat_absent in H1
         end.
  unfold App.emissions.
  destruct (Config.transport factors), (Config.energy factors),
    (Config.food factors), (Config.waste factors),
    (Config.shopping factors); cbn [mbind option_bind]; try discriminate.
  intros [= <-].
  repeat match goal with H1 : App.safeParseFloat _ _ = _ |- _ =>
    rewrite H1; clear H1 end.
  unfold App.totalCo2e;
    cbn [App.transportCarCo2e App.transportFlightsCo2e
         App.transportPublicCo2e App.electricityEmissions App.gasCo2e
         App.foodMeatCo2e App.foodDairyCo2e App.wasteCo2e App.shoppingCo2e
         App.electronicsCo2e].
  repeat apply zeroOrNaN_add;
    first [ reflexivity
          | apply netWaste_zeroOrNaN
          | repeat apply zeroOrNaN_mul_l; reflexivity ].
Qed.

(** C5: with a factor table in CONFIG, valid or not, the empty input gives
    a stored [co2e] that equals 0. *)
Theorem zero_input_zero_output (host : App.Host) (w : World)
  (c : Config.t) (factors : Config.EmissionFactors) :
  App.getConfig w = Config.Bound c ->
  Config.emissionFactors c = Some factors ->
  noInput (document w) ->
  exists calc,
    currentCalculation (fst (App.calculateFootprint host w)) = Some calc
    /\ (co2e calc === zero)%js = true.
Proof.
  intros Hc Hf Hno.
  pose proof (calculateFootprint_stores host w c factors Hc Hf) as H.
  destruct (App.emissions factors (document w)) as [e | ] eqn:He;
    [destruct (App.getPreviousCalculation host w) as [p | ];
       [destruct (snd (App.displayCalculationResult _ p w)) | ] | ];
    injection H as H _; rewrite H; eexists; (split; [reflexivity |]);
    cbn [co2e]; try reflexivity.
  apply validNumber_zeroOrNaN. unfold App.totalTonnes.
  apply zeroOrNaN_mul_l. eapply emissions_noInput; eassumption.
Qed.

Lemma zero_input_zero_output_witness :
  exists calc,
    currentCalculation
      (fst (App.calculateFootprint isoHost (page [] [] 1700000000000)))
    = Some calc
    /\ (co2e calc === zero)%js = true.
Proof.
  apply (zero_input_zero_output isoHost (page [] [] 1700000000000)
           shippedConfig Config.defaultFactors); try reflexivity.
  unfold noInput. repeat constructor.
Defined.

(* ===================================================================== *)
(** ** A missing or unusable CONFIG *)
(* ===================================================================== *)

Lemma emissions_defaultFactors (doc : gmap string string) :
  exists e, App.emissions Config.defaultFactors doc = Some e.
Proof. eexists. reflexivity. Qed.

(** C1, as the code has it.  A CONFIG that is defined but falsy or without
    [emissionFactors] makes [calculateFootprint] alert, return [false] and
    store nothing.  A factor table that lacks a category makes it return
    [false] and store the default result 0.  When no CONFIG is defined at
    all, [getConfig] substitutes its fallback table, and the result is
    computed from those factors as from any others: the run returns [true]
    with that result whenever the log store gives a previous calculation
    whose [co2e] can be converted to a string, and when it returns [false]
    it has stored the default result 0 of the [catch] block. *)
Theorem configuration_error_or_fallback (host : App.Host)
  (w : World) :
  (App.getConfig w = Config.Falsy
   \/ (exists c, App.getConfig w = Config.Bound c
                 /\ Config.emissionFactors c = None) ->
   App.calculateFootprint host w
   = (show AlertConfigurationNotLoaded w, false))
  /\ (forall c factors,
        App.getConfig w = Config.Bound c ->
        Config.emissionFactors c = Some factors ->
        App.emissions factors (document w) = None ->
        snd (App.calculateFootprint host w) = false
        /\ currentCalculation (fst (App.calculateFootprint host w))
           = Some (defaulted (clock w (reads w))))
  /\ (CONFIG w = Config.Undefined ->
      (forall c, window_CONFIG w <> Config.Bound c) ->
      App.getConfig w = Config.Bound Config.fallback
      /\ exists e,
           App.emissions Config.defaultFactors (document w) = Some e
           /\ (forall previous,
                 App.getPreviousCalculation host w = Some previous ->
                 ToString_throws (App.previous_co2e previous) = false ->
                 snd (App.calculateFootprint host w) = true
                 /\ currentCalculation
                      (fst (App.calculateFootprint host w))
                    = Some (computed Config.fallback e (clock w (reads w))))
           /\ (snd (App.calculateFootprint host w) = true ->
               currentCalculation (fst (App.calculateFootprint host w))
               = Some (computed Config.fallback e (clock w (reads w))))
           /\ (snd (App.calculateFootprint host w) = false ->
               currentCalculation (fst (App.calculateFootprint host w))
               = Some (defaulted (clock w (S (reads w)))))).
Proof.
  split; [ | split].
  - unfold App.calculateFootprint.
    intros [-> | (c & -> & ->)]; reflexivity.
  - intros c factors Hc Hf He.
    pose proof (calculateFootprint_stores host w c factors Hc Hf) as H.
    rewrite He in H. injection H as H1 H2. split; assumption.
  - intros Hu Hw.
    assert (Hc : App.getConfig w = Config.Bound Config.fallback).
    { unfold App.getConfig. rewrite Hu.
      destruct (window_CONFIG w) as [ | | c]; try reflexivity.
      destruct (Hw c). reflexivity. }
    split; [exact Hc |].
    destruct (emissions_defaultFactors (document w)) as [e He].
    exists e. split; [exact He |].
    pose proof (calculateFootprint_stores host w Config.fallback
                  Config.defaultFactors Hc eq_refl) as H.
    rewrite He in H. split; [ | split].
    + intros previous Hp Hreadable. rewrite Hp in H.
      rewrite (display_of_readable _ previous w Hreadable) in H.
      injection H as H1 H2. split; assumption.
    + intros Htrue.
      destruct (App.getPreviousCalculation host w) as [p | ];
        [destruct (snd (App.displayCalculationResult _ p w)) | ];
        injection H as H1 H2; congruence.
    + intros Hfalse.
      destruct (App.getPreviousCalculation host w) as [p | ];
        [destruct (snd (App.displayCalculationResult _ p w)) | ];
        injection H as H1 H2; congruence.
Qed.

(** The three cases of C1 on concrete pages: CONFIG set to a falsy value,
    a factor table without its [waste] category, and no CONFIG at all. *)
Lemma configuration_error_or_fallback_witness :
  let falsy :=
    {| CONFIG := Config.Falsy; window_CONFIG := Config.Undefined;
       document := document (page [("car-miles", "20")] [] 0);
       localStorage := ∅; clock := fun n => Z.of_nat n; reads := 0;
       currentCalculation := None; shown := [] |} in
  let partial :=
    {| Config.app := None;
       Config.emissionFactors :=
         Some {| Config.transport := Config.transport Config.defaultFactors;
                 Config.energy := Config.energy Config.defaultFactors;
                 Config.food := Config.food Config.defaultFactors;
                 Config.waste := None;
                 Config.shopping := Config.shopping Config.defaultFactors |};
       Config.conversions := None |} in
  let lacking :=
    {| CONFIG := Config.Bound partial; window_CONFIG := Config.Bound partial;
       document := document (page [("car-miles", "20")] [] 0);
       localStorage := ∅; clock := fun n => Z.of_nat n; reads := 0;
       currentCalculation := None; shown := [] |} in
  let absent := pageWithoutConfig [("car-miles", "20")] [] 0 in
  App.calculateFootprint isoHost falsy
  = (show AlertConfigurationNotLoaded falsy, false)
  /\ snd (App.calculateFootprint isoHost lacking) = false
  /\ snd (App.calculateFootprint isoHost absent) = true.
Proof.
  intros falsy partial lacking absent. split; [ | split].
  - apply (configuration_error_or_fallback isoHost falsy).
    left. reflexivity.
  - eapply (configuration_error_or_fallback isoHost lacking);
      reflexivity.
  - destruct (configuration_error_or_fallback isoHost absent)
      as (_ & _ & H).
    destruct H as (_ & e & _ & H & _); [reflexivity | discriminate |].
    eapply (H VNull); reflexivity.
Defined.

(** The claim C1 fails as it is stated: when config.js did not load,
    [calculateFootprint] returns [true] and stores 20 miles by car as
    20 x 0.41 kg, from the factors of the fallback. *)
Lemma missing_config_is_defaulted :
  let w := pageWithoutConfig [("car-miles", "20")] [] 1700000000000 in
  snd (App.calculateFootprint isoHost w) = true
  /\ (co2e <$> currentCalculation (fst (App.calculateFootprint isoHost w)))
     = Some (of_Z 20 * dec 41 100 * dec 1 1000)%js
  /\ shown (fst (App.calculateFootprint isoHost w))
     = [ShowResult (of_Z 20 * dec 41 100 * dec 1 1000)%js
          (Some (Rated belowAverage None))].
Proof. repeat split; vm_compute; reflexivity. Qed.

(* ===================================================================== *)
(** ** The comparison with the previous calculation *)
(* ===================================================================== *)

(** [parseFloat] on a number does not throw. *)
Lemma parseFloat_value_number (x : number) :
  parseFloat_value (VNum x) = Some (parseFloat_printed (VNum x)).
Proof. reflexivity. Qed.

Lemma parseFloat_value_positive (p : number) :
  (zero < p)%js = true ->
  (parseFloat_printed (VNum p) || zero)%js = p /\ truthy p = true.
Proof. destruct p as [ | [] | | [] ? ?]; try discriminate; split; reflexivity. Qed.

Lemma parseFloat_value_negative (x : number) :
  (x < zero)%js = true ->
  (parseFloat_printed (VNum x) || zero)%js = x /\ truthy x = true
  /\ (x > zero)%js = false.
Proof.
  destruct x as [ | [] | | [] ? ?]; try discriminate; repeat split; reflexivity.
Qed.

(** The test [Math.abs(d) > c] followed by [d < 0] sorts [d] as the two
    comparisons [d < -c] and [d > c] do, for any positive finite [c]. *)
Lemma deadband_two_sided (mc : positive) (ec : Z) (d : number) :
  let c := S754_finite false mc ec in
  (if (Math_abs d > c)%js
   then if (d < zero)%js then reduction else increase
   else unchanged)
  = (if (d < SFopp c)%js then reduction
     else if (d > c)%js then increase else unchanged).
Proof.
  intros c. unfold c, gt, lt, SFltb.
  destruct d as [[] | [] | | [] m e]; try reflexivity.
  cbn [Math_abs SFabs SFopp negb SFcompare zero].
  rewrite (Z.compare_antisym ec e), (Pos.compare_cont_antisym m mc Eq).
  destruct (ec ?= e); reflexivity.
Qed.

Lemma direction_classify (d : number) :
  (if (Math_abs d > dec 1 100)%js
   then if (d < zero)%js then reduction else increase
   else unchanged) = classify d.
Proof.
  unfold classify.
  replace (dec 1 100) with (S754_finite false 5764607523034235 (-59))
    by (vm_compute; reflexivity).
  apply deadband_two_sided.
Qed.

(** C2, as the code has it: the description is made and carries no
    comparison when there is no previous entry, or when its [co2e] is falsy
    (absent, null, 0 or NaN), or when the value displayed is 0.  A negative
    [co2e] is compared like any other, with a percent change of 0. *)
Theorem comparison_needs_truthy_previous :
  (forall displayValue previous,
     previous = VNull
     \/ (exists fields,
           previous = VObj fields
           /\ truthy_value (lookup_field "co2e" fields) = false) ->
     comparisonShown <$> App.describe displayValue previous = Some None)
  /\ (forall displayValue previous,
        (displayValue === zero)%js = true ->
        comparisonShown <$> App.describe displayValue previous = Some None)
  /\ (forall displayValue x fields,
        lookup_field "co2e" fields = VNum x ->
        (x < zero)%js = true ->
        (displayValue === zero)%js = false ->
        comparisonShown <$> App.describe displayValue (VObj fields)
        = Some (Some {| difference := (displayValue - x)%js;
                        percentChange := zero;
                        direction := classify (displayValue - x)%js |})).
Proof.
  split; [ | split].
  - intros d previous H. unfold App.describe.
    destruct (d === zero)%js; [reflexivity |].
    unfold App.compareWithPrevious.
    destruct H as [-> | (fields & -> & H)]; [reflexivity |].
    cbn [App.previous_co2e truthy_value]. rewrite H. reflexivity.
  - intros d previous H. unfold App.describe. rewrite H. reflexivity.
  - intros d x fields Hx Hneg Hd. unfold App.describe. rewrite Hd.
    unfold App.compareWithPrevious.
    cbn [App.previous_co2e truthy_value]. rewrite Hx.
    rewrite parseFloat_value_number. cbn [mbind option_bind].
    destruct (parseFloat_value_negative x Hneg) as (-> & Ht & ->).
    cbn [truthy_value]. rewrite Ht, direction_classify. reflexivity.
Qed.

Lemma comparison_needs_truthy_previous_witness :
  comparisonShown <$> App.describe (of_Z 1) VNull = Some None
  /\ comparisonShown
       <$> App.describe (of_Z 1) (VObj [("category", VStr "transport")])
     = Some None
  /\ comparisonShown
       <$> App.describe zero (VObj [("co2e", VNum (of_Z 1))]) = Some None
  /\ comparisonShown
       <$> App.describe (of_Z 1) (VObj [("co2e", VNum (SFopp (of_Z 1)))])
     = Some (Some {| difference := (of_Z 1 - SFopp (of_Z 1))%js;
                     percentChange := zero;
                     direction := classify (of_Z 1 - SFopp (of_Z 1))%js |}).
Proof.
  destruct comparison_needs_truthy_previous as (H1 & H2 & H3).
  split; [ | split; [ | split]].
  - apply H1. left. reflexivity.
  - apply H1. right. eexists. split; reflexivity.
  - apply H2. reflexivity.
  - apply H3; reflexivity.
Defined.

(** The claim C2 fails as it is stated: a previous entry with the
    negative [co2e] -1 is compared with a current value of 1, and the page
    reports an increase of 2 tonnes, which is 0 percent. *)
Lemma negative_previous_is_compared :
  comparisonShown
    <$> App.describe (of_Z 1) (VObj [("co2e", VNum (SFopp (of_Z 1)))])
  = Some (Some {| difference := of_Z 2; percentChange := zero;
                  direction := increase |}).
Proof. vm_compute. reflexivity. Qed.

(** C4, as the code has it: for a previous [co2e] that is a positive
    number and a displayed value other than 0, the comparison has
    [difference = displayValue - co2e] and [percentChange = difference /
    co2e * 100], and its direction is a reduction exactly below -0.01, an
    increase exactly above 0.01 and unchanged otherwise.  1.00 after 1.005
    is unchanged, and 1.02 after 1.00 is an increase. *)
Theorem comparison_deadband :
  (forall displayValue p fields,
     lookup_field "co2e" fields = VNum p ->
     (zero < p)%js = true ->
     (displayValue === zero)%js = false ->
     comparisonShown <$> App.describe displayValue (VObj fields)
     = Some (Some {| difference := (displayValue - p)%js;
                     percentChange := ((displayValue - p) / p * of_Z 100)%js;
                     direction := classify (displayValue - p)%js |}))
  /\ (direction <$>
        (App.describe (of_Z 1) (VObj [("co2e", VNum (dec 1005 1000))])
         ≫= comparisonShown))
     = Some unchanged
  /\ (direction <$>
        (App.describe (dec 102 100) (VObj [("co2e", VNum (of_Z 1))])
         ≫= comparisonShown))
     = Some increase.
Proof.
  split; [ | split; vm_compute; reflexivity].
  intros d p fields Hp Hpos Hd. unfold App.describe. rewrite Hd.
  unfold App.compareWithPrevious.
  cbn [App.previous_co2e truthy_value]. rewrite Hp.
  rewrite parseFloat_value_number. cbn [mbind option_bind].
  destruct (parseFloat_value_positive p Hpos) as (-> & Ht).
  cbn [truthy_value]. rewrite Ht, direction_classify.
  unfold gt, lt in *. rewrite Hpos. reflexivity.
Qed.

Lemma comparison_deadband_witness :
  comparisonShown
    <$> App.describe (dec 102 100)
          (VObj [("id", VStr "demo-1"); ("co2e", VNum (of_Z 1))])
  = Some (Some {| difference := (dec 102 100 - of_Z 1)%js;
                  percentChange :=
                    ((dec 102 100 - of_Z 1) / of_Z 1 * of_Z 100)%js;
                  direction := classify (dec 102 100 - of_Z 1)%js |}).
Proof.
  destruct comparison_deadband as (H & _).
  apply (H (dec 102 100) (of_Z 1)); reflexivity.
Defined.

(** The claim C4 fails as it is stated: with a current total of 0 the
    page shows no comparison at all, although the previous [co2e] is 1 and
    the difference of -1 lies below -0.01. *)
Lemma zero_total_is_not_compared :
  let previous := VObj [("co2e", VNum (of_Z 1))] in
  let w := page [] [("carbonLogs", Json (VArr [previous]))] 1700000000000 in
  comparisonShown <$> App.describe zero previous = Some None
  /\ classify (zero - of_Z 1)%js = reduction
  /\ shown (fst (App.calculateFootprint isoHost w))
     = [ShowResult zero (Some EnterValues)].
Proof. repeat split; vm_compute; reflexivity. Qed.

(* ===================================================================== *)
(** ** Sanitized input *)
(* ===================================================================== *)

Section Sanitize.

Variable host : App.Host.

Lemma emissions_agree (doc doc' : gmap string string) :
  Forall (fun id => App.safeParseFloat doc' id = App.safeParseFloat doc id)
    quantityIds ->
  Forall (fun id =>
            App.clampPercent (App.safeParseFloat doc' id)
            = App.clampPercent (App.safeParseFloat doc id)) percentIds ->
  forall factors, App.emissions factors doc' = App.emissions factors doc.
Proof.
  unfold quantityIds, percentIds. intros Hq Hp factors.
  repeat match type of Hq with
         | Forall _ (_ :: _) =>
             let H1 := fresh "Hid" in
             apply Forall_cons in Hq; destruct Hq as [H1 Hq]
         end.
  repeat match type of Hp with
         | Forall _ (_ :: _) =>
             let H1 := fresh "Hid" in
             apply Forall_cons in Hp; destruct Hp as [H1 Hp]
         end.
  unfold App.emissions.
  repeat match goal with H1 : _ = _ |- _ => rewrite H1; clear H1 end.
  reflexivity.
Qed.

Lemma displayCalculationResult_document (t : number) (p : value)
  (doc' : gmap string string) (w : World) :
  (forall id, doc' !! id = None <-> document w !! id = None) ->
  App.displayCalculationResult t p (with_document doc' w)
  = (with_document doc' (fst (App.displayCalculationResult t p w)),
     snd (App.displayCalculationResult t p w)).
Proof.
  intros H. unfold App.displayCalculationResult. cbn [document with_document].
  pose proof (H "calculationResult") as H1.
  pose proof (H "resultValue") as H2.
  pose proof (H "resultDescription") as H3.
  destruct (doc' !! "calculationResult"), (document w !! "calculationResult");
    try (exfalso; intuition discriminate);
    destruct (doc' !! "resultValue"), (document w !! "resultValue");
    try (exfalso; intuition discriminate); try reflexivity.
  destruct (doc' !! "resultDescription"), (document w !! "resultDescription");
    try (exfalso; intuition discriminate); try reflexivity.
  destruct (App.describe (App.validNumber t) p); reflexivity.
Qed.

Lemma displayCalculationResult_keeps_document (t : number) (p : value)
  (w : World) :
  document (fst (App.displayCalculationResult t p w)) = document w.
Proof.
  destruct (displayCalculationResult_cases t p w) as [[o ->] | ->];
    reflexivity.
Qed.

Lemma catchCalculate_document (doc' : gmap string string) (w : World) :
  (forall id, doc' !! id = None <-> document w !! id = None) ->
  App.catchCalculate (with_document doc' w)
  = with_document doc' (App.catchCalculate w).
Proof.
  intros Hdoc. unfold App.catchCalculate. cbn [Date_now].
  match goal with
  | |- fst (App.displayCalculationResult ?t ?p ?a)
       = with_document _ (fst (App.displayCalculationResult _ _ ?b)) =>
      change a with (with_document doc' b);
      rewrite (displayCalculationResult_document t p doc' b) by exact Hdoc
  end.
  reflexivity.
Qed.

Lemma tryCalculate_keeps_document (c : Config.t)
  (factors : Config.EmissionFactors) (w : World) :
  document (fst (App.tryCalculate host c factors w)) = document w.
Proof.
  unfold App.tryCalculate.
  destruct (App.emissions factors (document w)); [ | reflexivity].
  cbn [Date_now].
  match goal with
  | |- context [App.getPreviousCalculation _ ?b] =>
      destruct (App.getPreviousCalculation host b); [ | reflexivity]
  end.
  rewrite displayCalculationResult_keeps_document. reflexivity.
Qed.

Lemma tryCalculate_document (c : Config.t) (factors : Config.EmissionFactors)
  (doc' : gmap string string) (w : World) :
  App.emissions factors doc' = App.emissions factors (document w) ->
  (forall id, doc' !! id = None <-> document w !! id = None) ->
  App.tryCalculate host c factors (with_document doc' w)
  = (with_document doc' (fst (App.tryCalculate host c factors w)),
     snd (App.tryCalculate host c factors w)).
Proof.
  intros Hem Hdoc. unfold App.tryCalculate. cbn [document with_document].
  rewrite Hem.
  destruct (App.emissions factors (document w)) as [e | ]; [ | reflexivity].
  cbn [Date_now with_document CONFIG window_CONFIG document localStorage
       clock reads currentCalculation shown].
  match goal with
  | |- match App.getPreviousCalculation _ ?a with _ => _ end
       = (with_document _ (fst match App.getPreviousCalculation _ ?b with
                               | _ => _ end), _) =>
      rewrite (getPreviousCalculation_storage host a b) by reflexivity;
      destruct (App.getPreviousCalculation host b) as [p | ];
        [ | reflexivity];
      change a with (with_document doc' b)
  end.
  apply displayCalculationResult_document, Hdoc.
Qed.

(** [calculateFootprint] reads the form through [emissions] and through
    the presence of the result elements only. *)
Lemma calculateFootprint_document (doc' : gmap string string) (w : World) :
  (forall factors,
     App.emissions factors doc' = App.emissions factors (document w)) ->
  (forall id, doc' !! id = None <-> document w !! id = None) ->
  App.calculateFootprint host (with_document doc' w)
  = (with_document doc' (fst (App.calculateFootprint host w)),
     snd (App.calculateFootprint host w)).
Proof.
  intros Hem Hdoc. unfold App.calculateFootprint.
  change (App.getConfig (with_document doc' w)) with (App.getConfig w).
  destruct (App.getConfig w) as [ | | c]; try reflexivity.
  destruct (Config.emissionFactors c) as [factors | ]; try reflexivity.
  rewrite (tryCalculate_document c factors doc' w (Hem factors) Hdoc).
  pose proof (tryCalculate_keeps_document c factors w) as Hkeep.
  destruct (App.tryCalculate host c factors w) as [w' completed].
  cbn [fst snd] in *. destruct completed; [reflexivity |].
  rewrite catchCalculate_document; [reflexivity |].
  rewrite Hkeep. exact Hdoc.
Qed.

Lemma safeParseFloat_present (doc : gmap string string) (id text : string) :
  doc !! id = Some text ->
  App.safeParseFloat doc id = App.validNumber (parseFloat text).
Proof. intros H. unfold App.safeParseFloat. rewrite H. reflexivity. Qed.

Lemma safeParseFloat_insert_other (doc : gmap string string)
  (id id' text : string) :
  id <> id' ->
  App.safeParseFloat (<[id := text]> doc) id' = App.safeParseFloat doc id'.
Proof.
  intros H. unfold App.safeParseFloat. rewrite lookup_insert_ne by exact H.
  reflexivity.
Qed.

Lemma above_positive (mc : positive) (ec : Z) (x : number) :
  SFltb (S754_finite false mc ec) x = true ->
  isNaN x = false /\ SFltb x zero = false /\ SFltb zero x = true.
Proof.
  destruct x as [[] | [] | | [] m e]; intros H; try discriminate H;
    repeat split; reflexivity.
Qed.

Lemma above_100 (x : number) :
  (x > of_Z 100)%js = true ->
  App.validNumber x = x /\ App.clampPercent x = of_Z 100.
Proof.
  unfold gt, App.validNumber, App.clampPercent, Math_min, Math_max, lt.
  replace (of_Z 100) with (S754_finite false 7036874417766400 (-46))
    by (vm_compute; reflexivity).
  intros H. destruct (above_positive _ _ _ H) as (Hn & Hneg & Hpos).
  rewrite Hn, Hneg. split; [reflexivity |].
  change (isNaN zero) with false. cbn [orb]. rewrite Hpos.
  cbn [isNaN orb]. rewrite Hn, H. reflexivity.
Qed.

(** Replacing the text of a field leaves the outcome as it was when every
    reading of the form stays the same. *)
Lemma with_input_same_readings (w : World) (id text text' : string) :
  document w !! id = Some text ->
  (forall id', In id' quantityIds ->
     App.safeParseFloat (<[id := text']> (document w)) id'
     = App.safeParseFloat (document w) id') ->
  (forall id', In id' percentIds ->
     App.clampPercent (App.safeParseFloat (<[id := text']> (document w)) id')
     = App.clampPercent (App.safeParseFloat (document w) id')) ->
  outcome (App.calculateFootprint host (with_input id text' w))
  = outcome (App.calculateFootprint host w).
Proof.
  intros Hid Hq Hp. unfold with_input.
  rewrite calculateFootprint_document; [reflexivity | | ].
  - apply emissions_agree; apply Forall_forall; intros id' Hin.
    + apply Hq, list_elem_of_In, Hin.
    + apply Hp, list_elem_of_In, Hin.
  - intros id'. destruct (decide (id = id')) as [<- | Hne].
    + rewrite lookup_insert_eq, Hid. split; discriminate.
    + rewrite lookup_insert_ne by exact Hne. reflexivity.
Qed.

End Sanitize.

(** C6: a field whose text parses to NaN or to a negative number gives
    the outcome that the text 0 gives, and a percent field whose text
    parses to more than 100 gives the outcome that the text 100 gives. *)
Theorem invalid_input_counts_as_zero (host : App.Host)
  (w : World) (id text : string) :
  document w !! id = Some text ->
  (isNaN (parseFloat text) = true \/ (parseFloat text < zero)%js = true ->
   outcome (App.calculateFootprint host (with_input id "0" w))
   = outcome (App.calculateFootprint host w))
  /\ (In id percentIds ->
      (parseFloat text > of_Z 100)%js = true ->
      outcome (App.calculateFootprint host (with_input id "100" w))
      = outcome (App.calculateFootprint host w)).
Proof.
  intros Hid. split.
  - intros Hbad.
    assert (Hsame : forall id',
               App.safeParseFloat (<[id := "0"]> (document w)) id'
               = App.safeParseFloat (document w) id').
    { intros id'. destruct (decide (id = id')) as [<- | Hne].
      - rewrite (safeParseFloat_present _ id "0") by apply lookup_insert_eq.
        rewrite (safeParseFloat_present _ id text Hid).
        rewrite (validNumber_clamps _ Hbad). reflexivity.
      - apply safeParseFloat_insert_other, Hne. }
    apply (with_input_same_readings host w id text "0" Hid).
    + intros id' _. apply Hsame.
    + intros id' _. rewrite Hsame. reflexivity.
  - intros Hpct Habove.
    destruct (above_100 _ Habove) as [Hvalid Hclamp].
    apply (with_input_same_readings host w id text "100" Hid).
    + intros id' Hq. apply safeParseFloat_insert_other.
      intros <-. revert Hpct Hq. unfold percentIds, quantityIds. cbn [In].
      intuition (subst; discriminate).
    + intros id' _. destruct (decide (id = id')) as [<- | Hne].
      * rewrite (safeParseFloat_present _ id "100") by apply lookup_insert_eq.
        rewrite (safeParseFloat_present _ id text Hid), Hvalid, Hclamp.
        reflexivity.
      * rewrite safeParseFloat_insert_other by exact Hne. reflexivity.
Qed.

(** C6 on a page: 10 kWh with a renewable share of -10 count as with a
    share of 0, and with a share of 150 as with a share of 100. *)
Lemma invalid_input_counts_as_zero_witness :
  let below := page [("electricity", "10"); ("renewable-percent", "-10")] [] 0 in
  let above := page [("electricity", "10"); ("renewable-percent", "150")] [] 0 in
  outcome (App.calculateFootprint isoHost
             (with_input "renewable-percent" "0" below))
  = outcome (App.calculateFootprint isoHost below)
  /\ outcome (App.calculateFootprint isoHost
                (with_input "renewable-percent" "100" above))
     = outcome (App.calculateFootprint isoHost above).
Proof.
  intros below above. split.
  - apply (invalid_input_counts_as_zero isoHost below
             "renewable-percent" "-10"); [reflexivity |].
    right. vm_compute. reflexivity.
  - apply (invalid_input_counts_as_zero isoHost above
             "renewable-percent" "150"); [reflexivity | | ].
    + unfold percentIds. cbn [In]. left. reflexivity.
    + vm_compute. reflexivity.
Defined.

(* ===================================================================== *)
(** ** The waste category *)
(* ===================================================================== *)

(** C8: the waste term is the bags' emissions less that amount times the
    recycling share times the magnitude of [recyclingOffset]; the breakdown
    carries it times [kgToTonnes] without a floor.  Two bags a day, all
    recycled, with the shipped factors 2.5 and -1.2 give -1 kg: the waste
    entry of the breakdown is negative and the stored total is 0. *)
Theorem waste_is_net_of_recycling :
  (forall factors doc e wf,
     App.emissions factors doc = Some e ->
     Config.waste factors = Some wf ->
     let wasteBagsPerDay := App.safeParseFloat doc "waste-bags" in
     let recyclingPercent :=
       App.clampPercent (App.safeParseFloat doc "recycling-percent") in
     let wasteEmissions := (wasteBagsPerDay * Config.wasteBag wf)%js in
     App.wasteCo2e e
     = (wasteEmissions
        - wasteEmissions * (recyclingPercent / of_Z 100)
          * Math_abs (Config.recyclingOffset wf))%js)
  /\ (forall c e,
        waste (App.breakdownOf c e) = (App.wasteCo2e e * App.kgToTonnes c)%js)
  /\ (let w := page [("waste-bags", "2"); ("recycling-percent", "100")] []
                 1700000000000 in
      (App.wasteCo2e <$> App.emissions Config.defaultFactors (document w))
      = Some (SFopp (of_Z 1))
      /\ exists calc b,
           currentCalculation (fst (App.calculateFootprint isoHost w))
           = Some calc
           /\ breakdown calc = Some b
           /\ waste b = (SFopp (of_Z 1) * dec 1 1000)%js
           /\ (waste b < zero)%js = true
           /\ co2e calc = zero).
Proof.
  split; [ | split].
  - intros factors doc e wf He Hw. unfold App.emissions in He. rewrite Hw in He.
    destruct (Config.transport factors), (Config.energy factors),
      (Config.food factors), (Config.shopping factors);
      cbn [mbind option_bind] in He; try discriminate He.
    injection He as <-. reflexivity.
  - reflexivity.
  - cbv zeta. split; [vm_compute; reflexivity |].
    eexists. eexists.
    split; [vm_compute; reflexivity |].
    split; [vm_compute; reflexivity |].
    split; [vm_compute; reflexivity |].
    split; vm_compute; reflexivity.
Qed.

Lemma waste_is_net_of_recycling_witness :
  let doc := document (page [("waste-bags", "2"); ("recycling-percent", "50")]
                         [] 0) in
  (App.wasteCo2e <$> App.emissions Config.defaultFactors doc)
  = Some (of_Z 2 * dec 25 10
          - of_Z 2 * dec 25 10 * (of_Z 50 / of_Z 100)
            * Math_abs (SFopp (dec 12 10)))%js.
Proof.
  intros doc. destruct waste_is_net_of_recycling as (H & _).
  destruct (emissions_defaultFactors doc) as [e He]. rewrite He.
  cbn [fmap option_fmap option_map]. f_equal.
  exact (H Config.defaultFactors doc e _ He eq_refl).
Defined.

(* ===================================================================== *)
(** ** What the result depends on *)
(* ===================================================================== *)

(** C9, as the code has it: two runs on the same form, the same CONFIG and
    the same log store return the same value and store results with the
    same [co2e], [category] and [breakdown]; the results are equal when the
    clocks agree as well.  The timestamp is read from the clock, and a log
    store that cannot be read, or whose latest entry cannot be compared,
    turns the stored result into the default. *)
Theorem result_depends_on_form_config_store (host : App.Host)
  (w1 w2 : World) :
  document w1 = document w2 ->
  localStorage w1 = localStorage w2 ->
  App.getConfig w1 = App.getConfig w2 ->
  snd (App.calculateFootprint host w1)
  = snd (App.calculateFootprint host w2)
  /\ (forall c factors,
        App.getConfig w1 = Config.Bound c ->
        Config.emissionFactors c = Some factors ->
        exists x1 x2,
          currentCalculation (fst (App.calculateFootprint host w1))
          = Some x1
          /\ currentCalculation (fst (App.calculateFootprint host w2))
             = Some x2
          /\ co2e x1 = co2e x2
          /\ category x1 = category x2
          /\ breakdown x1 = breakdown x2
          /\ (clock w1 = clock w2 -> reads w1 = reads w2 -> x1 = x2)).
Proof.
  intros Hdoc Hstore Hconfig.
  assert (Hboth : forall c factors,
             App.getConfig w1 = Config.Bound c ->
             Config.emissionFactors c = Some factors ->
             exists (e : option App.Emissions) (p : option value)
                    (displayed : bool),
               (currentCalculation
                  (fst (App.calculateFootprint host w1)),
                snd (App.calculateFootprint host w1))
               = match e, p with
                 | Some e, Some _ =>
                     if displayed
                     then (Some (computed c e (clock w1 (reads w1))), true)
                     else (Some (defaulted (clock w1 (S (reads w1)))), false)
                 | Some e, None =>
                     (Some (defaulted (clock w1 (S (reads w1)))), false)
                 | None, _ => (Some (defaulted (clock w1 (reads w1))), false)
                 end
               /\ (currentCalculation
                     (fst (App.calculateFootprint host w2)),
                   snd (App.calculateFootprint host w2))
                  = match e, p with
                    | Some e, Some _ =>
                        if displayed
                        then (Some (computed c e (clock w2 (reads w2))), true)
                        else (Some (defaulted (clock w2 (S (reads w2)))), false)
                    | Some e, None =>
                        (Some (defaulted (clock w2 (S (reads w2)))), false)
                    | None, _ =>
                        (Some (defaulted (clock w2 (reads w2))), false)
                    end).
  { intros c factors Hc Hf.
    pose proof (calculateFootprint_stores host w1 c factors Hc Hf) as H1.
    pose proof (calculateFootprint_stores host w2 c factors
                  ltac:(rewrite <- Hconfig; exact Hc) Hf) as H2.
    rewrite <- Hdoc, <- (getPreviousCalculation_storage _ w1 w2 Hstore) in H2.
    destruct (App.emissions factors (document w1)) as [e | ].
    - destruct (App.getPreviousCalculation host w1) as [p | ].
      + rewrite <- (display_completes_document _ p w1 w2 Hdoc) in H2.
        exists (Some e), (Some p),
          (snd (App.displayCalculationResult (App.finalTotalTonnes c e) p w1)).
        split; assumption.
      + exists (Some e), None, true. split; assumption.
    - exists None, None, true. split; assumption. }
  split.
  - destruct (App.getConfig w1) as [ | | c] eqn:Hc; symmetry in Hconfig;
      try (unfold App.calculateFootprint; rewrite Hc, Hconfig; reflexivity).
    destruct (Config.emissionFactors c) as [factors | ] eqn:Hf;
      [ | unfold App.calculateFootprint; rewrite Hc, Hconfig, Hf; reflexivity].
    destruct (Hboth c factors eq_refl Hf) as (e & p & b & H1 & H2).
    destruct e as [e | ]; [destruct p; [destruct b | ] | ];
      injection H1 as _ ->; injection H2 as _ ->; reflexivity.
  - intros c factors Hc Hf.
    destruct (Hboth c factors Hc Hf) as (e & p & b & H1 & H2).
    destruct e as [e | ]; [destruct p; [destruct b | ] | ];
      injection H1 as -> _; injection H2 as -> _;
      eexists; eexists; (split; [reflexivity |]); (split; [reflexivity |]);
      cbn [co2e category breakdown computed defaulted];
      (split; [reflexivity |]); (split; [reflexivity |]);
      (split; [reflexivity |]); intros Hclock Hreads;
      rewrite Hclock, Hreads; reflexivity.
Qed.

Lemma result_depends_on_form_config_store_witness :
  let w1 := page [("car-miles", "20")] [] 1700000000000 in
  let w2 := page [("car-miles", "20")] [] 1700000000001 in
  snd (App.calculateFootprint isoHost w1)
  = snd (App.calculateFootprint isoHost w2).
Proof.
  intros w1 w2.
  apply (result_depends_on_form_config_store isoHost w1 w2);
    reflexivity.
Defined.

(** The claim C9 fails as it is stated.  The same form and factors give
    results that differ in their timestamp when the clock has moved on by
    a millisecond; and with a log store that is not JSON the 20 miles by
    car are stored as 0, where they are 0.0082 tonnes with an empty one. *)
Lemma result_depends_on_clock_and_store :
  let w1 := page [("car-miles", "20")] [] 1700000000000 in
  let w2 := page [("car-miles", "20")] [] 1700000000001 in
  let w3 := page [("car-miles", "20")] [("carbonLogs", NotJson)]
              1700000000000 in
  let stored w := currentCalculation (fst (App.calculateFootprint isoHost w)) in
  document w1 = document w2 /\ document w1 = document w3
  /\ stored w1 <> stored w2
  /\ (timestamp <$> stored w1) = Some "2023-11-14T22:13:20.000Z"
  /\ (timestamp <$> stored w2) = Some "2023-11-14T22:13:20.001Z"
  /\ (co2e <$> stored w1) = Some (of_Z 20 * dec 41 100 * dec 1 1000)%js
  /\ (co2e <$> stored w3) = Some zero.
Proof.
  cbv zeta. repeat split; try (vm_compute; reflexivity).
  vm_compute. discriminate.
Qed.

(* ===================================================================== *)
(** ** Saving a log entry *)
(* ===================================================================== *)

Lemma lookup_set_field (k k' : string) (v : value)
  (fields : list (string * value)) :
  lookup_field k (set_field k' v fields)
  = if String.eqb k k' then v else lookup_field k fields.
Proof.
  induction fields as [ | [k0 v0] rest IH]; cbn [set_field lookup_field].
  - reflexivity.
  - destruct (String.eqb k' k0) eqn:E0; cbn [lookup_field].
    + apply String.eqb_eq in E0. subst k0.
      destruct (String.eqb k k'); reflexivity.
    + destruct (listed_before k' k0 && negb (has_own k' rest));
        cbn [lookup_field]; [reflexivity |].
      rewrite IH. destruct (String.eqb k k0) eqn:E1; [ | reflexivity].
      apply String.eqb_eq in E1. subst k0.
      rewrite String.eqb_sym, E0. reflexivity.
Qed.

Lemma lookup_spread_other (k : string) (source target : list (string * value)) :
  ~ In k (map fst source) ->
  lookup_field k (spread target source) = lookup_field k target.
Proof.
  unfold spread. revert target.
  induction source as [ | [k1 v1] rest IH]; intros target Hk; [reflexivity |].
  cbn [fold_left fst snd]. rewrite IH.
  - rewrite lookup_set_field. destruct (String.eqb k k1) eqn:E; [ | reflexivity].
    apply String.eqb_eq in E. subst k1. destruct Hk. left. reflexivity.
  - intros Hin. apply Hk. right. exact Hin.
Qed.

Lemma lookup_spread (k : string) (v : value)
  (source target : list (string * value)) :
  NoDup (map fst source) ->
  In (k, v) source ->
  lookup_field k (spread target source) = v.
Proof.
  unfold spread. revert target.
  induction source as [ | [k1 v1] rest IH]; intros target Hnd Hin;
    [destruct Hin |].
  cbn [map fst] in Hnd. apply NoDup_cons in Hnd. destruct Hnd as [Hk1 Hnd].
  cbn [fold_left fst snd]. destruct Hin as [[= -> ->] | Hin].
  - fold (spread (set_field k v target) rest).
    rewrite lookup_spread_other.
    + rewrite lookup_set_field, String.eqb_refl. reflexivity.
    + intros H. apply Hk1, list_elem_of_In, H.
  - apply IH; assumption.
Qed.

(** The fields of the new entry: those of [logData], but for the
    timestamp, which is the time of the save; the generated id stands
    unless [logData] has one. *)
Lemma newLog_fields (now_id now_timestamp : Z)
  (logData : list (string * value)) :
  NoDup (map fst logData) ->
  lookup_field "timestamp" (API.newLog now_id now_timestamp logData)
  = VStr (Date.toISOString now_timestamp)
  /\ (forall k v,
        In (k, v) logData -> k <> "timestamp" ->
        lookup_field k (API.newLog now_id now_timestamp logData) = v)
  /\ (~ In "id" (map fst logData) ->
      lookup_field "id" (API.newLog now_id now_timestamp logData)
      = VStr ("log-" +:+ pretty now_id)).
Proof.
  intros Hnd. unfold API.newLog. split; [ | split].
  - rewrite lookup_set_field. reflexivity.
  - intros k v Hin Hk. rewrite lookup_set_field.
    destruct (String.eqb k "timestamp") eqn:E.
    + apply String.eqb_eq in E. contradiction.
    + apply lookup_spread; assumption.
  - intros Hid. rewrite lookup_set_field. cbn [String.eqb Ascii.eqb].
    rewrite lookup_spread_other by exact Hid. reflexivity.
Qed.

Lemma jsonify_stable_entries (entries : list value) :
  Forall (fun x => API.jsonify x = x) entries ->
  map API.jsonify entries = entries.
Proof.
  intros H. induction H as [ | x rest Hx _ IH]; [reflexivity |].
  cbn [map]. rewrite Hx, IH. reflexivity.
Qed.

(** What JSON text holds is written and read back as it is. *)
Lemma jsonify_idempotent :
  forall v : value, API.jsonify (API.jsonify v) = API.jsonify v.
Proof.
  fix IH 1. intros [ | | b | x | s | items | fields]; cbn [API.jsonify];
    try reflexivity.
  - destruct (isFinite x) eqn:Hf; [ | reflexivity].
    destruct (is_zero x) eqn:Hz; cbn [API.jsonify]; [reflexivity |].
    rewrite Hf, Hz. reflexivity.
  - f_equal. induction items as [ | a rest IHrest]; [reflexivity |].
    cbn [map]. f_equal; [apply IH | exact IHrest].
  - f_equal. induction fields as [ | [k x] rest IHrest]; [reflexivity |].
    pose proof (IH x) as Hx.
    destruct x as [ | | b | x | s | items | fs]; try exact IHrest;
      try (f_equal; exact IHrest).
    + cbn [API.jsonify] in Hx |- *.
      destruct (isFinite x); [destruct (is_zero x) | ];
        rewrite ?Hx; f_equal; exact IHrest.
    + cbn [API.jsonify] in Hx |- *. rewrite Hx. f_equal. exact IHrest.
    + cbn [API.jsonify] in Hx |- *. rewrite Hx. f_equal. exact IHrest.
Qed.

(** The store a save leaves when the stored item is an array. *)
Lemma saveCarbonLog_store (logData : list (string * value)) (w : World)
  (entries : list value) :
  API.getCarbonLogs w = Some (VArr entries) ->
  fst (API.saveCarbonLog logData w)
  = setItem "carbonLogs"
      (Json (VArr (map API.jsonify entries
                   ++ [API.jsonify
                         (VObj (API.newLog (clock w (reads w))
                                  (clock w (S (reads w))) logData))])))
      (snd (Date_now (snd (Date_now w)))).
Proof.
  intros Hlogs. unfold API.saveCarbonLog. rewrite Hlogs.
  cbn [Date_now fst snd reads clock]. cbn [API.jsonify]. rewrite map_app.
  match goal with
  | |- context [API.demoMode ?w3] => destruct (API.demoMode w3) as [[] | ]
  end; reflexivity.
Qed.

(** C10, as the code has it: when the stored item is a JSON array (or
    there is none), [saveCarbonLog] stores the old entries, each as JSON
    writes it, followed by one new entry, and touches no other key.  An old
    entry that JSON text holds as it is stays as it is, and so does every
    entry that a save has written; in another one a number that is not
    finite is rewritten to [null] and -0 to 0.  The new entry has the
    fields of the log data, except that its timestamp is the time of the
    save, and an id made from the clock unless the log data bring one.  In
    demo mode the promise resolves with the new entry. *)
Theorem saveCarbonLog_appends (logData : list (string * value)) (w : World)
  (entries : list value) :
  API.getCarbonLogs w = Some (VArr entries) ->
  NoDup (map fst logData) ->
  let entry :=
    API.newLog (clock w (reads w)) (clock w (S (reads w))) logData in
  let w' := fst (API.saveCarbonLog logData w) in
  API.getCarbonLogs w'
  = Some (VArr (map API.jsonify entries ++ [API.jsonify (VObj entry)]))
  /\ (Forall (fun x => API.jsonify x = x) entries ->
      API.getCarbonLogs w'
      = Some (VArr (entries ++ [API.jsonify (VObj entry)])))
  /\ Forall (fun x => API.jsonify x = x)
       (map API.jsonify entries ++ [API.jsonify (VObj entry)])
  /\ (forall k, k <> "carbonLogs" -> localStorage w' !! k = localStorage w !! k)
  /\ lookup_field "timestamp" entry
     = VStr (Date.toISOString (clock w (S (reads w))))
  /\ (forall k v,
        In (k, v) logData -> k <> "timestamp" -> lookup_field k entry = v)
  /\ (~ In "id" (map fst logData) ->
      lookup_field "id" entry = VStr ("log-" +:+ pretty (clock w (reads w))))
  /\ (API.demoMode w = Some true ->
      snd (API.saveCarbonLog logData w) = API.Resolved (VObj entry)).
Proof.
  intros Hlogs Hnd entry w'.
  destruct (newLog_fields (clock w (reads w)) (clock w (S (reads w)))
              logData Hnd) as (Hts & Hfields & Hid).
  pose proof (saveCarbonLog_store logData w entries Hlogs) as Hstore.
  fold entry in Hstore. fold w' in Hstore.
  assert (Hget : API.getCarbonLogs w'
                 = Some (VArr (map API.jsonify entries
                               ++ [API.jsonify (VObj entry)]))).
  { rewrite Hstore. unfold API.getCarbonLogs, App.getCarbonLogs.
    cbn [setItem localStorage]. rewrite lookup_insert_eq. reflexivity. }
  split; [exact Hget |].
  split; [intros Hjson; rewrite Hget, (jsonify_stable_entries _ Hjson);
          reflexivity |].
  split.
  { apply Forall_app. split.
    - apply Forall_forall. intros x Hx. apply list_elem_of_fmap in Hx.
      destruct Hx as (y & -> & _). apply jsonify_idempotent.
    - apply List.Forall_cons; [apply jsonify_idempotent | apply List.Forall_nil]. }
  split.
  { intros k Hk. rewrite Hstore. cbn [setItem localStorage Date_now snd].
    rewrite lookup_insert_ne by (intros E; apply Hk; symmetry; exact E).
    reflexivity. }
  split; [exact Hts |]. split; [exact Hfields |]. split; [exact Hid |].
  intros Hdemo. unfold API.saveCarbonLog.
  change (API.getCarbonLogs w) with (App.getCarbonLogs w) in Hlogs.
  unfold API.getCarbonLogs. rewrite Hlogs. cbn [Date_now].
  change (API.demoMode (setItem _ _ _)) with (API.demoMode w).
  rewrite Hdemo. reflexivity.
Qed.

Lemma saveCarbonLog_appends_witness :
  let demo1 :=
    VObj [("id", VStr "demo-1"); ("category", VStr "transport");
          ("co2e", VNum (dec 25 10));
          ("timestamp", VStr "2023-10-15T22:13:20.000Z")] in
  let w := page [] [("carbonLogs", Json (VArr [demo1]))] 1700000000000 in
  let logData :=
    [("category", VStr "transport"); ("co2e", VNum (dec 25 10));
     ("value", VNum (of_Z 100)); ("notes", VStr "Car travel this month")] in
  API.getCarbonLogs (fst (API.saveCarbonLog logData w))
  = Some (VArr [demo1;
                VObj [("id", VStr "log-1700000000000");
                      ("category", VStr "transport");
                      ("co2e", VNum (dec 25 10));
                      ("value", VNum (of_Z 100));
                      ("notes", VStr "Car travel this month");
                      ("timestamp", VStr "2023-11-14T22:13:20.001Z")]]).
Proof.
  intros demo1 w logData.
  refine (eq_trans
            (proj1 (saveCarbonLog_appends logData w [demo1] eq_refl _)) _).
  - cbn [map fst]. repeat constructor; cbn; intros H;
      repeat (apply elem_of_cons in H; destruct H as [H | H]; [discriminate |]);
      inversion H.
  - vm_compute. reflexivity.
Defined.

(** The claim C10 fails as it is stated: the new entry does not keep every
    field of the log data.  The timestamp of the log data is replaced by
    the time of the save, and a [co2e] of Infinity is stored as [null]. *)
Lemma saveCarbonLog_rewrites_fields :
  let w := page [] [] 1700000000000 in
  let logData :=
    [("co2e", VNum Infinity);
     ("timestamp", VStr "2020-01-01T00:00:00.000Z")] in
  API.getCarbonLogs (fst (API.saveCarbonLog logData w))
  = Some (VArr [VObj [("id", VStr "log-1700000000000");
                      ("co2e", VNull);
                      ("timestamp", VStr "2023-11-14T22:13:20.001Z")]]).
Proof. vm_compute. reflexivity. Qed.

(* ===================================================================== *)
(** ** Rounding: the error of a sum and of a product

    The operations of [spec_float] round the exact result to nearest.  The
    facts below bound the error of one rounding, for finite results of
    any operands: at most [2^-53] of the exact value, plus [2^-1075] where
    the result falls below the normal range. *)
(* ===================================================================== *)

Section Rounding.

Local Abbreviation bpow e := (powerRZ 2 e).

Lemma bpow_add (a b : Z) : (bpow (a + b) = bpow a * bpow b)%R.
Proof. apply powerRZ_add. lra. Qed.

Lemma bpow_pos (e : Z) : (0 < bpow e)%R.
Proof. apply powerRZ_lt. lra. Qed.

Lemma bpow_IZR (k : Z) : 0 <= k -> bpow k = IZR (2 ^ k).
Proof.
  intros Hk. destruct k as [ | p | p]; [reflexivity | | lia].
  symmetry. apply (Zpower_pos_powerRZ 2 p).
Qed.

Lemma bpow_le (a b : Z) : a <= b -> (bpow a <= bpow b)%R.
Proof.
  intros H. replace b with (a + (b - a)) by lia. rewrite bpow_add.
  rewrite (bpow_IZR (b - a)) by lia.
  assert (H0 : 1 <= 2 ^ (b - a))
    by (pose proof (Z.pow_pos_nonneg 2 (b - a)); lia).
  apply IZR_le in H0. pose proof (bpow_pos a). nra.
Qed.

Lemma digits2_size (p : positive) : digits2_pos p = Pos.size p.
Proof. induction p; cbn; congruence. Qed.

Lemma digits2_log2 (p : positive) :
  Zpos (digits2_pos p) = Z.log2 (Zpos p) + 1.
Proof. rewrite digits2_size. destruct p; cbn; lia. Qed.

Lemma digits2_bounds (p : positive) :
  2 ^ (Zpos (digits2_pos p) - 1) <= Zpos p < 2 ^ Zpos (digits2_pos p).
Proof.
  rewrite digits2_log2. replace (Z.log2 (Zpos p) + 1 - 1) with (Z.log2 (Zpos p)) by lia.
  apply Z.log2_spec. lia.
Qed.

Lemma Zdigits2_le (m k : Z) : 0 <= k -> 0 <= m < 2 ^ k -> Zdigits2 m <= k.
Proof.
  intros Hk [Hm Hlt]. destruct m as [ | p | p]; [exact Hk | | lia].
  cbn [Zdigits2]. pose proof (digits2_bounds p) as [Hlo _].
  destruct (Z_le_gt_dec (Zpos (digits2_pos p)) k) as [ | Hgt]; [assumption |].
  assert (2 ^ k <= 2 ^ (Zpos (digits2_pos p) - 1))
    by (apply Z.pow_le_mono_r; lia).
  lia.
Qed.

Lemma iter_pos_nat {A : Type} (f : A -> A) (p : positive) (x : A) :
  SpecFloat.iter_pos f p x = Nat.iter (Pos.to_nat p) f x.
Proof.
  revert x. induction p as [p IH | p IH | ]; intros x; cbn [SpecFloat.iter_pos].
  - rewrite !IH, Pos2Nat.inj_xI.
    replace (2 * Pos.to_nat p)%nat with (Pos.to_nat p + Pos.to_nat p)%nat by lia.
    rewrite Nat.iter_succ_r, Nat.iter_add. reflexivity.
  - rewrite !IH, Pos2Nat.inj_xO.
    replace (2 * Pos.to_nat p)%nat with (Pos.to_nat p + Pos.to_nat p)%nat by lia.
    rewrite Nat.iter_add. reflexivity.
  - reflexivity.
Qed.

Lemma shr_1_nonneg (m : Z) (r s : bool) :
  0 <= m ->
  shr_1 (Build_shr_record m r s)
  = Build_shr_record (Z.div2 m) (Z.odd m) (r || s).
Proof.
  intros Hm. destruct m as [ | [p | p | ] | p]; try lia; reflexivity.
Qed.

(** After [n + 1] shifts of [M] the record holds the quotient by
    [2^(n+1)], the bit below it, and whether anything lies further down. *)
Lemma shr_iter (M : Z) (n : nat) :
  0 <= M ->
  let mrs := Nat.iter (S n) shr_1 (Build_shr_record M false false) in
  exists t,
    0 <= t < 2 ^ Z.of_nat n
    /\ M = shr_m mrs * 2 ^ Z.of_nat (S n) + Z.b2z (shr_r mrs) * 2 ^ Z.of_nat n + t
    /\ shr_s mrs = negb (t =? 0)
    /\ 0 <= shr_m mrs.
Proof.
  intros HM. induction n as [ | n IH].
  - cbn [Nat.iter]. rewrite shr_1_nonneg by exact HM. cbn [shr_m shr_r shr_s orb].
    exists 0. change (2 ^ Z.of_nat 0) with 1. change (2 ^ Z.of_nat 1) with 2.
    pose proof (Z.div2_odd M). pose proof (Z.div2_nonneg M).
    repeat split; try lia.
  - cbn zeta in IH. destruct IH as (t & Ht & HMeq & Hs & Hq).
    change (Nat.iter (S (S n)) shr_1 (Build_shr_record M false false))
      with (shr_1 (Nat.iter (S n) shr_1 (Build_shr_record M false false))).
    destruct (Nat.iter (S n) shr_1 (Build_shr_record M false false))
      as [q r s].
    cbn [shr_m shr_r shr_s] in *. rewrite shr_1_nonneg by exact Hq.
    cbn [shr_m shr_r shr_s].
    exists (Z.b2z r * 2 ^ Z.of_nat n + t).
    assert (Hp1 : 2 ^ Z.of_nat (S n) = 2 * 2 ^ Z.of_nat n)
      by (rewrite Nat2Z.inj_succ, Z.pow_succ_r; lia).
    assert (Hp2 : 2 ^ Z.of_nat (S (S n)) = 4 * 2 ^ Z.of_nat n)
      by (rewrite Nat2Z.inj_succ, Z.pow_succ_r, Hp1; lia).
    assert (Hpos : 0 < 2 ^ Z.of_nat n) by (apply Z.pow_pos_nonneg; lia).
    pose proof (Z.div2_odd q) as Hq2. pose proof (Z.div2_nonneg q) as Hq3.
    rewrite Hp1 in *. rewrite Hp2.
    destruct r; cbn [Z.b2z orb] in *.
    + repeat split; try lia; nia.
    + repeat split; try lia; try nia.
      rewrite Hs. reflexivity.
Qed.

Lemma round_nearest_even_half (M : Z) (n : nat) :
  0 <= M ->
  let mrs := Nat.iter (S n) shr_1 (Build_shr_record M false false) in
  let m1 := round_nearest_even (shr_m mrs) (loc_of_shr_record mrs) in
  0 <= m1
  /\ m1 * 2 ^ Z.of_nat (S n) <= M + 2 ^ Z.of_nat (S n)
  /\ 2 * Z.abs (m1 * 2 ^ Z.of_nat (S n) - M) <= 2 ^ Z.of_nat (S n).
Proof.
  intros HM mrs m1. destruct (shr_iter M n HM) as (t & Ht & HMeq & Hs & Hq).
  fold mrs in HMeq, Hs, Hq. subst m1. destruct mrs as [q r s].
  cbn [shr_m shr_r shr_s] in *.
  assert (Hp1 : 2 ^ Z.of_nat (S n) = 2 * 2 ^ Z.of_nat n)
    by (rewrite Nat2Z.inj_succ, Z.pow_succ_r; lia).
  rewrite Hp1 in *. set (P := 2 ^ Z.of_nat n) in *.
  assert (Ht0 : s = false -> t = 0).
  { intros ->. symmetry in Hs. apply negb_false_iff, Z.eqb_eq in Hs. exact Hs. }
  assert (Ht1 : s = true -> 0 < t).
  { intros ->. symmetry in Hs. apply negb_true_iff, Z.eqb_neq in Hs. lia. }
  destruct r, s; cbn [loc_of_shr_record round_nearest_even Z.b2z] in *;
    try destruct (Z.even q);
    try (specialize (Ht0 eq_refl)); try (specialize (Ht1 eq_refl));
    repeat split; nia.
Qed.

Lemma shr_no_shift (mrs : shr_record) (e n : Z) :
  n <= 0 -> shr mrs e n = (mrs, e).
Proof. intros H. destruct n; [reflexivity | lia | reflexivity]. Qed.

(** A mantissa of at most [2^prec] is brought back to [prec] digits
    without loss. *)
Lemma shr_fexp_renormalize (m1 E : Z) :
  0 <= m1 <= 2 ^ prec ->
  emin prec emax <= E ->
  exists m2 e2,
    shr_m (fst (shr_fexp prec emax m1 E loc_Exact)) = m2
    /\ snd (shr_fexp prec emax m1 E loc_Exact) = e2
    /\ 0 <= m2 /\ E <= e2 /\ m2 * 2 ^ (e2 - E) = m1.
Proof.
  intros [Hlo Hhi] HE. unfold shr_fexp, fexp, emin, prec, emax in *.
  cbn [shr_record_of_loc].
  destruct (Z.eq_dec m1 (2 ^ 53)) as [-> | Hne].
  - change (Zdigits2 (2 ^ 53)) with 54.
    replace (Z.max (54 + E - 53) (3 - 1024 - 53) - E) with 1 by lia.
    exists (2 ^ 52), (E + 1). cbn [shr fst snd shr_m].
    repeat split; try reflexivity; try lia.
    replace (E + 1 - E) with 1 by lia. reflexivity.
  - assert (Hd : Zdigits2 m1 <= 53) by (apply Zdigits2_le; lia).
    rewrite shr_no_shift by lia. exists m1, E. cbn [fst snd shr_m].
    repeat split; try lia. rewrite Z.sub_diag. lia.
Qed.

Lemma shr_fexp_exact_keep (mp : positive) (e : Z) :
  fexp prec emax (Zpos (digits2_pos mp) + e) <= e ->
  shr_fexp prec emax (Zpos mp) e loc_Exact
  = (Build_shr_record (Zpos mp) false false, e).
Proof. intros H. unfold shr_fexp. apply shr_no_shift. cbn [Zdigits2]. lia. Qed.

Lemma shr_fexp_exact_shift (mp : positive) (e : Z) :
  fexp prec emax (Zpos (digits2_pos mp) + e) > e ->
  exists n,
    Z.of_nat (S n) = fexp prec emax (Zpos (digits2_pos mp) + e) - e
    /\ shr_fexp prec emax (Zpos mp) e loc_Exact
       = (Nat.iter (S n) shr_1 (Build_shr_record (Zpos mp) false false),
          fexp prec emax (Zpos (digits2_pos mp) + e)).
Proof.
  intros H. unfold shr_fexp. cbn [Zdigits2 shr_record_of_loc].
  destruct (fexp prec emax (Zpos (digits2_pos mp) + e) - e) as [ | p | p] eqn:HN;
    try lia.
  cbn [shr]. rewrite iter_pos_nat.
  destruct (Pos.to_nat p) as [ | n] eqn:Hp; [lia |].
  exists n. split; [lia |]. f_equal. lia.
Qed.

(** Rounding an exact mantissa: the result stands for [V * 2^e], where [V]
    is the mantissa itself when no digit is dropped, and within half a
    unit of the last kept digit otherwise. *)
Lemma binary_round_aux_exact (sx : bool) (mp : positive) (e : Z) :
  let E := fexp prec emax (Zpos (digits2_pos mp) + e) in
  let r := binary_round_aux prec emax sx (Zpos mp) e loc_Exact in
  isFinite r = true ->
  exists V : Z,
    toR r = (IZR (cond_Zopp sx V) * bpow e)%R
    /\ ((E <= e /\ V = Zpos mp)
        \/ (e < E /\ 2 * Z.abs (V - Zpos mp) <= 2 ^ (E - e))).
Proof.
  intros E r. subst r. unfold binary_round_aux.
  destruct (Z_le_gt_dec E e) as [Hle | Hgt].
  - rewrite (shr_fexp_exact_keep mp e) by exact Hle.
    cbn [shr_m loc_of_shr_record round_nearest_even].
    rewrite (shr_fexp_exact_keep mp e) by exact Hle. cbn [shr_m].
    destruct (e <=? emax - prec); [ | discriminate].
    intros _. exists (Zpos mp). split; [reflexivity | left; split; [lia | reflexivity]].
  - destruct (shr_fexp_exact_shift mp e Hgt) as (n & HSn & ->).
    pose proof (round_nearest_even_half (Zpos mp) n ltac:(lia)) as H.
    cbn zeta in H. destruct H as (Hm1 & Hup & Hhalf).
    set (m1 := round_nearest_even _ _) in *.
    fold E in HSn. rewrite HSn in Hup, Hhalf. fold E. clearbody m1.
    assert (HE : emin prec emax <= E) by (unfold E, fexp; lia).
    assert (Hm1hi : m1 <= 2 ^ prec).
    { pose proof (digits2_bounds mp) as [_ Hd].
      assert (Hdle : Zpos (digits2_pos mp) <= prec + (E - e))
        by (unfold E, fexp; lia).
      assert (Hpw : 2 ^ Zpos (digits2_pos mp) <= 2 ^ (prec + (E - e)))
        by (apply Z.pow_le_mono_r; lia).
      rewrite Z.pow_add_r in Hpw by (unfold prec; lia).
      assert (0 < 2 ^ (E - e)) by (apply Z.pow_pos_nonneg; lia).
      nia. }
    destruct (shr_fexp_renormalize m1 E (conj Hm1 Hm1hi) HE)
      as (m2 & e2 & Hm2 & He2 & Hm2pos & HEe2 & Hval).
    destruct (shr_fexp prec emax m1 E loc_Exact) as [mrs2 e2'].
    cbn [fst snd] in Hm2, He2. subst e2'. rewrite Hm2.
    exists (m1 * 2 ^ (E - e)). split; [ | right; split; [lia | exact Hhalf]].
    destruct m2 as [ | m2 | m2]; try lia.
    + assert (m1 = 0) by lia. subst m1. rewrite Z.mul_0_l.
      destruct sx; cbn [toR cond_Zopp]; [change (- 0) with 0 | ]; lra.
    + destruct (e2 <=? emax - prec); [ | discriminate].
      cbn [toR]. rewrite <- Hval.
      replace e2 with (e + ((e2 - E) + (E - e))) at 1 by lia.
      rewrite bpow_add, (bpow_IZR ((e2 - E) + (E - e))) by lia.
      rewrite Z.pow_add_r by lia.
      destruct sx; cbn [cond_Zopp];
        rewrite ?Z.mul_opp_l, ?opp_IZR, !mult_IZR; ring.
Qed.

Lemma Zabs_cond_Zopp (s : bool) (z : Z) : Z.abs (cond_Zopp s z) = Z.abs z.
Proof. destruct s; cbn [cond_Zopp]; [apply Z.abs_opp | reflexivity]. Qed.

Lemma cond_Zopp_sub (s : bool) (a b : Z) :
  cond_Zopp s a - cond_Zopp s b = cond_Zopp s (a - b).
Proof.
  destruct s; cbn [cond_Zopp]; [ | reflexivity].
  change (- a - - b = - (a - b)). lia.
Qed.

(** The error of one rounding: at most [2^-53] of the exact value, or
    [2^-1075] below the normal range. *)
Lemma round_error (sx : bool) (mp : positive) (e : Z) :
  let r := binary_round_aux prec emax sx (Zpos mp) e loc_Exact in
  isFinite r = true ->
  (Rabs (toR r - IZR (cond_Zopp sx (Zpos mp)) * bpow e)
   <= bpow (-53) * (IZR (Zpos mp) * bpow e) + bpow (-1075))%R.
Proof.
  intros r Hfin.
  destruct (binary_round_aux_exact sx mp e Hfin) as (V & HR & Hcase).
  fold r in HR. rewrite HR.
  pose proof (bpow_pos e) as He. pose proof (bpow_pos (-53)) as Hu.
  pose proof (bpow_pos (-1075)) as Heta.
  assert (HM : (0 < IZR (Zpos mp))%R) by (apply IZR_lt; lia).
  assert (Hz : (0 < IZR (Zpos mp) * bpow e)%R)
    by (apply Rmult_lt_0_compat; lra).
  assert (Huz : (0 < bpow (-53) * (IZR (Zpos mp) * bpow e))%R)
    by (apply Rmult_lt_0_compat; lra).
  replace (IZR (cond_Zopp sx V) * bpow e
           - IZR (cond_Zopp sx (Zpos mp)) * bpow e)%R
    with (IZR (cond_Zopp sx (V - Zpos mp)) * bpow e)%R
    by (rewrite <- cond_Zopp_sub, minus_IZR; ring).
  rewrite Rabs_mult, (Rabs_pos_eq (bpow e)) by lra.
  rewrite <- abs_IZR, Zabs_cond_Zopp.
  destruct Hcase as [[_ ->] | [Hlt Hhalf]].
  - rewrite Z.sub_diag. change (Z.abs 0) with 0. lra.
  - apply IZR_le in Hhalf. rewrite mult_IZR, <- bpow_IZR in Hhalf by lia.
    set (E := fexp prec emax (Zpos (digits2_pos mp) + e)) in *.
    assert (HE : (bpow (E - e) * bpow e = bpow E)%R)
      by (rewrite <- bpow_add; f_equal; lia).
    assert (Hd : (IZR (Z.abs (V - Zpos mp)) * bpow e <= bpow E / 2)%R) by nra.
    apply (Rle_trans _ _ _ Hd).
    unfold E, fexp, emin, prec, emax.
    destruct (Z.max_spec (Zpos (digits2_pos mp) + e - 53) (3 - 1024 - 53))
      as [[_ ->] | [_ ->]].
    + change (3 - 1024 - 53) with (-1075 + 1). rewrite bpow_add.
      change (bpow 1) with (2 * 1)%R. nra.
    + replace (Zpos (digits2_pos mp) + e - 53)
        with ((Zpos (digits2_pos mp) - 1) + (e + (-53 + 1))) by lia.
      rewrite !bpow_add. change (bpow 1) with (2 * 1)%R.
      pose proof (digits2_bounds mp) as [Hlo _]. apply IZR_le in Hlo.
      rewrite <- bpow_IZR in Hlo by lia.
      pose proof (bpow_pos (Zpos (digits2_pos mp) - 1)).
      assert ((bpow (Zpos (digits2_pos mp) - 1) * (bpow e * bpow (-53))
               <= IZR (Zpos mp) * (bpow e * bpow (-53)))%R)
        by (apply Rmult_le_compat_r; nra).
      nra.
Qed.

Lemma iter_xO (m d : positive) : Zpos (Pos.iter xO m d) = Zpos m * 2 ^ Zpos d.
Proof.
  induction d as [ | d IH] using Pos.peano_ind.
  - cbn [Pos.iter]. lia.
  - rewrite Pos.iter_succ, Pos2Z.inj_succ, Z.pow_succ_r, Pos2Z.inj_xO, IH; lia.
Qed.

Lemma shl_align_value (mx : positive) (ex ex' : Z) :
  (IZR (Zpos (fst (shl_align mx ex ex'))) * bpow (snd (shl_align mx ex ex'))
   = IZR (Zpos mx) * bpow ex)%R.
Proof.
  unfold shl_align. destruct (ex' - ex) as [ | d | d] eqn:Hd; cbn [fst snd];
    try reflexivity.
  rewrite iter_xO, mult_IZR, <- bpow_IZR by lia.
  rewrite Rmult_assoc, <- bpow_add. do 2 f_equal. lia.
Qed.

Lemma shl_align_le (mx : positive) (ex ez : Z) :
  ez <= ex ->
  Zpos (fst (shl_align mx ex ez)) = Zpos mx * 2 ^ (ex - ez).
Proof.
  intros H. unfold shl_align.
  destruct (ez - ex) as [ | d | d] eqn:Hd; cbn [fst]; try lia.
  - replace (ex - ez) with 0 by lia. lia.
  - rewrite iter_xO. do 2 f_equal. lia.
Qed.

Lemma binary_normalize_error (S e : Z) :
  isFinite (binary_normalize prec emax S e false) = true ->
  (Rabs (toR (binary_normalize prec emax S e false) - IZR S * bpow e)
   <= bpow (-53) * Rabs (IZR S * bpow e) + bpow (-1075))%R.
Proof.
  pose proof (bpow_pos e) as He. pose proof (bpow_pos (-53)) as Hu.
  pose proof (bpow_pos (-1075)) as Heta.
  destruct S as [ | p | p]; cbn [binary_normalize].
  - intros _. cbn [toR]. rewrite Rmult_0_l, Rminus_0_r, Rabs_R0. lra.
  - unfold binary_round.
    pose proof (shl_align_value p e (fexp prec emax (Zpos (digits2_pos p) + e)))
      as Hv.
    destruct (shl_align p e (fexp prec emax (Zpos (digits2_pos p) + e)))
      as [mz ez]. cbn [fst snd] in Hv.
    intros Hfin. pose proof (round_error false mz ez Hfin) as H.
    cbn [cond_Zopp] in H. rewrite Hv in H.
    assert (0 < IZR (Zpos p))%R by (apply IZR_lt; lia).
    rewrite (Rabs_pos_eq (IZR (Zpos p) * bpow e)) by nra. exact H.
  - unfold binary_round.
    pose proof (shl_align_value p e (fexp prec emax (Zpos (digits2_pos p) + e)))
      as Hv.
    destruct (shl_align p e (fexp prec emax (Zpos (digits2_pos p) + e)))
      as [mz ez]. cbn [fst snd] in Hv.
    intros Hfin. pose proof (round_error true mz ez Hfin) as H.
    cbn [cond_Zopp] in H. change (IZR (- Zpos mz)) with (IZR (Zneg mz)) in H.
    assert (0 < IZR (Zpos p))%R by (apply IZR_lt; lia).
    replace (IZR (Zneg p)) with (- IZR (Zpos p))%R
      by (rewrite <- opp_IZR; reflexivity).
    replace (IZR (Zneg mz)) with (- IZR (Zpos mz))%R in H
      by (rewrite <- opp_IZR; reflexivity).
    replace (- IZR (Zpos p) * bpow e)%R with (- (IZR (Zpos p) * bpow e))%R by ring.
    rewrite Rabs_Ropp, (Rabs_pos_eq (IZR (Zpos p) * bpow e)) by nra.
    rewrite <- Hv.
    replace (- IZR (Zpos mz) * bpow ez)%R with (- (IZR (Zpos mz) * bpow ez))%R
      in H by ring.
    exact H.
Qed.

Lemma toR_finite (s : bool) (m : positive) (e : Z) :
  toR (S754_finite s m e) = (IZR (cond_Zopp s (Zpos m)) * bpow e)%R.
Proof. reflexivity. Qed.

Lemma IZR_cond_Zopp (s : bool) (z : Z) :
  IZR (cond_Zopp s z) = ((if s then -1 else 1) * IZR z)%R.
Proof.
  destruct s; cbn [cond_Zopp]; [ | ring].
  change (IZR (- z) = (-1 * IZR z)%R). rewrite opp_IZR. ring.
Qed.

(** A finite product has finite factors, and its error is that of one
    rounding. *)
Lemma mul_finite (x y : number) :
  isFinite ((x * y)%js) = true ->
  isFinite x = true /\ isFinite y = true.
Proof.
  unfold mul. destruct x as [ | | | ], y as [ | | | ]; intros H;
    first [split; reflexivity | discriminate H].
Qed.

Lemma mul_error (x y : number) :
  isFinite ((x * y)%js) = true ->
  (Rabs (toR ((x * y)%js) - toR x * toR y)
   <= bpow (-53) * Rabs (toR x * toR y) + bpow (-1075))%R.
Proof.
  unfold mul.
  pose proof (bpow_pos (-53)) as Hu. pose proof (bpow_pos (-1075)) as Heta.
  assert (Hzero : (Rabs (0 - 0) <= bpow (-53) * Rabs 0 + bpow (-1075))%R)
    by (rewrite Rminus_0_r, Rabs_R0; lra).
  destruct x as [sx | sx | | sx mx ex], y as [sy | sy | | sy my ey];
    try discriminate; intros Hfin; cbn [SFmul toR];
    rewrite ?Rmult_0_l, ?Rmult_0_r; try exact Hzero.
  pose proof (round_error (xorb sx sy) (mx * my) (ex + ey) Hfin) as H.
  pose proof (bpow_pos ex). pose proof (bpow_pos ey).
  assert (0 < IZR (Zpos mx))%R by (apply IZR_lt; lia).
  assert (0 < IZR (Zpos my))%R by (apply IZR_lt; lia).
  assert (Hexact : (IZR (cond_Zopp sx (Zpos mx)) * bpow ex
                    * (IZR (cond_Zopp sy (Zpos my)) * bpow ey)
                    = IZR (cond_Zopp (xorb sx sy) (Zpos (mx * my)))
                      * bpow (ex + ey))%R).
  { rewrite !IZR_cond_Zopp, Pos2Z.inj_mul, mult_IZR, bpow_add.
    destruct sx, sy; cbn [xorb]; ring. }
  rewrite Hexact.
  replace (Rabs (IZR (cond_Zopp (xorb sx sy) (Zpos (mx * my))) * bpow (ex + ey)))
    with (IZR (Zpos (mx * my)) * bpow (ex + ey))%R; [exact H |].
  pose proof (bpow_pos (ex + ey)).
  assert (0 < IZR (Zpos (mx * my)))%R by (apply IZR_lt; lia).
  rewrite Rabs_mult, <- abs_IZR, Zabs_cond_Zopp, (Rabs_pos_eq (bpow (ex + ey)))
    by lra.
  reflexivity.
Qed.

(** A finite sum has finite terms, and its error is that of one rounding. *)
Lemma add_finite (x y : number) :
  isFinite ((x + y)%js) = true ->
  isFinite x = true /\ isFinite y = true.
Proof.
  unfold add. destruct x as [ | [] | | ], y as [ | [] | | ]; intros H;
    first [split; reflexivity | discriminate H].
Qed.

Lemma add_error (x y : number) :
  isFinite ((x + y)%js) = true ->
  (Rabs (toR ((x + y)%js) - (toR x + toR y))
   <= bpow (-53) * Rabs (toR x + toR y) + bpow (-1075))%R.
Proof.
  unfold add.
  pose proof (bpow_pos (-53)) as Hu. pose proof (bpow_pos (-1075)) as Heta.
  assert (Hsame : forall a : R,
             (Rabs (a - a) <= bpow (-53) * Rabs a + bpow (-1075))%R).
  { intros a. rewrite Rminus_diag, Rabs_R0. pose proof (Rabs_pos a). nra. }
  destruct x as [sx | [] | | sx mx ex], y as [sy | [] | | sy my ey];
    try discriminate; intros Hfin.
  - replace (toR (S754_zero sx) + toR (S754_zero sy))%R with 0%R
      by (cbn [toR]; ring).
    replace (toR (SFadd prec emax (S754_zero sx) (S754_zero sy))) with 0%R
      by (destruct sx, sy; reflexivity).
    apply Hsame.
  - cbn [SFadd]. replace (toR (S754_zero sx) + toR (S754_finite sy my ey))%R
      with (toR (S754_finite sy my ey)) by (cbn [toR]; ring).
    apply Hsame.
  - cbn [SFadd]. replace (toR (S754_finite sx mx ex) + toR (S754_zero sy))%R
      with (toR (S754_finite sx mx ex)) by (cbn [toR]; ring).
    apply Hsame.
  - cbn [SFadd] in *. set (ez := Z.min ex ey) in *.
    pose proof (binary_normalize_error _ _ Hfin) as H.
    rewrite !shl_align_le in H by lia. rewrite !shl_align_le by lia.
    match type of H with
    | (Rabs (_ - ?a) <= _)%R =>
        replace a with (toR (S754_finite sx mx ex) + toR (S754_finite sy my ey))%R
          in H; [exact H |]
    end.
    rewrite !toR_finite, plus_IZR, !IZR_cond_Zopp, !mult_IZR.
    rewrite <- !bpow_IZR by lia.
    replace ex with (ez + (ex - ez)) at 1 by lia.
    replace ey with (ez + (ey - ez)) at 1 by lia.
    rewrite !bpow_add. ring.
Qed.
End Rounding.

(* ===================================================================== *)
(** ** The breakdown adds up *)
(* ===================================================================== *)

Lemma bpow_53_le : (powerRZ 2 (-53) <= 12 / 100000000000000000)%R.
Proof.
  change (-53) with (- (53)). rewrite powerRZ_neg', (bpow_IZR 53) by lia.
  change (2 ^ 53) with 9007199254740992. lra.
Qed.

Lemma bpow_1075_le : (powerRZ 2 (-1075) <= 1 / 100000000000000000000)%R.
Proof.
  apply (Rle_trans _ (powerRZ 2 (-67))); [apply bpow_le; lia |].
  change (-67) with (- (67)). rewrite powerRZ_neg', (bpow_IZR 67) by lia.
  change (2 ^ 67) with 147573952589676412928. lra.
Qed.

(** The error of a finite sum, from bounds on its terms. *)
Lemma add_enclose (x y : number) (L M : R) :
  isFinite (x + y)%js = true ->
  (Rabs (toR x) <= L)%R -> (Rabs (toR y) <= M)%R ->
  (Rabs (toR (x + y)%js - (toR x + toR y))
   <= 12 / 100000000000000000 * (L + M) + 1 / 100000000000000000000)%R.
Proof.
  intros Hfin HL HM. pose proof (add_error x y Hfin) as H.
  pose proof (Rabs_triang (toR x) (toR y)) as Ht.
  pose proof bpow_53_le as Hu. pose proof bpow_1075_le as Heta.
  pose proof (bpow_pos (-53)) as Hu0.
  pose proof (Rabs_pos (toR x + toR y)) as Hs0.
  apply (Rle_trans _ _ _ H).
  assert ((powerRZ 2 (-53) * Rabs (toR x + toR y)
           <= 12 / 100000000000000000 * (L + M))%R)
    by (apply Rmult_le_compat; lra).
  lra.
Qed.

(** The error of a finite product, from bounds on its factors. *)
Lemma mul_enclose (x y : number) (L M : R) :
  isFinite (x * y)%js = true ->
  (Rabs (toR x) <= L)%R -> (Rabs (toR y) <= M)%R ->
  (Rabs (toR (x * y)%js - toR x * toR y)
   <= 12 / 100000000000000000 * (L * M) + 1 / 100000000000000000000)%R.
Proof.
  intros Hfin HL HM. pose proof (mul_error x y Hfin) as H.
  pose proof bpow_53_le as Hu. pose proof bpow_1075_le as Heta.
  pose proof (bpow_pos (-53)) as Hu0.
  pose proof (Rabs_pos (toR x)) as Hx0. pose proof (Rabs_pos (toR y)) as Hy0.
  apply (Rle_trans _ _ _ H). rewrite Rabs_mult.
  assert ((Rabs (toR x) * Rabs (toR y) <= L * M)%R)
    by (apply Rmult_le_compat; lra).
  assert ((0 <= Rabs (toR x) * Rabs (toR y))%R)
    by (apply Rmult_le_pos; lra).
  assert ((powerRZ 2 (-53) * (Rabs (toR x) * Rabs (toR y))
           <= 12 / 100000000000000000 * (L * M))%R)
    by (apply Rmult_le_compat; lra).
  lra.
Qed.

Lemma Rabs_between (a b : R) : (Rabs a <= b)%R -> (- b <= a <= b)%R.
Proof. unfold Rabs. destruct (Rcase_abs a); lra. Qed.

(** Ten finite terms of at most 10^7 each, summed in one run and in five
    groups, and both scaled by a factor [k] of at most 1/500: the scaled
    groups sum to the scaled run within 10^-9. *)
Lemma grouped_sums_close (t1 t2 t3 t4 t5 t6 t7 t8 t9 t10 k : number) :
  isFinite ((zero + t1 + t2 + t3 + t4 + t5 + t6 + t7 + t8 + t9 + t10) * k)%js = true ->
  isFinite ((t1 + t2 + t3) * k)%js = true ->
  isFinite ((t4 + t5) * k)%js = true ->
  isFinite ((t6 + t7) * k)%js = true ->
  isFinite (t8 * k)%js = true ->
  isFinite ((t9 + t10) * k)%js = true ->
  Forall (fun t => (Rabs (toR t) <= 10000000)%R)
    [t1; t2; t3; t4; t5; t6; t7; t8; t9; t10] ->
  (Rabs (toR k) <= 1 / 500)%R ->
  (Rabs (toR ((t1 + t2 + t3) * k)%js + toR ((t4 + t5) * k)%js
         + toR ((t6 + t7) * k)%js + toR (t8 * k)%js
         + toR ((t9 + t10) * k)%js
         - toR ((zero + t1 + t2 + t3 + t4 + t5 + t6 + t7 + t8 + t9 + t10) * k)%js)
   <= 1 / 1000000000)%R.
Proof.
  intros HT Hb1 Hb2 Hb3 Hb4 Hb5 Hterms Hk.
  repeat match type of Hterms with
         | Forall _ (_ :: _) =>
             let H1 := fresh "Ht" in
             apply Forall_cons in Hterms; destruct Hterms as [H1 Hterms];
             apply Rabs_between in H1
         end.
  clear Hterms. apply Rabs_between in Hk.
  assert (Hz : toR zero = 0%R) by reflexivity.
  destruct (mul_finite _ _ HT) as [Hs10 _].
  destruct (add_finite _ _ Hs10) as [Hs9 _].
  destruct (add_finite _ _ Hs9) as [Hs8 _].
  destruct (add_finite _ _ Hs8) as [Hs7 _].
  destruct (add_finite _ _ Hs7) as [Hs6 _].
  destruct (add_finite _ _ Hs6) as [Hs5 _].
  destruct (add_finite _ _ Hs5) as [Hs4 _].
  destruct (add_finite _ _ Hs4) as [Hs3 _].
  destruct (add_finite _ _ Hs3) as [Hs2 _].
  destruct (add_finite _ _ Hs2) as [Hs1 _].
  destruct (mul_finite _ _ Hb1) as [Hp1 _].
  destruct (add_finite _ _ Hp1) as [Hp1' _].
  destruct (mul_finite _ _ Hb2) as [Hp2 _].
  destruct (mul_finite _ _ Hb3) as [Hp3 _].
  destruct (mul_finite _ _ Hb5) as [Hp5 _].
  pose proof (add_enclose zero t1 0%R 10000000%R Hs1
                ltac:(apply Rabs_le; lra) ltac:(apply Rabs_le; lra)) as Ha1;
    apply Rabs_between in Ha1.
  pose proof (add_enclose (zero + t1)%js t2 10000001%R 10000000%R Hs2
                ltac:(apply Rabs_le; lra) ltac:(apply Rabs_le; lra)) as Ha2;
    apply Rabs_between in Ha2.
  pose proof (add_enclose (zero + t1 + t2)%js t3 20000002%R 10000000%R Hs3
                ltac:(apply Rabs_le; lra) ltac:(apply Rabs_le; lra)) as Ha3;
    apply Rabs_between in Ha3.
  pose proof (add_enclose (zero + t1 + t2 + t3)%js t4 30000003%R 10000000%R Hs4
                ltac:(apply Rabs_le; lra) ltac:(apply Rabs_le; lra)) as Ha4;
    apply Rabs_between in Ha4.
  pose proof (add_enclose (zero + t1 + t2 + t3 + t4)%js t5 40000004%R 10000000%R Hs5
                ltac:(apply Rabs_le; lra) ltac:(apply Rabs_le; lra)) as Ha5;
    apply Rabs_between in Ha5.
  pose proof (add_enclose (zero + t1 + t2 + t3 + t4 + t5)%js t6 50000005%R 10000000%R Hs6
                ltac:(apply Rabs_le; lra) ltac:(apply Rabs_le; lra)) as Ha6;
    apply Rabs_between in Ha6.
  pose proof (add_enclose (zero + t1 + t2 + t3 + t4 + t5 + t6)%js t7 60000006%R 10000000%R Hs7
                ltac:(apply Rabs_le; lra) ltac:(apply Rabs_le; lra)) as Ha7;
    apply Rabs_between in Ha7.
  pose proof (add_enclose (zero + t1 + t2 + t3 + t4 + t5 + t6 + t7)%js t8 70000007%R 10000000%R Hs8
                ltac:(apply Rabs_le; lra) ltac:(apply Rabs_le; lra)) as Ha8;
    apply Rabs_between in Ha8.
  pose proof (add_enclose (zero + t1 + t2 + t3 + t4 + t5 + t6 + t7 + t8)%js t9 80000008%R 10000000%R Hs9
                ltac:(apply Rabs_le; lra) ltac:(apply Rabs_le; lra)) as Ha9;
    apply Rabs_between in Ha9.
  pose proof (add_enclose (zero + t1 + t2 + t3 + t4 + t5 + t6 + t7 + t8 + t9)%js t10 90000009%R 10000000%R Hs10
                ltac:(apply Rabs_le; lra) ltac:(apply Rabs_le; lra)) as Ha10;
    apply Rabs_between in Ha10.
  pose proof (add_enclose t1 t2 10000000%R 10000000%R Hp1'
                ltac:(apply Rabs_le; lra) ltac:(apply Rabs_le; lra)) as Hq1;
    apply Rabs_between in Hq1.
  pose proof (add_enclose (t1 + t2)%js t3 20000001%R 10000000%R Hp1
                ltac:(apply Rabs_le; lra) ltac:(apply Rabs_le; lra)) as Hq2;
    apply Rabs_between in Hq2.
  pose proof (add_enclose t4 t5 10000000%R 10000000%R Hp2
                ltac:(apply Rabs_le; lra) ltac:(apply Rabs_le; lra)) as Hq3;
    apply Rabs_between in Hq3.
  pose proof (add_enclose t6 t7 10000000%R 10000000%R Hp3
                ltac:(apply Rabs_le; lra) ltac:(apply Rabs_le; lra)) as Hq4;
    apply Rabs_between in Hq4.
  pose proof (add_enclose t9 t10 10000000%R 10000000%R Hp5
                ltac:(apply Rabs_le; lra) ltac:(apply Rabs_le; lra)) as Hq5;
    apply Rabs_between in Hq5.
  pose proof (mul_enclose (zero + t1 + t2 + t3 + t4 + t5 + t6 + t7 + t8 + t9 + t10)%js k 100000010%R (1 / 500)%R HT
                ltac:(apply Rabs_le; lra) ltac:(apply Rabs_le; lra)) as Hm0;
    apply Rabs_between in Hm0.
  pose proof (mul_enclose (t1 + t2 + t3)%js k 30000002%R (1 / 500)%R Hb1
                ltac:(apply Rabs_le; lra) ltac:(apply Rabs_le; lra)) as Hm1;
    apply Rabs_between in Hm1.
  pose proof (mul_enclose (t4 + t5)%js k 20000001%R (1 / 500)%R Hb2
                ltac:(apply Rabs_le; lra) ltac:(apply Rabs_le; lra)) as Hm2;
    apply Rabs_between in Hm2.
  pose proof (mul_enclose (t6 + t7)%js k 20000001%R (1 / 500)%R Hb3
                ltac:(apply Rabs_le; lra) ltac:(apply Rabs_le; lra)) as Hm3;
    apply Rabs_between in Hm3.
  pose proof (mul_enclose t8 k 10000000%R (1 / 500)%R Hb4
                ltac:(apply Rabs_le; lra) ltac:(apply Rabs_le; lra)) as Hm4;
    apply Rabs_between in Hm4.
  pose proof (mul_enclose (t9 + t10)%js k 20000001%R (1 / 500)%R Hb5
                ltac:(apply Rabs_le; lra) ltac:(apply Rabs_le; lra)) as Hm5;
    apply Rabs_between in Hm5.
  assert (HD : (- (3 / 10000000)
                <= toR (t1 + t2 + t3)%js + toR (t4 + t5)%js
                   + toR (t6 + t7)%js + toR t8 + toR (t9 + t10)%js
                   - toR (zero + t1 + t2 + t3 + t4 + t5 + t6 + t7 + t8 + t9 + t10)%js
                <= 3 / 10000000)%R) by lra.
  assert (HkD : (Rabs (toR k
                       * (toR (t1 + t2 + t3)%js + toR (t4 + t5)%js
                          + toR (t6 + t7)%js + toR t8 + toR (t9 + t10)%js
                          - toR (zero + t1 + t2 + t3 + t4 + t5 + t6 + t7 + t8 + t9 + t10)%js))
                 <= 1 / 500 * (3 / 10000000))%R).
  { rewrite Rabs_mult. apply Rmult_le_compat; try apply Rabs_pos;
      apply Rabs_le; lra. }
  apply Rabs_between in HkD. apply Rabs_le. lra.
Qed.

Lemma breakdown_total_close (c : Config.t) (e : App.Emissions) :
  isFinite (App.totalTonnes c e) = true ->
  forallb isFinite
    [transport (App.breakdownOf c e); energy (App.breakdownOf c e);
     food (App.breakdownOf c e); waste (App.breakdownOf c e);
     shopping (App.breakdownOf c e)] = true ->
  Forall (fun t => (Rabs (toR t) <= 10000000)%R) (terms e) ->
  (Rabs (toR (App.kgToTonnes c)) <= 1 / 500)%R ->
  (Rabs (breakdownTotal (App.breakdownOf c e) - toR (App.totalTonnes c e))
   <= 1 / 1000000000)%R.
Proof.
  destruct e as [t1 t2 t3 t4 t5 t6 t7 t8 t9 t10].
  unfold App.totalTonnes, App.totalCo2e, App.breakdownOf, breakdownTotal, terms.
  cbn [App.transportCarCo2e App.transportFlightsCo2e App.transportPublicCo2e
       App.electricityEmissions App.gasCo2e App.foodMeatCo2e
       App.foodDairyCo2e App.wasteCo2e App.shoppingCo2e App.electronicsCo2e
       transport energy food waste shopping forallb].
  intros HT Hb Hterms Hk.
  apply andb_prop in Hb. destruct Hb as [Hb1 Hb].
  apply andb_prop in Hb. destruct Hb as [Hb2 Hb].
  apply andb_prop in Hb. destruct Hb as [Hb3 Hb].
  apply andb_prop in Hb. destruct Hb as [Hb4 Hb].
  apply andb_prop in Hb. destruct Hb as [Hb5 _].
  apply grouped_sums_close; assumption.
Qed.

Lemma validNumber_finite (x : number) :
  isFinite x = true -> (x < zero)%js = false -> App.validNumber x = x.
Proof.
  intros Hf Hneg. unfold App.validNumber. rewrite Hneg.
  destruct x; try discriminate Hf; reflexivity.
Qed.

(** C7, as the code has it: when the computed total and the entries of
    the breakdown are finite, the total is not negative (the clamp does not
    fire), every per-activity emission is at most 10^7 kg in magnitude and
    the conversion factor is at most 1/500, the five entries of whatever
    breakdown the run stores sum, as real numbers, to the stored [co2e]
    within 10^-9.  A breakdown is stored when the log store gives a
    previous calculation whose [co2e] can be converted to a string. *)
Theorem breakdown_adds_up (host : App.Host) (w : World)
  (c : Config.t) (factors : Config.EmissionFactors) (e : App.Emissions) :
  App.getConfig w = Config.Bound c ->
  Config.emissionFactors c = Some factors ->
  App.emissions factors (document w) = Some e ->
  isFinite (App.totalTonnes c e) = true ->
  (App.totalTonnes c e < zero)%js = false ->
  forallb isFinite
    [transport (App.breakdownOf c e); energy (App.breakdownOf c e);
     food (App.breakdownOf c e); waste (App.breakdownOf c e);
     shopping (App.breakdownOf c e)] = true ->
  Forall (fun t => (Rabs (toR t) <= 10000000)%R) (terms e) ->
  (Rabs (toR (App.kgToTonnes c)) <= 1 / 500)%R ->
  (forall calc b,
     currentCalculation (fst (App.calculateFootprint host w)) = Some calc ->
     breakdown calc = Some b ->
     (Rabs (breakdownTotal b - toR (co2e calc)) <= 1 / 1000000000)%R)
  /\ (forall previous,
        App.getPreviousCalculation host w = Some previous ->
        ToString_throws (App.previous_co2e previous) = false ->
        exists calc b,
          currentCalculation (fst (App.calculateFootprint host w)) = Some calc
          /\ breakdown calc = Some b).
Proof.
  intros Hc Hf He Hfin Hneg Hb Hterms Hk.
  pose proof (calculateFootprint_stores host w c factors Hc Hf) as H.
  rewrite He in H. split.
  - intros calc b Hcalc Hbreakdown.
    assert (Hstored : calc = computed c e (clock w (reads w))).
    { destruct (App.getPreviousCalculation host w) as [p | ];
        [destruct (snd (App.displayCalculationResult _ p w)) | ];
        injection H as H _; rewrite Hcalc in H; injection H as ->;
        first [reflexivity | discriminate Hbreakdown]. }
    subst calc. injection Hbreakdown as <-.
    cbn [co2e computed]. unfold App.finalTotalTonnes.
    rewrite (validNumber_finite _ Hfin Hneg).
    apply breakdown_total_close; assumption.
  - intros previous Hp Hreadable. rewrite Hp in H.
    rewrite (display_of_readable _ previous w Hreadable) in H.
    injection H as H _.
    exists (computed c e (clock w (reads w))), (App.breakdownOf c e).
    split; [exact H | reflexivity].
Qed.

(** The value of a finite number as a quotient of two integers. *)
Lemma toR_ratio (s : bool) (m : positive) (e n d : Z) :
  n = cond_Zopp s (Zpos m) * 2 ^ Z.max e 0 ->
  d = 2 ^ Z.max (- e) 0 ->
  toR (S754_finite s m e) = (IZR n / IZR d)%R.
Proof.
  intros -> ->. cbn [toR]. rewrite mult_IZR, <- !bpow_IZR by lia.
  pose proof (bpow_pos (Z.max (- e) 0)) as Hd.
  replace e with (Z.max e 0 + - Z.max (- e) 0) at 1 by lia.
  rewrite bpow_add, powerRZ_neg'. field. lra.
Qed.

(** Replaces the value of every literal number of the goal by a quotient
    of integer literals. *)
Ltac eval_toR :=
  repeat match goal with
    | |- context [toR (S754_finite ?s ?m ?e)] =>
        let n := eval vm_compute in (cond_Zopp s (Zpos m) * 2 ^ Z.max e 0) in
        let d := eval vm_compute in (2 ^ Z.max (- e) 0) in
        rewrite (toR_ratio s m e n d) by (vm_compute; reflexivity)
    | |- context [toR (S754_zero ?s)] => change (toR (S754_zero s)) with 0%R
    end.

Ltac literal_bound :=
  eval_toR; unfold Rabs; destruct (Rcase_abs _); lra.

Lemma breakdown_adds_up_witness :
  let w := page [("car-miles", "20"); ("electricity", "10");
                 ("renewable-percent", "50")] [] 1700000000000 in
  exists calc b,
    currentCalculation (fst (App.calculateFootprint isoHost w)) = Some calc
    /\ breakdown calc = Some b
    /\ (Rabs (breakdownTotal b - toR (co2e calc)) <= 1 / 1000000000)%R.
Proof.
  intros w.
  assert (Hp : App.getPreviousCalculation isoHost w = Some VNull)
    by (vm_compute; reflexivity).
  assert (H : forall e,
             App.emissions Config.defaultFactors (document w) = Some e ->
             isFinite (App.totalTonnes shippedConfig e) = true ->
             (App.totalTonnes shippedConfig e < zero)%js = false ->
             forallb isFinite
               [transport (App.breakdownOf shippedConfig e);
                energy (App.breakdownOf shippedConfig e);
                food (App.breakdownOf shippedConfig e);
                waste (App.breakdownOf shippedConfig e);
                shopping (App.breakdownOf shippedConfig e)] = true ->
             Forall (fun t => (Rabs (toR t) <= 10000000)%R) (terms e) ->
             (Rabs (toR (App.kgToTonnes shippedConfig)) <= 1 / 500)%R ->
             exists calc b,
               currentCalculation (fst (App.calculateFootprint isoHost w))
               = Some calc
               /\ breakdown calc = Some b
               /\ (Rabs (breakdownTotal b - toR (co2e calc))
                   <= 1 / 1000000000)%R).
  { intros e He H1 H2 H3 H4 H5.
    destruct (breakdown_adds_up isoHost w shippedConfig Config.defaultFactors
                e eq_refl eq_refl He H1 H2 H3 H4 H5) as [Hclose Hstored].
    destruct (Hstored VNull Hp eq_refl) as (calc & b & Hcalc & Hb).
    exists calc, b. split; [exact Hcalc |]. split; [exact Hb |].
    apply (Hclose calc b Hcalc Hb). }
  let v := eval vm_compute in (App.emissions Config.defaultFactors (document w)) in
  lazymatch v with
  | Some ?e => apply (H e)
  end; try (vm_compute; reflexivity).
  - unfold terms.
    cbn [App.transportCarCo2e App.transportFlightsCo2e
         App.transportPublicCo2e App.electricityEmissions App.gasCo2e
         App.foodMeatCo2e App.foodDairyCo2e App.wasteCo2e App.shoppingCo2e
         App.electronicsCo2e].
    repeat (apply List.Forall_cons; [literal_bound |]). apply List.Forall_nil.
  - replace (App.kgToTonnes shippedConfig)
      with (S754_finite false 4611686018427388 (-62))
      by (vm_compute; reflexivity).
    literal_bound.
Defined.

(** The claim C7 fails as it is stated: for 22222222222222 miles by car
    and 33333333333333 meat meals a day nothing overflows and the clamp
    does not fire, yet the entries of the breakdown miss the stored total,
    about 2.5 x 10^11 tonnes, by about 3 x 10^-5, which is more than 10^-9,
    whether they are added as real numbers or as JavaScript adds them. *)
Lemma large_totals_do_not_add_up :
  let w := page [("car-miles", "22222222222222");
                 ("meat-meals", "33333333333333")] [] 1700000000000 in
  let total := S754_finite false 8151950222222142 (-15) in
  let parts :=
    {| transport := S754_finite false 4776846222222174 (-19);
       energy := zero;
       food := S754_finite false 7853397333333255 (-15);
       waste := zero;
       shopping := zero |} in
  let added :=
    (transport parts + energy parts + food parts + waste parts
     + shopping parts)%js in
  currentCalculation (fst (App.calculateFootprint isoHost w))
  = Some {| co2e := total; category := "mixed";
            timestamp := "2023-11-14T22:13:20.000Z";
            breakdown := Some parts |}
  /\ isFinite total = true
  /\ (zero < total)%js = true
  /\ (Rabs (breakdownTotal parts - toR total) > 1 / 1000000000)%R
  /\ added = S754_finite false 8151950222222141 (-15)
  /\ (Rabs (toR added - toR total) > 1 / 1000000000)%R.
Proof.
  cbv zeta. split; [vm_compute; reflexivity |].
  split; [reflexivity |]. split; [reflexivity |].
  split; [unfold breakdownTotal, zero;
          cbn [transport energy food waste shopping]; literal_bound |].
  assert (Hadded :
            (S754_finite false 4776846222222174 (-19) + zero
             + S754_finite false 7853397333333255 (-15) + zero + zero)%js
            = S754_finite false 8151950222222141 (-15))
    by (vm_compute; reflexivity).
  cbn [transport energy food waste shopping]. rewrite Hadded.
  split; [reflexivity | literal_bound].
Qed.

(* ===================================================================== *)
(** ** Further properties of the calculator *)
(* ===================================================================== *)

Lemma safeParseFloat_not_NaN (doc : gmap string string) (id : string) :
  isNaN (App.safeParseFloat doc id) = false.
Proof.
  unfold App.safeParseFloat. destruct (doc !! id) as [text | ];
    [apply validNumber_not_NaN | reflexivity].
Qed.

Lemma safeParseFloat_not_negative (doc : gmap string string) (id : string) :
  (App.safeParseFloat doc id < zero)%js = false.
Proof.
  unfold App.safeParseFloat. destruct (doc !! id) as [text | ];
    [apply validNumber_not_negative | reflexivity].
Qed.

(** A reading of the form is a number that is neither NaN nor negative,
    whatever the text of the field and whether the field is there or
    not. *)
Theorem safeParseFloat_valid (doc : gmap string string) (id : string) :
  isNaN (App.safeParseFloat doc id) = false
  /\ (App.safeParseFloat doc id < zero)%js = false.
Proof.
  split; [apply safeParseFloat_not_NaN | apply safeParseFloat_not_negative].
Qed.

Lemma lt_irrefl_finite (m : positive) (e : Z) :
  SFltb (S754_finite false m e) (S754_finite false m e) = false.
Proof.
  unfold SFltb. cbn [SFcompare]. rewrite Z.compare_refl, Pos.compare_cont_refl.
  reflexivity.
Qed.

(** Clamping between 0 and a positive bound [c]: for an argument that is
    neither NaN nor negative the result is neither, and is not above [c]. *)
Lemma clamp_range (mc : positive) (ec : Z) (x : number) :
  let c := S754_finite false mc ec in
  isNaN x = false -> (x < zero)%js = false ->
  let r := Math_min c (Math_max zero x) in
  isNaN r = false /\ (r < zero)%js = false /\ (r > c)%js = false.
Proof.
  intros c Hn Hneg r. subst r.
  assert (Hmax : Math_max zero x = x /\ (zero < x)%js = true
                 \/ Math_max zero x = zero).
  { unfold Math_max. change (isNaN zero) with false. rewrite Hn. cbn [orb].
    destruct (zero < x)%js; [left; split; reflexivity |].
    rewrite Hneg. right. reflexivity. }
  assert (Hcc : (c < c)%js = false) by apply lt_irrefl_finite.
  destruct Hmax as [[-> Hpos] | ->].
  - unfold Math_min, gt. change (isNaN c) with false. rewrite Hn. cbn [orb].
    destruct (c < x)%js eqn:Hcx.
    + repeat split; try reflexivity. exact Hcc.
    + destruct (x < c)%js; [repeat split; assumption |].
      repeat split; try reflexivity. exact Hcc.
  - repeat split; reflexivity.
Qed.

(** Every percentage the calculation uses lies between 0 and 100: it is
    not NaN, not below 0 and not above 100, whatever the text of its
    field. *)
Theorem percent_within_0_100 (doc : gmap string string) (id : string) :
  let p := App.clampPercent (App.safeParseFloat doc id) in
  isNaN p = false /\ (p < zero)%js = false /\ (p > of_Z 100)%js = false.
Proof.
  pose proof (safeParseFloat_not_NaN doc id) as Hn.
  pose proof (safeParseFloat_not_negative doc id) as Hneg.
  unfold App.clampPercent.
  replace (of_Z 100) with (S754_finite false 7036874417766400 (-46))
    by (vm_compute; reflexivity).
  apply clamp_range; assumption.
Qed.

Lemma zeroOrNaN_mul_r (x y : number) :
  zeroOrNaN y = true -> zeroOrNaN (x * y)%js = true.
Proof.
  unfold zeroOrNaN, mul.
  destruct x as [sx | sx | | sx mx ex], y as [sy | sy | | sy my ey];
    intros H; try discriminate H; reflexivity.
Qed.

(** Fully renewable electricity emits nothing: when the renewable share
    reads as 100 or more, the emissions of the electricity are zero (or
    NaN, for a consumption beyond the range of numbers), whatever the
    consumption and the factor are. *)
Theorem renewable_electricity_emits_nothing
  (factors : Config.EmissionFactors) (doc : gmap string string)
  (e : App.Emissions) :
  App.emissions factors doc = Some e ->
  App.clampPercent (App.safeParseFloat doc "renewable-percent") = of_Z 100 ->
  zeroOrNaN (App.electricityEmissions e) = true.
Proof.
  intros He Hfull. unfold App.emissions in He.
  destruct (Config.transport factors); [ | discriminate He].
  destruct (Config.energy factors); [ | discriminate He].
  destruct (Config.food factors); [ | discriminate He].
  destruct (Config.waste factors); [ | discriminate He].
  destruct (Config.shopping factors); [ | discriminate He].
  cbn [mbind option_bind] in He. injection He as <-.
  cbn [App.electricityEmissions]. rewrite Hfull.
  apply zeroOrNaN_mul_r. vm_compute. reflexivity.
Qed.

Lemma renewable_electricity_emits_nothing_witness :
  let doc : gmap string string :=
    list_to_map [("electricity", "12"); ("renewable-percent", "150")] in
  exists e,
    App.emissions Config.defaultFactors doc = Some e
    /\ zeroOrNaN (App.electricityEmissions e) = true.
Proof.
  intros doc.
  let v := eval vm_compute in (App.emissions Config.defaultFactors doc) in
  lazymatch v with
  | Some ?e =>
      exists e; split; [vm_compute; reflexivity |];
        apply (renewable_electricity_emits_nothing Config.defaultFactors doc e);
        vm_compute; reflexivity
  end.
Defined.

Section Runs.

Variable host : App.Host.

(** What [displayCalculationResult] changes when it runs to its end: it
    adds one output, an alert of the number it was given or the display of
    that number made valid. *)
Lemma displayCalculationResult_adds (t : number) (p : value) (w : World) :
  snd (App.displayCalculationResult t p w) = true ->
  exists o,
    fst (App.displayCalculationResult t p w) = show o w
    /\ (o = AlertFootprint t
        \/ o = ShowResult (App.validNumber t) None
        \/ exists d,
             App.describe (App.validNumber t) p = Some d
             /\ o = ShowResult (App.validNumber t) (Some d)).
Proof.
  unfold App.displayCalculationResult.
  destruct (document w !! "calculationResult"), (document w !! "resultValue");
    try (intros _; eexists; split; [reflexivity | left; reflexivity]).
  destruct (document w !! "resultDescription");
    [ | intros _; eexists; split; [reflexivity | right; left; reflexivity]].
  destruct (App.describe (App.validNumber t) p) as [d | ];
    [ | discriminate].
  intros _. eexists. split; [reflexivity |]. right. right.
  exists d. split; reflexivity.
Qed.

Lemma validNumber_idempotent (x : number) :
  App.validNumber (App.validNumber x) = App.validNumber x.
Proof.
  unfold App.validNumber at 1.
  rewrite validNumber_not_NaN, validNumber_not_negative. reflexivity.
Qed.

(** The world a run leaves, with a usable CONFIG: the stored result and
    one output made from its [co2e] by a display that ran to its end. *)
Lemma calculateFootprint_leaves (w : World) (c : Config.t)
  (factors : Config.EmissionFactors) :
  App.getConfig w = Config.Bound c ->
  Config.emissionFactors c = Some factors ->
  exists calc previous n,
    (n = 1 \/ n = 2)%nat
    /\ App.displayCalculationResult (co2e calc) previous
         {| CONFIG := CONFIG w; window_CONFIG := window_CONFIG w;
            document := document w; localStorage := localStorage w;
            clock := clock w; reads := (reads w + n)%nat;
            currentCalculation := Some calc; shown := shown w |}
       = (fst (App.calculateFootprint host w), true)
    /\ (App.getPreviousCalculation host w = Some previous
        \/ previous = VNull /\ co2e calc = zero)
    /\ App.validNumber (co2e calc) = co2e calc.
Proof.
  intros Hc Hf. unfold App.calculateFootprint, App.tryCalculate.
  rewrite Hc, Hf.
  assert (Hcatch : forall w0 : World,
             document w0 = document w -> localStorage w0 = localStorage w ->
             CONFIG w0 = CONFIG w -> window_CONFIG w0 = window_CONFIG w ->
             clock w0 = clock w -> shown w0 = shown w ->
             (reads w0 = reads w \/ reads w0 = S (reads w)) ->
             exists calc previous n,
               (n = 1 \/ n = 2)%nat
               /\ App.displayCalculationResult (co2e calc) previous
                    {| CONFIG := CONFIG w; window_CONFIG := window_CONFIG w;
                       document := document w; localStorage := localStorage w;
                       clock := clock w; reads := (reads w + n)%nat;
                       currentCalculation := Some calc; shown := shown w |}
                  = (App.catchCalculate w0, true)
               /\ (App.getPreviousCalculation host w = Some previous
                   \/ previous = VNull /\ co2e calc = zero)
               /\ App.validNumber (co2e calc) = co2e calc).
  { intros w0 H1 H2 H3 H4 H5 H6 Hreads.
    exists (defaulted (clock w (reads w0))), VNull,
      (if Nat.eqb (reads w0) (reads w) then 1 else 2)%nat.
    split; [destruct (Nat.eqb (reads w0) (reads w)); [left | right];
            reflexivity |].
    split; [ | split; [right; split; reflexivity | reflexivity]].
    unfold App.catchCalculate. cbn [Date_now set_currentCalculation].
    rewrite H1, H2, H3, H4, H5, H6.
    replace (reads w + (if Nat.eqb (reads w0) (reads w) then 1 else 2))%nat
      with (S (reads w0)).
    - match goal with
      | |- ?d = (fst ?d', true) =>
          change d' with d; rewrite (surjective_pairing d) at 1
      end.
      f_equal. apply display_without_previous.
    - destruct Hreads as [-> | ->];
        [rewrite Nat.eqb_refl; lia |].
      replace (Nat.eqb (S (reads w)) (reads w)) with false; [lia |].
      symmetry. apply Nat.eqb_neq. lia. }
  destruct (App.emissions factors (document w)) as [e | ].
  - cbn [Date_now].
    match goal with
    | |- context [App.getPreviousCalculation _ ?w2] =>
        rewrite (getPreviousCalculation_storage host w2 w)
          by reflexivity
    end.
    destruct (App.getPreviousCalculation host w) as [p | ].
    + match goal with
      | |- context [App.displayCalculationResult ?t ?p ?w2] =>
          destruct (displayCalculationResult_cases t p w2) as [[o Hd] | Hd]
      end.
      * rewrite Hd. cbn [fst snd].
        exists (computed c e (clock w (reads w))), p, 1%nat.
        split; [left; reflexivity |]. split.
        -- cbn [set_currentCalculation co2e computed CONFIG window_CONFIG
                document localStorage clock reads shown] in Hd |- *.
           rewrite Nat.add_1_r. exact Hd.
        -- split; [left; reflexivity | apply validNumber_idempotent].
      * rewrite Hd. cbn [fst snd]. apply Hcatch; try reflexivity.
        right. reflexivity.
    + cbn [fst snd]. apply Hcatch; try reflexivity. right. reflexivity.
  - cbn [fst snd]. apply Hcatch; try reflexivity. left. reflexivity.
Qed.

(** The same, with the output named. *)
Lemma calculateFootprint_shows (w : World) (c : Config.t)
  (factors : Config.EmissionFactors) :
  App.getConfig w = Config.Bound c ->
  Config.emissionFactors c = Some factors ->
  exists calc previous n o,
    (n = 1 \/ n = 2)%nat
    /\ fst (App.calculateFootprint host w)
       = show o
           {| CONFIG := CONFIG w; window_CONFIG := window_CONFIG w;
              document := document w; localStorage := localStorage w;
              clock := clock w; reads := (reads w + n)%nat;
              currentCalculation := Some calc; shown := shown w |}
    /\ (o = AlertFootprint (co2e calc)
        \/ o = ShowResult (co2e calc) None
        \/ exists d,
             App.describe (co2e calc) previous = Some d
             /\ o = ShowResult (co2e calc) (Some d))
    /\ (App.getPreviousCalculation host w = Some previous
        \/ previous = VNull /\ co2e calc = zero).
Proof.
  intros Hc Hf.
  destruct (calculateFootprint_leaves w c factors Hc Hf)
    as (calc & p & n & Hn & Hleaves & Hprev & Hvalid).
  match type of Hleaves with
  | App.displayCalculationResult ?t ?p ?w0 = _ =>
      destruct (displayCalculationResult_adds t p w0) as (o & Ho & Hcases);
        [rewrite Hleaves; reflexivity |]
  end.
  rewrite Hleaves in Ho. cbn [fst] in Ho. rewrite Hvalid in Hcases.
  exists calc, p, n, o.
  split; [exact Hn |]. split; [exact Ho |]. split; assumption.
Qed.

(** [calculateFootprint] only reads the form, the CONFIG and the log
    store: it leaves all three as they were, whatever they hold, and it
    reads the clock at most twice. *)
Theorem calculateFootprint_only_reads (w : World) :
  let w' := fst (App.calculateFootprint host w) in
  localStorage w' = localStorage w
  /\ document w' = document w
  /\ CONFIG w' = CONFIG w
  /\ window_CONFIG w' = window_CONFIG w
  /\ clock w' = clock w
  /\ (reads w <= reads w' <= reads w + 2)%nat.
Proof.
  cbv zeta.
  destruct (App.getConfig w) as [ | | c] eqn:Hc;
    try (unfold App.calculateFootprint; rewrite Hc; cbn [fst show];
         repeat split; cbn; lia).
  destruct (Config.emissionFactors c) as [factors | ] eqn:Hf;
    [ | unfold App.calculateFootprint; rewrite Hc, Hf; cbn [fst show];
        repeat split; cbn; lia].
  destruct (calculateFootprint_shows w c factors Hc Hf)
    as (calc & p & n & o & Hn & -> & _).
  cbn [show localStorage document CONFIG window_CONFIG clock reads].
  repeat split; lia.
Qed.

(** Every run tells the user one thing: it adds exactly one output to
    what the page has shown, an alert or the display of a result. *)
Theorem calculateFootprint_one_output (w : World) :
  exists o,
    shown (fst (App.calculateFootprint host w)) = (shown w ++ [o])%list.
Proof.
  destruct (App.getConfig w) as [ | | c] eqn:Hc;
    try (unfold App.calculateFootprint; rewrite Hc; eexists; reflexivity).
  destruct (Config.emissionFactors c) as [factors | ] eqn:Hf;
    [ | unfold App.calculateFootprint; rewrite Hc, Hf; eexists; reflexivity].
  destruct (calculateFootprint_shows w c factors Hc Hf)
    as (calc & p & n & o & Hn & -> & _).
  exists o. reflexivity.
Qed.

(** The number shown is the number stored: with a usable CONFIG, the
    output of a run is an alert or a display of the [co2e] of the result
    it stored. *)
Theorem shown_number_is_stored (w : World) (c : Config.t)
  (factors : Config.EmissionFactors) :
  App.getConfig w = Config.Bound c ->
  Config.emissionFactors c = Some factors ->
  exists calc o,
    currentCalculation (fst (App.calculateFootprint host w)) = Some calc
    /\ shown (fst (App.calculateFootprint host w)) = (shown w ++ [o])%list
    /\ (o = AlertFootprint (co2e calc)
        \/ exists description, o = ShowResult (co2e calc) description).
Proof.
  intros Hc Hf.
  destruct (calculateFootprint_shows w c factors Hc Hf)
    as (calc & p & n & o & Hn & -> & Ho & _).
  exists calc, o. cbn [show currentCalculation shown].
  split; [reflexivity |]. split; [reflexivity |].
  destruct Ho as [-> | [-> | (d & _ & ->)]];
    [left | right; eexists | right; eexists]; reflexivity.
Qed.

(** With a usable CONFIG, the run returns [true] exactly when the result
    it stored carries a breakdown; when it returns [false], the stored
    result is the default: 0, without a breakdown. *)
Theorem returns_true_iff_breakdown (w : World) (c : Config.t)
  (factors : Config.EmissionFactors) :
  App.getConfig w = Config.Bound c ->
  Config.emissionFactors c = Some factors ->
  exists calc,
    currentCalculation (fst (App.calculateFootprint host w)) = Some calc
    /\ (snd (App.calculateFootprint host w) = true
        <-> is_Some (breakdown calc))
    /\ (snd (App.calculateFootprint host w) = false ->
        co2e calc = zero /\ breakdown calc = None).
Proof.
  intros Hc Hf.
  pose proof (calculateFootprint_stores host w c factors Hc Hf) as H.
  destruct (App.emissions factors (document w)) as [e | ];
    [destruct (App.getPreviousCalculation host w) as [p | ];
       [destruct (snd (App.displayCalculationResult _ p w)) | ] | ];
    injection H as -> ->; eexists; (split; [reflexivity |]);
    cbn [breakdown co2e computed defaulted]; split;
    try (split; [intros _; eexists; reflexivity | reflexivity]);
    try (split; [discriminate | intros [b Hb]; discriminate Hb]);
    try discriminate; try (intros _; split; reflexivity).
Qed.

(** The first calculation is shown without a comparison: while the log
    store holds no entry, the description of a run carries none. *)
Theorem first_calculation_has_no_comparison (w : World) (c : Config.t)
  (factors : Config.EmissionFactors) :
  App.getConfig w = Config.Bound c ->
  Config.emissionFactors c = Some factors ->
  App.getCarbonLogs w = Some (VArr []) ->
  exists o,
    shown (fst (App.calculateFootprint host w)) = (shown w ++ [o])%list
    /\ forall v d, o = ShowResult v (Some d) -> comparisonShown d = None.
Proof.
  intros Hc Hf Hlogs.
  assert (Hp : App.getPreviousCalculation host w = Some VNull)
    by (unfold App.getPreviousCalculation; rewrite Hlogs; reflexivity).
  destruct (calculateFootprint_shows w c factors Hc Hf)
    as (calc & p & n & o & Hn & -> & Ho & Hprev).
  assert (p = VNull) as -> by (destruct Hprev as [H | [H _]]; congruence).
  exists o. split; [reflexivity |]. intros v d ->.
  destruct Ho as [Ho | [Ho | (d' & Hd & Ho)]]; try discriminate Ho.
  injection Ho as _ ->. unfold App.describe in Hd.
  destruct (_ === zero)%js; injection Hd as <-; reflexivity.
Qed.

End Runs.

Lemma shown_number_is_stored_witness :
  let w := page [("car-miles", "100"); ("meat-meals", "3")] [] 1700000000000 in
  exists calc o,
    currentCalculation (fst (App.calculateFootprint isoHost w)) = Some calc
    /\ shown (fst (App.calculateFootprint isoHost w)) = (shown w ++ [o])%list
    /\ (o = AlertFootprint (co2e calc)
        \/ exists description, o = ShowResult (co2e calc) description).
Proof.
  intros w.
  apply (shown_number_is_stored isoHost w shippedConfig
           Config.defaultFactors); reflexivity.
Defined.

Lemma returns_true_iff_breakdown_witness :
  let w := page [("car-miles", "100")] [("carbonLogs", NotJson)] 1700000000000 in
  exists calc,
    currentCalculation (fst (App.calculateFootprint isoHost w)) = Some calc
    /\ (snd (App.calculateFootprint isoHost w) = true
        <-> is_Some (breakdown calc))
    /\ (snd (App.calculateFootprint isoHost w) = false ->
        co2e calc = zero /\ breakdown calc = None).
Proof.
  intros w.
  apply (returns_true_iff_breakdown isoHost w shippedConfig
           Config.defaultFactors); reflexivity.
Defined.

Lemma first_calculation_has_no_comparison_witness :
  let w := page [("car-miles", "100")] [] 1700000000000 in
  exists o,
    shown (fst (App.calculateFootprint isoHost w)) = (shown w ++ [o])%list
    /\ forall v d, o = ShowResult v (Some d) -> comparisonShown d = None.
Proof.
  intros w.
  apply (first_calculation_has_no_comparison isoHost w shippedConfig
           Config.defaultFactors); reflexivity.
Defined.

(** Changing the text of an element that is neither one of the thirteen
    inputs nor one of the three result elements changes nothing of a run:
    the same result is stored, shown and returned. *)
Theorem unrelated_fields_are_ignored (host : App.Host)
  (w : World) (id old text : string) :
  document w !! id = Some old ->
  ~ In id (quantityIds ++ percentIds) ->
  outcome (App.calculateFootprint host (with_input id text w))
  = outcome (App.calculateFootprint host w).
Proof.
  intros Hold Hid.
  apply (with_input_same_readings host w id old text Hold).
  - intros id' Hin. apply safeParseFloat_insert_other.
    intros <-. apply Hid, in_or_app. left. exact Hin.
  - intros id' Hin. rewrite safeParseFloat_insert_other; [reflexivity |].
    intros <-. apply Hid, in_or_app. right. exact Hin.
Qed.

Lemma unrelated_fields_are_ignored_witness :
  let w := page [("car-miles", "20"); ("goal-percent", "10")] [] 0 in
  outcome (App.calculateFootprint isoHost
             (with_input "goal-percent" "25" w))
  = outcome (App.calculateFootprint isoHost w).
Proof.
  intros w.
  apply (unrelated_fields_are_ignored isoHost w "goal-percent" "10" "25").
  - reflexivity.
  - unfold quantityIds, percentIds. cbn [app In].
    intros H. repeat (destruct H as [H | H]; [discriminate H |]). exact H.
Defined.

(* ===================================================================== *)
(** ** The previous calculation *)
(* ===================================================================== *)

Section Previous.

Variable host : App.Host.

Lemma insertLog_head (a : value * number) (sorted : list (value * number)) :
  exists x rest,
    App.insertLog a sorted = x :: rest /\ (x = a \/ head sorted = Some x).
Proof.
  destruct sorted as [ | b rest]; cbn [App.insertLog].
  - exists a, []. split; [reflexivity | left; reflexivity].
  - destruct (snd b - snd a > zero)%js.
    + eexists _, _. split; [reflexivity | right; reflexivity].
    + eexists _, _. split; [reflexivity | left; reflexivity].
Qed.

(** The insertion sort keeps the entries: the first of the sorted list is
    one of the list. *)
Lemma insertion_head (logs : list (value * number)) :
  logs <> [] ->
  exists x, head (foldr App.insertLog [] logs) = Some x /\ x ∈ logs.
Proof.
  induction logs as [ | a logs IH]; [congruence |]. intros _.
  cbn [foldr].
  destruct (insertLog_head a (foldr App.insertLog [] logs))
    as (x & rest & -> & Hx).
  exists x. split; [reflexivity |].
  destruct Hx as [-> | Hx]; [apply list_elem_of_here |].
  apply list_elem_of_further.
  destruct logs as [ | b logs']; [discriminate Hx |].
  destruct IH as (y & Hy & Hin); [congruence |].
  rewrite Hx in Hy. injection Hy as <-. exact Hin.
Qed.

(** So does the sort of any host. *)
Lemma sortLogs_head (logs : list (value * number)) :
  logs <> [] -> exists x, head (App.sortLogs host logs) = Some x /\ x ∈ logs.
Proof.
  intros Hne. unfold App.sortLogs.
  destruct (forallb _ logs); [apply insertion_head, Hne |].
  pose proof (App.Array_sort_permutation host logs) as Hperm.
  destruct (App.Array_sort host logs) as [ | x rest].
  - apply Permutation_nil_l in Hperm. congruence.
  - exists x. split; [reflexivity |]. rewrite <- Hperm. apply list_elem_of_here.
Qed.

(** [getPreviousCalculation] on a stored array: when every entry has a
    date, or there is at most one entry, it does not throw: it returns
    [null] for the empty array and one of the entries otherwise.  With two
    or more entries of which one has no date, because it is [null] or
    because its timestamp has no primitive, it throws. *)
Theorem previous_is_a_stored_entry (w : World) (entries : list value) :
  App.getCarbonLogs w = Some (VArr entries) ->
  (((2 <= length entries)%nat ->
    Forall (fun a => is_Some (App.entryDate host a)) entries) ->
   exists previous,
     App.getPreviousCalculation host w = Some previous
     /\ (entries = [] -> previous = VNull)
     /\ (entries <> [] -> previous ∈ entries))
  /\ ((2 <= length entries)%nat ->
      Exists (fun a => App.entryDate host a = None) entries ->
      App.getPreviousCalculation host w = None).
Proof.
  intros Hlogs. unfold App.getPreviousCalculation. rewrite Hlogs.
  cbn [mbind option_bind].
  destruct entries as [ | a [ | b rest]].
  - split; [ | cbn [length]; lia].
    intros _. exists VNull. repeat split; congruence.
  - split; [ | cbn [length]; lia].
    intros _. exists a.
    repeat split; [congruence | intros _; apply list_elem_of_here].
  - set (entries := a :: b :: rest) in *.
    assert (Hlen : (2 <= length entries)%nat) by (cbn [length entries]; lia).
    split.
    + intros Hdated. specialize (Hdated Hlen).
      assert (Hdates : is_Some (mapM (App.entryDate host) entries))
        by (apply mapM_is_Some; exact Hdated).
      destruct Hdates as [dates Hdates]. rewrite Hdates.
      cbn [mbind option_bind].
      apply mapM_Some_1, Forall2_length in Hdates.
      destruct (sortLogs_head (zip entries dates)) as (x & -> & Hx).
      { destruct dates; [discriminate Hdates | discriminate]. }
      exists (fst x). cbn [fmap option_fmap option_map default].
      repeat split; [discriminate |]. intros _.
      destruct x as [v d]. apply elem_of_zip_l in Hx. exact Hx.
    + intros _ Hundated.
      destruct (mapM (App.entryDate host) entries) as [dates | ] eqn:Hdates;
        [ | reflexivity].
      exfalso. assert (Hsome : is_Some (mapM (App.entryDate host) entries))
        by (rewrite Hdates; eexists; reflexivity).
      apply mapM_is_Some in Hsome. apply Exists_exists in Hundated.
      destruct Hundated as (x & Hx & Hnone).
      rewrite Forall_forall in Hsome. specialize (Hsome x Hx).
      unfold compose in Hsome. rewrite Hnone in Hsome.
      destruct Hsome as [? Habs]. discriminate Habs.
Qed.

End Previous.

Lemma previous_is_a_stored_entry_witness :
  let demo1 := VObj [("id", VStr "demo-1"); ("co2e", VNum (dec 25 10));
                     ("timestamp", VStr "2023-10-15T22:13:20.000Z")] in
  let demo2 := VObj [("id", VStr "demo-2"); ("co2e", VNum (dec 18 10));
                     ("timestamp", VStr "2023-10-25T22:13:20.000Z")] in
  let broken := VObj [("timestamp", VObj [("toString", VNum (of_Z 1))])] in
  let w := page [] [("carbonLogs", Json (VArr [demo1; demo2]))] 0 in
  let w' := page [] [("carbonLogs", Json (VArr [demo1; broken]))] 0 in
  (exists previous,
     App.getPreviousCalculation isoHost w = Some previous
     /\ ([demo1; demo2] = [] -> previous = VNull)
     /\ ([demo1; demo2] <> [] -> previous ∈ [demo1; demo2]))
  /\ App.getPreviousCalculation isoHost w' = None.
Proof.
  intros demo1 demo2 broken w w'. split.
  - apply (previous_is_a_stored_entry isoHost w [demo1; demo2] eq_refl).
    intros _.
    repeat (apply List.Forall_cons; [vm_compute; eexists; reflexivity |]).
    apply List.Forall_nil.
  - apply (previous_is_a_stored_entry isoHost w' [demo1; broken] eq_refl).
    + cbn [length]. lia.
    + apply List.Exists_cons_tl, List.Exists_cons_hd. reflexivity.
Defined.

(* ===================================================================== *)
(** ** Further properties of the log store *)
(* ===================================================================== *)

(** A save on a store that is not an array fails: the promise is rejected
    and the store is left as it was. *)
Theorem saveCarbonLog_rejects_corrupt_store
  (logData : list (string * value)) (w : World) :
  (forall entries, API.getCarbonLogs w <> Some (VArr entries)) ->
  snd (API.saveCarbonLog logData w) = API.Rejected
  /\ localStorage (fst (API.saveCarbonLog logData w)) = localStorage w.
Proof.
  intros Hlogs. unfold API.saveCarbonLog.
  destruct (API.getCarbonLogs w) as [logs | ]; [ | split; reflexivity].
  destruct logs as [ | | b | x | s | entries | fields];
    try (split; reflexivity).
  destruct (Hlogs entries eq_refl).
Qed.

Lemma saveCarbonLog_rejects_corrupt_store_witness :
  let w := page [] [("carbonLogs", NotJson)] 0 in
  let logData := [("co2e", VNum (dec 25 10))] in
  snd (API.saveCarbonLog logData w) = API.Rejected
  /\ localStorage (fst (API.saveCarbonLog logData w)) = localStorage w.
Proof.
  intros w logData. apply (saveCarbonLog_rejects_corrupt_store logData w).
  intros entries. vm_compute. discriminate.
Defined.

(** Whatever the stored array holds, a save makes it one entry longer,
    and what it leaves is held by JSON text as it is: a later save appends
    to it without rewriting it. *)
Theorem saveCarbonLog_grows_by_one (logData : list (string * value))
  (w : World) (entries : list value) :
  API.getCarbonLogs w = Some (VArr entries) ->
  exists entries',
    API.getCarbonLogs (fst (API.saveCarbonLog logData w)) = Some (VArr entries')
    /\ length entries' = S (length entries)
    /\ Forall (fun x => API.jsonify x = x) entries'.
Proof.
  intros Hlogs. rewrite (saveCarbonLog_store logData w entries Hlogs).
  eexists. split; [ | split].
  - unfold API.getCarbonLogs, App.getCarbonLogs. cbn [setItem localStorage].
    rewrite lookup_insert_eq. reflexivity.
  - rewrite length_app, length_map. cbn [length]. lia.
  - apply Forall_app. split.
    + apply Forall_forall. intros x Hx. apply list_elem_of_fmap in Hx.
      destruct Hx as (y & -> & _). apply jsonify_idempotent.
    + apply List.Forall_cons; [apply jsonify_idempotent | apply List.Forall_nil].
Qed.

Lemma saveCarbonLog_grows_by_one_witness :
  let w := page [] [("carbonLogs", Json (VArr [VNum Infinity; VNull]))] 0 in
  let logData := [("co2e", VNum (dec 25 10))] in
  exists entries',
    API.getCarbonLogs (fst (API.saveCarbonLog logData w)) = Some (VArr entries')
    /\ length entries' = S (length [VNum Infinity; VNull])
    /\ Forall (fun x => API.jsonify x = x) entries'.
Proof.
  intros w logData.
  apply (saveCarbonLog_grows_by_one logData w [VNum Infinity; VNull]).
  reflexivity.
Defined.

(** Two saves in a row append two entries in the order of the saves; the
    first takes the next two readings of the clock, the second the two
    after them. *)
Theorem saveCarbonLog_twice (first second : list (string * value))
  (w : World) (entries : list value) :
  API.getCarbonLogs w = Some (VArr entries) ->
  Forall (fun x => API.jsonify x = x) entries ->
  let n := reads w in
  API.getCarbonLogs
    (fst (API.saveCarbonLog second (fst (API.saveCarbonLog first w))))
  = Some (VArr (entries
                ++ [API.jsonify
                      (VObj (API.newLog (clock w n) (clock w (S n)) first));
                    API.jsonify
                      (VObj (API.newLog (clock w (S (S n)))
                               (clock w (S (S (S n)))) second))])%list).
Proof.
  intros Hlogs Hjson n. subst n.
  assert (Hmap : forall l, Forall (fun x => API.jsonify x = x) l ->
                           map API.jsonify l = l).
  { intros l H. induction H as [ | x rest Hx _ IHl]; [reflexivity |].
    cbn [map]. rewrite Hx, IHl. reflexivity. }
  pose proof (saveCarbonLog_store first w entries Hlogs) as H1.
  rewrite (Hmap entries Hjson) in H1.
  set (w1 := fst (API.saveCarbonLog first w)) in *.
  assert (Hlogs1 : API.getCarbonLogs w1
                   = Some (VArr (entries
                                 ++ [API.jsonify
                                       (VObj (API.newLog (clock w (reads w))
                                                (clock w (S (reads w)))
                                                first))]))).
  { rewrite H1. unfold API.getCarbonLogs, App.getCarbonLogs.
    cbn [setItem localStorage]. rewrite lookup_insert_eq. reflexivity. }
  rewrite (saveCarbonLog_store second w1 _ Hlogs1).
  unfold API.getCarbonLogs, App.getCarbonLogs. cbn [setItem localStorage].
  rewrite lookup_insert_eq. do 2 f_equal.
  rewrite Hmap.
  - rewrite <- app_assoc. cbn [app]. rewrite H1.
    cbn [setItem Date_now snd clock reads]. reflexivity.
  - apply Forall_app. split; [exact Hjson |].
    apply List.Forall_cons; [apply jsonify_idempotent | apply List.Forall_nil].
Qed.

Lemma saveCarbonLog_twice_witness :
  let w := page [] [] 1700000000000 in
  let first := [("category", VStr "transport"); ("co2e", VNum (dec 25 10))] in
  let second := [("category", VStr "energy"); ("co2e", VNum (dec 18 10))] in
  API.getCarbonLogs
    (fst (API.saveCarbonLog second (fst (API.saveCarbonLog first w))))
  = Some (VArr [VObj [("id", VStr "log-1700000000000");
                      ("category", VStr "transport");
                      ("co2e", VNum (dec 25 10));
                      ("timestamp", VStr "2023-11-14T22:13:20.001Z")];
                VObj [("id", VStr "log-1700000000002");
                      ("category", VStr "energy");
                      ("co2e", VNum (dec 18 10));
                      ("timestamp", VStr "2023-11-14T22:13:20.003Z")]]).
Proof.
  intros w first second.
  refine (eq_trans (saveCarbonLog_twice first second w [] eq_refl _) _).
  - apply List.Forall_nil.
  - vm_compute. reflexivity.
Defined.

(** The entry saved to an empty store is the previous calculation of the
    next run. *)
Theorem saved_entry_is_previous (host : App.Host)
  (logData : list (string * value)) (w : World) :
  API.getCarbonLogs w = Some (VArr []) ->
  App.getPreviousCalculation host (fst (API.saveCarbonLog logData w))
  = Some (API.jsonify
            (VObj (API.newLog (clock w (reads w)) (clock w (S (reads w)))
                     logData))).
Proof.
  intros Hlogs. rewrite (saveCarbonLog_store logData w [] Hlogs).
  unfold App.getPreviousCalculation, App.getCarbonLogs.
  cbn [setItem localStorage]. rewrite lookup_insert_eq. reflexivity.
Qed.

Lemma saved_entry_is_previous_witness :
  let w := page [] [] 1700000000000 in
  let logData := [("category", VStr "transport"); ("co2e", VNum (dec 25 10))] in
  App.getPreviousCalculation isoHost (fst (API.saveCarbonLog logData w))
  = Some (VObj [("id", VStr "log-1700000000000");
                ("category", VStr "transport");
                ("co2e", VNum (dec 25 10));
                ("timestamp", VStr "2023-11-14T22:13:20.001Z")]).
Proof.
  intros w logData.
  refine (eq_trans (saved_entry_is_previous isoHost logData w eq_refl) _).
  vm_compute. reflexivity.
Defined.

(* ===================================================================== *)
(** ** The account methods in demo mode *)
(* ===================================================================== *)

Lemma demoMode_same_config (w w' : World) :
  CONFIG w' = CONFIG w -> window_CONFIG w' = window_CONFIG w ->
  API.demoMode w' = API.demoMode w.
Proof. intros H1 H2. unfold API.demoMode. rewrite H1, H2. reflexivity. Qed.

(** [logout] forgets the session and nothing else: the instance has no
    user and no token, the two items are gone, every other item of the
    store, the logs among them, is as it was; in demo mode the profile is
    then the demo profile and the subscription is not premium. *)
Theorem logout_forgets_the_session_only (c : API.Client) (w : World) :
  let c' := fst (fst (API.logout c w)) in
  let w' := snd (fst (API.logout c w)) in
  c' = loggedOut
  /\ localStorage w' !! "user" = None
  /\ localStorage w' !! "authToken" = None
  /\ (forall k, k <> "user" -> k <> "authToken" ->
        localStorage w' !! k = localStorage w !! k)
  /\ API.getCarbonLogs w' = API.getCarbonLogs w
  /\ (API.demoMode w = Some true ->
      API.getSubscriptionStatus c' w'
      = API.Returns (VObj [("isPremium", VBool false);
                           ("status", VStr "active")])).
Proof.
  cbn [API.logout fst snd]. repeat split.
  - cbn [API.removeItem localStorage]. apply lookup_delete_eq.
  - cbn [API.removeItem localStorage].
    rewrite lookup_delete_ne by discriminate. apply lookup_delete_eq.
  - intros k Hu Ht. cbn [API.removeItem localStorage].
    rewrite !lookup_delete_ne by congruence. reflexivity.
  - unfold API.getCarbonLogs, App.getCarbonLogs.
    cbn [API.removeItem localStorage].
    rewrite !lookup_delete_ne by discriminate. reflexivity.
  - intros Hdemo. unfold API.getSubscriptionStatus.
    rewrite (demoMode_same_config w) by reflexivity. rewrite Hdemo.
    reflexivity.
Qed.

(** A demo login takes any password: the user it leaves has the e-mail
    address that was given and no premium plan, whoever was logged in
    before and whatever the password is. *)
Theorem demo_login_takes_any_password (email password password' : value)
  (c : API.Client) (w : World) :
  API.demoMode w = Some true ->
  let c' := fst (fst (API.login email password c w)) in
  let w' := snd (fst (API.login email password c w)) in
  API.login email password' c w = API.login email password c w
  /\ API.user_property c' "email" = email
  /\ API.getUserProfile c' w' = API.Returns (API.user c')
  /\ API.getSubscriptionStatus c' w'
     = API.Returns (VObj [("isPremium", VBool false);
                          ("status", VStr "active")])
  /\ in_sync c' w'.
Proof.
  intros Hdemo. unfold API.login. rewrite Hdemo.
  cbn [Date_now API.setAuthToken API.setUser fst snd API.user].
  repeat split.
  - unfold API.getUserProfile. rewrite (demoMode_same_config w) by reflexivity.
    rewrite Hdemo. reflexivity.
  - unfold API.getSubscriptionStatus.
    rewrite (demoMode_same_config w) by reflexivity. rewrite Hdemo.
    reflexivity.
  - unfold in_sync. cbn [API.user setItem localStorage].
    rewrite lookup_insert_eq. reflexivity.
Qed.

Lemma demo_login_takes_any_password_witness :
  let w := page [] [] 1700000000000 in
  let c' := fst (fst (API.login (VStr "a@b.c") (VStr "secret") loggedOut w)) in
  let w' := snd (fst (API.login (VStr "a@b.c") (VStr "secret") loggedOut w)) in
  API.login (VStr "a@b.c") (VStr "wrong") loggedOut w
  = API.login (VStr "a@b.c") (VStr "secret") loggedOut w
  /\ API.user_property c' "email" = VStr "a@b.c"
  /\ API.getUserProfile c' w' = API.Returns (API.user c')
  /\ API.getSubscriptionStatus c' w'
     = API.Returns (VObj [("isPremium", VBool false);
                          ("status", VStr "active")])
  /\ in_sync c' w'.
Proof.
  intros w.
  apply (demo_login_takes_any_password (VStr "a@b.c") (VStr "secret")
           (VStr "wrong") loggedOut w).
  reflexivity.
Defined.

(** In demo mode [updateUserProfile] merges: the user it leaves has every
    property of the profile data with the value given, and every other
    property of the user as it was; it is the user returned, the user
    stored, and the profile read afterwards. *)
Theorem updateUserProfile_merges (profileData : list (string * value))
  (c : API.Client) (w : World) :
  API.demoMode w = Some true ->
  NoDup (map fst profileData) ->
  let c' := fst (fst (API.updateUserProfile profileData c w)) in
  let w' := snd (fst (API.updateUserProfile profileData c w)) in
  (forall k v, In (k, v) profileData -> API.user_property c' k = v)
  /\ (forall k, ~ In k (map fst profileData) ->
        API.user_property c' k
        = lookup_field k (API.own_properties (API.user c)))
  /\ snd (API.updateUserProfile profileData c w) = API.Returns (API.user c')
  /\ API.getUserProfile c' w' = API.Returns (API.user c')
  /\ in_sync c' w'
  /\ API.authToken c' = API.authToken c.
Proof.
  intros Hdemo Hnd. unfold API.updateUserProfile. rewrite Hdemo.
  cbn [API.setUser fst snd API.user API.authToken].
  unfold API.user_property. cbn [API.user].
  split; [ | split; [ | split; [ | split; [ | split]]]].
  - intros k v Hin. apply lookup_spread; assumption.
  - intros k Hk. apply lookup_spread_other. exact Hk.
  - reflexivity.
  - unfold API.getUserProfile. rewrite (demoMode_same_config w) by reflexivity.
    rewrite Hdemo. reflexivity.
  - unfold in_sync. cbn [API.user setItem localStorage].
    rewrite lookup_insert_eq. reflexivity.
  - reflexivity.
Qed.

Lemma updateUserProfile_merges_witness :
  let w := page [] [] 0 in
  let c := {| API.authToken := VStr "demo-token-1";
              API.user := VObj [("id", VStr "demo-user-1");
                                ("location", VStr "San Francisco, USA");
                                ("isPremium", VBool true)] |} in
  let profileData :=
    [("householdSize", VNum (of_Z 3)); ("location", VStr "Oslo");
     ("units", VStr "metric")] in
  let c' := fst (fst (API.updateUserProfile profileData c w)) in
  API.user_property c' "location" = VStr "Oslo"
  /\ API.user_property c' "isPremium" = VBool true.
Proof.
  intros w c profileData.
  assert (Hnd : NoDup (map fst profileData)).
  { cbn [map fst profileData]. repeat constructor; cbn; intros H;
      repeat (apply elem_of_cons in H; destruct H as [H | H]; [discriminate |]);
      inversion H. }
  pose proof (updateUserProfile_merges profileData c w eq_refl Hnd) as H.
  cbv zeta in H. destruct H as (Hnew & Hold & _).
  split.
  - apply Hnew. right. left. reflexivity.
  - rewrite Hold; [reflexivity |].
    cbn [map fst profileData In]. intros H.
    repeat (destruct H as [H | H]; [discriminate H |]). exact H.
Defined.

(** In demo mode a cancelled subscription is not premium, whatever the
    user held before, and the cancelling changes no other property of the
    user. *)
Theorem cancelled_subscription_is_not_premium (c : API.Client) (w : World) :
  API.demoMode w = Some true ->
  let c' := fst (fst (API.cancelSubscription c w)) in
  let w' := snd (fst (API.cancelSubscription c w)) in
  API.getSubscriptionStatus c' w'
  = API.Returns (VObj [("isPremium", VBool false); ("status", VStr "active")])
  /\ (forall k, k <> "isPremium" ->
        API.user_property c' k
        = lookup_field k (API.own_properties (API.user c)))
  /\ in_sync c' w'.
Proof.
  intros Hdemo. unfold API.cancelSubscription. rewrite Hdemo.
  cbn [API.setUser fst snd API.user].
  split; [ | split].
  - unfold API.getSubscriptionStatus.
    rewrite (demoMode_same_config w) by reflexivity. rewrite Hdemo.
    unfold API.user_property. cbn [API.user].
    rewrite lookup_set_field, String.eqb_refl. reflexivity.
  - intros k Hk. unfold API.user_property. cbn [API.user].
    rewrite lookup_set_field.
    destruct (String.eqb k "isPremium") eqn:E; [ | reflexivity].
    apply String.eqb_eq in E. contradiction.
  - unfold in_sync. cbn [API.user setItem localStorage].
    rewrite lookup_insert_eq. reflexivity.
Qed.

Lemma cancelled_subscription_is_not_premium_witness :
  let w := page [] [] 0 in
  let c := {| API.authToken := VStr "demo-token-1";
              API.user := VObj [("id", VStr "demo-user-1");
                                ("isPremium", VBool true)] |} in
  let c' := fst (fst (API.cancelSubscription c w)) in
  let w' := snd (fst (API.cancelSubscription c w)) in
  API.getSubscriptionStatus c' w'
  = API.Returns (VObj [("isPremium", VBool false); ("status", VStr "active")])
  /\ (forall k, k <> "isPremium" ->
        API.user_property c' k
        = lookup_field k (API.own_properties (API.user c)))
  /\ in_sync c' w'.
Proof.
  intros w c. apply (cancelled_subscription_is_not_premium c w). reflexivity.
Defined.

Lemma in_sync_setUser (u : value) (c : API.Client) (w : World) :
  u <> VNull ->
  in_sync (fst (API.setUser u c w)) (snd (API.setUser u c w)).
Proof.
  intros Hu. unfold in_sync. cbn [API.setUser fst snd API.user setItem localStorage].
  rewrite lookup_insert_eq. destruct u; congruence.
Qed.

Lemma in_sync_same_user (c c' : API.Client) (w w' : World) :
  API.user c' = API.user c ->
  localStorage w' !! "user" = localStorage w !! "user" ->
  in_sync c w -> in_sync c' w'.
Proof. unfold in_sync. intros -> ->. trivial. Qed.

Lemma call_in_sync (k : Call) (s : API.Client * World) :
  in_sync (fst s) (snd s) -> in_sync (fst (call k s)) (snd (call k s)).
Proof.
  destruct s as [c w]. cbn [fst snd]. intros H.
  destruct k as [email password | email password name | | profileData |
                 | logData]; cbn [call fst snd].
  - unfold API.login. destruct (API.demoMode w) as [[] | ]; try exact H.
    cbn [Date_now API.setAuthToken fst snd].
    match goal with
    | |- context [API.setUser ?u ?c1 ?w1] =>
        pose proof (in_sync_setUser u c1 w1 ltac:(discriminate)) as Hs;
        destruct (API.setUser u c1 w1)
    end. exact Hs.
  - unfold API.signup. destruct (API.demoMode w) as [[] | ]; try exact H.
    cbn [Date_now API.setAuthToken fst snd].
    match goal with
    | |- context [API.setUser ?u ?c1 ?w1] =>
        pose proof (in_sync_setUser u c1 w1 ltac:(discriminate)) as Hs;
        destruct (API.setUser u c1 w1)
    end. exact Hs.
  - unfold in_sync. cbn [API.logout fst snd API.user API.removeItem localStorage].
    apply lookup_delete_eq.
  - unfold API.updateUserProfile. destruct (API.demoMode w) as [[] | ]; try exact H.
    match goal with
    | |- context [API.setUser ?u ?c1 ?w1] =>
        pose proof (in_sync_setUser u c1 w1 ltac:(discriminate)) as Hs;
        destruct (API.setUser u c1 w1)
    end. exact Hs.
  - unfold API.cancelSubscription. destruct (API.demoMode w) as [[] | ]; try exact H.
    match goal with
    | |- context [API.setUser ?u ?c1 ?w1] =>
        pose proof (in_sync_setUser u c1 w1 ltac:(discriminate)) as Hs;
        destruct (API.setUser u c1 w1)
    end. exact Hs.
  - apply (in_sync_same_user c c w); [reflexivity | | exact H].
    unfold API.saveCarbonLog.
    destruct (API.getCarbonLogs w) as [logs | ]; [ | reflexivity].
    cbn [Date_now].
    destruct logs; try reflexivity.
    match goal with
    | |- context [API.demoMode ?w3] => destruct (API.demoMode w3) as [[] | ]
    end; cbn [fst setItem localStorage];
      rewrite lookup_insert_ne by discriminate; reflexivity.
Qed.

(** The stored user follows the instance: when the item [user] of the
    store mirrors the user of the instance, it still does after any
    sequence of logins, signups, logouts, profile updates, cancellations
    and saved logs, in demo mode or not. *)
Theorem stored_user_follows_the_instance (ks : list Call)
  (c : API.Client) (w : World) :
  in_sync c w ->
  in_sync (fst (calls ks (c, w))) (snd (calls ks (c, w))).
Proof.
  unfold calls. change c with (fst (c, w)) at 1. change w with (snd (c, w)) at 2.
  generalize (c, w). clear c w.
  induction ks as [ | k ks IH]; intros s H; [exact H |].
  cbn [fold_left]. apply IH, call_in_sync, H.
Qed.

Lemma stored_user_follows_the_instance_witness :
  let w := page [] [] 1700000000000 in
  let ks := [Login (VStr "a@b.c") (VStr "secret");
             UpdateUserProfile [("location", VStr "Oslo")];
             SaveCarbonLog [("co2e", VNum (dec 25 10))];
             CancelSubscription] in
  in_sync (fst (calls ks (loggedOut, w))) (snd (calls ks (loggedOut, w))).
Proof.
  intros w ks. apply (stored_user_follows_the_instance ks loggedOut w).
  reflexivity.
Defined.

(* ===================================================================== *)
(** ** The order of the dates *)
(* ===================================================================== *)

(** Rounding keeps the sign: the result of rounding a mantissa is a zero,
    a finite number or an infinity of the sign given, never NaN. *)
Lemma binary_round_aux_sign (sx : bool) (mp : positive) (e : Z) :
  let r := binary_round_aux prec emax sx (Zpos mp) e loc_Exact in
  r = S754_zero sx
  \/ (exists m e', r = S754_finite sx m e')
  \/ r = S754_infinity sx.
Proof.
  intros r. subst r. unfold binary_round_aux.
  set (E := fexp prec emax (Zpos (digits2_pos mp) + e)).
  destruct (Z_le_gt_dec E e) as [Hle | Hgt].
  - rewrite (shr_fexp_exact_keep mp e) by exact Hle.
    cbn [shr_m loc_of_shr_record round_nearest_even].
    rewrite (shr_fexp_exact_keep mp e) by exact Hle. cbn [shr_m].
    destruct (e <=? emax - prec);
      [right; left; eexists _, _; reflexivity | right; right; reflexivity].
  - destruct (shr_fexp_exact_shift mp e Hgt) as (n & HSn & ->).
    pose proof (round_nearest_even_half (Zpos mp) n ltac:(lia)) as H.
    cbn zeta in H. destruct H as (Hm1 & Hup & Hhalf).
    set (m1 := round_nearest_even _ _) in *.
    fold E in HSn. rewrite HSn in Hup, Hhalf. fold E. clearbody m1.
    assert (HE : emin prec emax <= E) by (unfold E, fexp; lia).
    assert (Hm1hi : m1 <= 2 ^ prec).
    { pose proof (digits2_bounds mp) as [_ Hd].
      assert (Hdle : Zpos (digits2_pos mp) <= prec + (E - e))
        by (unfold E, fexp; lia).
      assert (Hpw : 2 ^ Zpos (digits2_pos mp) <= 2 ^ (prec + (E - e)))
        by (apply Z.pow_le_mono_r; lia).
      rewrite Z.pow_add_r in Hpw by (unfold prec; lia).
      assert (0 < 2 ^ (E - e)) by (apply Z.pow_pos_nonneg; lia).
      nia. }
    destruct (shr_fexp_renormalize m1 E (conj Hm1 Hm1hi) HE)
      as (m2 & e2 & Hm2 & He2 & Hm2pos & HEe2 & Hval).
    destruct (shr_fexp prec emax m1 E loc_Exact) as [mrs2 e2'].
    cbn [fst snd] in Hm2, He2. subst e2'. rewrite Hm2.
    destruct m2 as [ | m2 | m2]; [left; reflexivity | | lia].
    destruct (e2 <=? emax - prec);
      [right; left; eexists _, _; reflexivity | right; right; reflexivity].
Qed.

(** Rounding a mantissa at an exponent not below the least one does not
    give zero: the result is a finite number or an infinity of the sign
    given. *)
Lemma binary_round_nonzero (sx : bool) (p : positive) (e : Z) :
  -1074 <= e ->
  (exists m e', binary_round prec emax sx p e = S754_finite sx m e')
  \/ binary_round prec emax sx p e = S754_infinity sx.
Proof.
  intros He.
  pose proof (binary_normalize_error (cond_Zopp sx (Zpos p)) e) as Herr.
  assert (Hn : binary_normalize prec emax (cond_Zopp sx (Zpos p)) e false
               = binary_round prec emax sx p e) by (destruct sx; reflexivity).
  rewrite Hn in Herr. clear Hn.
  assert (Habs : Rabs (IZR (cond_Zopp sx (Zpos p)) * powerRZ 2 e)
                 = (IZR (Zpos p) * powerRZ 2 e)%R).
  { pose proof (bpow_pos e) as Hb.
    rewrite Rabs_mult, (Rabs_pos_eq (powerRZ 2 e)) by lra.
    rewrite <- abs_IZR, Zabs_cond_Zopp. reflexivity. }
  unfold binary_round in *.
  destruct (shl_align p e (fexp prec emax (Zpos (digits2_pos p) + e)))
    as [mz ez].
  destruct (binary_round_aux_sign sx mz ez) as [Hr | [Hr | Hr]];
    cbv zeta in Hr; [ | left; exact Hr | right; exact Hr].
  exfalso. rewrite Hr in Herr. specialize (Herr eq_refl). cbn [toR] in Herr.
  rewrite Rminus_0_l, Rabs_Ropp, Habs in Herr.
  assert (H1 : (1 <= IZR (Zpos p))%R) by (apply IZR_le; lia).
  assert (H2 : (powerRZ 2 (-1074) <= powerRZ 2 e)%R) by (apply bpow_le, He).
  assert (H3 : (powerRZ 2 (-53) <= powerRZ 2 (-2))%R) by (apply bpow_le; lia).
  assert (H4 : (0 < powerRZ 2 (-1075))%R) by apply bpow_pos.
  assert (H6 : (powerRZ 2 (-1074) = 2 * powerRZ 2 (-1075))%R).
  { change (-1074) with (1 + -1075). rewrite bpow_add.
    change (powerRZ 2 1) with (2 * 1)%R. ring. }
  assert (H7 : (4 * powerRZ 2 (-2) = 1)%R).
  { change (powerRZ 2 (-2)) with (/ (2 * (2 * 1)))%R. field. }
  rewrite H6 in H2.
  assert (H5 : (0 < powerRZ 2 (-53))%R) by apply bpow_pos.
  set (a := (IZR (Zpos p) * powerRZ 2 e)%R) in *.
  assert (Ha : (2 * powerRZ 2 (-1075) <= a)%R) by (unfold a; nra).
  assert (H8 : (powerRZ 2 (-53) * a <= powerRZ 2 (-2) * a)%R)
    by (apply Rmult_le_compat_r; lra).
  replace (powerRZ 2 (-2)) with (/ 4)%R in H8 by lra.
  clearbody a. lra.
Qed.

(** A normalized integer multiple of a power of two, not below the least
    exponent, is above zero exactly when the integer is, and below zero
    exactly when the integer is. *)
Lemma binary_normalize_sign (S e : Z) :
  -1074 <= e ->
  (binary_normalize prec emax S e false > zero)%js = (0 <? S)
  /\ (binary_normalize prec emax S e false < zero)%js = (S <? 0).
Proof.
  intros He. unfold gt, lt.
  destruct S as [ | p | p]; [split; reflexivity | | ]; cbn [binary_normalize].
  - destruct (binary_round_nonzero false p e He) as [(m & e' & ->) | ->];
      split; reflexivity.
  - destruct (binary_round_nonzero true p e He) as [(m & e' & ->) | ->];
      split; reflexivity.
Qed.

Lemma valid_binary_exponent (s : bool) (m : positive) (e : Z) :
  valid_binary prec emax (S754_finite s m e) = true -> -1074 <= e.
Proof.
  cbn [valid_binary]. unfold bounded, canonical_mantissa, fexp, emin, prec, emax.
  intros H. apply andb_true_iff in H. destruct H as [H _].
  apply Z.eqb_eq in H. unfold SpecFloat.fexp, SpecFloat.emin in H. lia.
Qed.

Lemma toR_aligned (s : bool) (m : positive) (e ez : Z) :
  ez <= e ->
  toR (S754_finite s m e)
  = (IZR (cond_Zopp s (Zpos (fst (shl_align m e ez)))) * powerRZ 2 ez)%R.
Proof.
  intros H. cbn [toR]. rewrite (shl_align_le m e ez H).
  replace e with (ez + (e - ez)) at 1 by lia.
  rewrite bpow_add, (bpow_IZR (e - ez)) by lia.
  destruct s; cbn [cond_Zopp]; rewrite ?opp_IZR, ?mult_IZR;
    try (change (IZR (- (Zpos m * 2 ^ (e - ez))))
           with (IZR (Z.opp (Zpos m * 2 ^ (e - ez))));
         rewrite opp_IZR, mult_IZR);
    try (change (IZR (- Zpos m)) with (IZR (Z.opp (Zpos m))); rewrite opp_IZR);
    ring.
Qed.

(** Subtraction keeps the order: for two finite doubles the difference is
    above zero exactly when the first is the larger, and below zero exactly
    when the first is the smaller. *)
Lemma sub_sign (x y : number) :
  finiteDouble x = true -> finiteDouble y = true ->
  ((x - y > zero)%js = true <-> (toR y < toR x)%R)
  /\ ((x - y < zero)%js = true <-> (toR x < toR y)%R).
Proof.
  unfold finiteDouble. intros Hx Hy.
  apply andb_true_iff in Hx, Hy. destruct Hx as [Hfx Hvx], Hy as [Hfy Hvy].
  assert (Hpos : forall (m : positive) (e : Z),
             (0 < IZR (cond_Zopp false (Zpos m)) * powerRZ 2 e)%R).
  { intros m e. apply Rmult_lt_0_compat; [apply IZR_lt; cbn; lia | apply bpow_pos]. }
  assert (Hneg : forall (m : positive) (e : Z),
             (IZR (cond_Zopp true (Zpos m)) * powerRZ 2 e < 0)%R).
  { intros m e. specialize (Hpos m e). cbn [cond_Zopp] in *.
    change (IZR (- Zpos m)) with (IZR (Z.opp (Zpos m))). rewrite opp_IZR. lra. }
  destruct x as [sx | | | sx mx ex], y as [sy | | | sy my ey];
    try discriminate Hfx; try discriminate Hfy.
  - cbn [toR]. destruct sx, sy; cbn; repeat split; try discriminate; lra.
  - pose proof (Hpos my ey). pose proof (Hneg my ey).
    destruct sx, sy; cbn - [powerRZ IZR cond_Zopp]; repeat split;
      try discriminate; try lra; intros; lra.
  - pose proof (Hpos mx ex). pose proof (Hneg mx ex).
    destruct sx, sy; cbn - [powerRZ IZR cond_Zopp]; repeat split;
      try discriminate; try lra; intros; lra.
  - apply valid_binary_exponent in Hvx, Hvy.
    unfold sub. cbn [SFsub]. cbv zeta.
    destruct (binary_normalize_sign
                (cond_Zopp sx (Zpos (fst (shl_align mx ex (Z.min ex ey))))
                 - cond_Zopp sy (Zpos (fst (shl_align my ey (Z.min ex ey)))))
                (Z.min ex ey) ltac:(lia)) as [-> ->].
    rewrite (toR_aligned sx mx ex (Z.min ex ey)) by lia.
    rewrite (toR_aligned sy my ey (Z.min ex ey)) by lia.
    set (X := cond_Zopp sx _). set (Y := cond_Zopp sy _).
    pose proof (bpow_pos (Z.min ex ey)) as Hb.
    rewrite !Z.ltb_lt. split; split.
    + intros H. assert (HXY : (IZR Y < IZR X)%R) by (apply IZR_lt; lia). nra.
    + intros H. assert (HXY : (IZR Y < IZR X)%R) by nra.
      apply lt_IZR in HXY. lia.
    + intros H. assert (HXY : (IZR X < IZR Y)%R) by (apply IZR_lt; lia). nra.
    + intros H. assert (HXY : (IZR X < IZR Y)%R) by nra.
      apply lt_IZR in HXY. lia.
Qed.

Section Latest.

Variable host : App.Host.

(** The first of the entries sorted by insertion is one of the entries,
    and none of them has a later date. *)
Lemma insertion_head_latest (logs : list (value * number)) :
  logs <> [] ->
  Forall (fun y => finiteDouble (snd y) = true) logs ->
  exists x,
    head (foldr App.insertLog [] logs) = Some x /\ x ∈ logs
    /\ forall y, y ∈ logs -> (toR (snd y) <= toR (snd x))%R.
Proof.
  induction logs as [ | a logs IH]; [congruence |]. intros _ Hvalid.
  apply Forall_cons in Hvalid. destruct Hvalid as [Ha Hvalid].
  cbn [foldr].
  destruct logs as [ | b logs'].
  - exists a. cbn. split; [reflexivity |]. split; [apply list_elem_of_here |].
    intros y Hy. apply list_elem_of_singleton in Hy. subst y. lra.
  - destruct IH as (x & Hx & Hin & Hmax); [congruence | exact Hvalid |].
    destruct (foldr App.insertLog [] (b :: logs')) as [ | x' rest] eqn:Hs;
      [discriminate Hx |].
    injection Hx as ->. cbn [App.insertLog].
    assert (Hvx : finiteDouble (snd x) = true).
    { rewrite Forall_forall in Hvalid. apply Hvalid, Hin. }
    pose proof (proj1 (sub_sign (snd x) (snd a) Hvx Ha)) as Hcmp.
    destruct (snd x - snd a > zero)%js.
    + exists x. split; [reflexivity |]. split; [apply list_elem_of_further, Hin |].
      intros y Hy. apply elem_of_cons in Hy. destruct Hy as [-> | Hy].
      * apply Rlt_le, Hcmp. reflexivity.
      * apply Hmax, Hy.
    + exists a. split; [reflexivity |]. split; [apply list_elem_of_here |].
      assert (Hax : (toR (snd x) <= toR (snd a))%R).
      { destruct (Rle_or_lt (toR (snd x)) (toR (snd a))) as [H | H];
          [exact H |]. apply Hcmp in H. discriminate H. }
      intros y Hy. apply elem_of_cons in Hy. destruct Hy as [-> | Hy]; [lra |].
      specialize (Hmax y Hy). lra.
Qed.

(** Finite dates make the comparator consistent: the sort is the
    insertion sort, on any host. *)
Lemma sortLogs_finite (logs : list (value * number)) :
  Forall (fun y => finiteDouble (snd y) = true) logs ->
  App.sortLogs host logs = foldr App.insertLog [] logs.
Proof.
  intros Hvalid. unfold App.sortLogs.
  replace (forallb (fun log => negb (isNaN (snd log))) logs) with true;
    [reflexivity |].
  symmetry. apply forallb_forall. intros y Hy.
  rewrite Forall_forall in Hvalid. apply list_elem_of_In in Hy.
  specialize (Hvalid y Hy). unfold finiteDouble in Hvalid.
  apply andb_true_iff in Hvalid. destruct Hvalid as [Hfin _].
  destruct (snd y); try discriminate Hfin; reflexivity.
Qed.

Lemma sortLogs_head_latest (logs : list (value * number)) :
  logs <> [] ->
  Forall (fun y => finiteDouble (snd y) = true) logs ->
  exists x,
    head (App.sortLogs host logs) = Some x /\ x ∈ logs
    /\ forall y, y ∈ logs -> (toR (snd y) <= toR (snd x))%R.
Proof.
  intros Hne Hvalid. rewrite (sortLogs_finite logs Hvalid).
  apply insertion_head_latest; assumption.
Qed.

Lemma zip_dates (entries : list value) (dates : list number) :
  Forall2 (fun a d => App.entryDate host a = Some d) entries dates ->
  (forall x, x ∈ zip entries dates ->
     fst x ∈ entries /\ App.entryDate host (fst x) = Some (snd x))
  /\ (forall a, a ∈ entries ->
        exists d, (a, d) ∈ zip entries dates).
Proof.
  induction 1 as [ | a d entries dates Had _ [IH1 IH2]]; cbn [zip zip_with].
  - split; intros x Hx; inversion Hx.
  - split.
    + intros x Hx. apply elem_of_cons in Hx. destruct Hx as [-> | Hx].
      * split; [apply list_elem_of_here | exact Had].
      * destruct (IH1 x Hx) as [H1 H2].
        split; [apply list_elem_of_further, H1 | exact H2].
    + intros a' Ha'. apply elem_of_cons in Ha'. destruct Ha' as [-> | Ha'].
      * exists d. apply list_elem_of_here.
      * destruct (IH2 a' Ha') as [d' Hd']. exists d'.
        apply list_elem_of_further, Hd'.
Qed.

Lemma getPreviousCalculation_latest (w : World) (entries : list value) :
  App.getCarbonLogs w = Some (VArr entries) ->
  entries <> [] ->
  Forall (fun a => exists d, App.entryDate host a = Some d
                             /\ finiteDouble d = true) entries ->
  exists previous latest,
    App.getPreviousCalculation host w = Some previous
    /\ previous ∈ entries
    /\ App.entryDate host previous = Some latest
    /\ forall a d, a ∈ entries -> App.entryDate host a = Some d ->
                   (toR d <= toR latest)%R.
Proof.
  intros Hlogs Hne Hvalid. unfold App.getPreviousCalculation. rewrite Hlogs.
  cbn [mbind option_bind].
  destruct entries as [ | a [ | b rest]]; [congruence | | ].
  - apply Forall_cons in Hvalid. destruct Hvalid as [(d & Hd & _) _].
    exists a, d. split; [reflexivity |]. split; [apply list_elem_of_here |].
    split; [exact Hd |]. intros a' d' Ha' Hd'.
    apply list_elem_of_singleton in Ha'. subst a'.
    rewrite Hd in Hd'. injection Hd' as <-. lra.
  - set (entries := a :: b :: rest) in *.
    assert (Hdates : is_Some (mapM (App.entryDate host) entries)).
    { apply mapM_is_Some. eapply Forall_impl; [exact Hvalid |].
      intros x (d & Hd & _). exists d. exact Hd. }
    destruct Hdates as [dates Hdates]. rewrite Hdates.
    cbn [mbind option_bind].
    apply mapM_Some_1 in Hdates.
    destruct (zip_dates entries dates Hdates) as [Hzip1 Hzip2].
    destruct (sortLogs_head_latest (zip entries dates)) as (x & -> & Hx & Hmax).
    { pose proof (Forall2_length _ _ _ Hdates) as Hlen.
      destruct dates; [discriminate Hlen | discriminate]. }
    { apply Forall_forall. intros y Hy. destruct (Hzip1 y Hy) as [Hin Hd].
      rewrite Forall_forall in Hvalid.
      destruct (Hvalid (fst y) Hin) as (d & Hd' & Hv).
      rewrite Hd in Hd'. injection Hd' as <-. exact Hv. }
    destruct (Hzip1 x Hx) as [Hin Hd].
    exists (fst x), (snd x). cbn [fmap option_fmap option_map default].
    split; [reflexivity |]. split; [exact Hin |]. split; [exact Hd |].
    intros a' d' Ha' Hd'. destruct (Hzip2 a' Ha') as [d'' Hz].
    destruct (Hzip1 _ Hz) as [_ Hd'']. cbn [fst snd] in Hd''.
    rewrite Hd' in Hd''. injection Hd'' as <-.
    apply (Hmax _ Hz).
Qed.

End Latest.

(** The previous calculation is the latest entry: when every stored entry
    has a date that is a time, [getPreviousCalculation] returns one of the
    entries, and no entry has a later date than the one returned. *)
Theorem previous_is_the_latest_entry (host : App.Host)
  (w : World) (entries : list value) :
  App.getCarbonLogs w = Some (VArr entries) ->
  entries <> [] ->
  Forall (fun a => exists d, App.entryDate host a = Some d
                             /\ finiteDouble d = true) entries ->
  exists previous latest,
    App.getPreviousCalculation host w = Some previous
    /\ previous ∈ entries
    /\ App.entryDate host previous = Some latest
    /\ forall a d, a ∈ entries -> App.entryDate host a = Some d ->
                   (toR d <= toR latest)%R.
Proof. apply getPreviousCalculation_latest. Qed.

Lemma previous_is_the_latest_entry_witness :
  let demo1 := VObj [("id", VStr "demo-1"); ("co2e", VNum (dec 25 10));
                     ("timestamp", VStr "2023-10-25T22:13:20.000Z")] in
  let demo2 := VObj [("id", VStr "demo-2"); ("co2e", VNum (dec 18 10));
                     ("timestamp", VStr "2023-10-15T22:13:20.000Z")] in
  let w := page [] [("carbonLogs", Json (VArr [demo2; demo1; demo2]))] 0 in
  exists previous latest,
    App.getPreviousCalculation isoHost w = Some previous
    /\ previous ∈ [demo2; demo1; demo2]
    /\ App.entryDate isoHost previous = Some latest
    /\ forall a d, a ∈ [demo2; demo1; demo2] ->
                   App.entryDate isoHost a = Some d ->
                   (toR d <= toR latest)%R.
Proof.
  intros demo1 demo2 w.
  apply (previous_is_the_latest_entry isoHost w [demo2; demo1; demo2]);
    [reflexivity | discriminate |].
  assert (H1 : exists d, App.entryDate isoHost demo1 = Some d
                         /\ finiteDouble d = true).
  { let v := eval vm_compute in (App.entryDate isoHost demo1) in
    lazymatch v with
    | Some ?d => exists d; split; vm_compute; reflexivity
    end. }
  assert (H2 : exists d, App.entryDate isoHost demo2 = Some d
                         /\ finiteDouble d = true).
  { let v := eval vm_compute in (App.entryDate isoHost demo2) in
    lazymatch v with
    | Some ?d => exists d; split; vm_compute; reflexivity
    end. }
  repeat (apply List.Forall_cons; [assumption |]). apply List.Forall_nil.
Defined.

(** A saved calculation becomes the previous one: when the date of the
    new entry is later than the date of every entry stored before, the
    next [getPreviousCalculation] returns the new entry. *)
Theorem saved_entry_becomes_previous (host : App.Host)
  (logData : list (string * value)) (w : World) (entries : list value)
  (saved : number) :
  let entry :=
    API.jsonify
      (VObj (API.newLog (clock w (reads w)) (clock w (S (reads w))) logData)) in
  API.getCarbonLogs w = Some (VArr entries) ->
  Forall (fun x => API.jsonify x = x) entries ->
  App.entryDate host entry = Some saved ->
  finiteDouble saved = true ->
  Forall (fun a => exists d, App.entryDate host a = Some d
                             /\ finiteDouble d = true
                             /\ (toR d < toR saved)%R) entries ->
  App.getPreviousCalculation host (fst (API.saveCarbonLog logData w))
  = Some entry.
Proof.
  intros entry Hlogs Hjson Hsaved Hvalid Hearlier.
  assert (Hmap : map API.jsonify entries = entries).
  { clear Hearlier Hlogs.
    induction Hjson as [ | x rest Hx _ IHl]; [reflexivity |].
    cbn [map]. rewrite Hx, IHl. reflexivity. }
  pose proof (saveCarbonLog_store logData w entries Hlogs) as Hstore.
  rewrite Hmap in Hstore. fold entry in Hstore.
  set (w' := fst (API.saveCarbonLog logData w)) in *.
  assert (Hlogs' : App.getCarbonLogs w' = Some (VArr (entries ++ [entry]))).
  { rewrite Hstore. unfold App.getCarbonLogs. cbn [setItem localStorage].
    rewrite lookup_insert_eq. reflexivity. }
  destruct (getPreviousCalculation_latest host w' (entries ++ [entry])
              Hlogs')
    as (previous & latest & -> & Hin & Hdate & Hmax).
  - destruct entries; discriminate.
  - apply Forall_app. split.
    + eapply Forall_impl; [exact Hearlier |].
      intros a (d & Hd & Hv & _). exists d. split; assumption.
    + apply List.Forall_cons; [ | apply List.Forall_nil].
      exists saved. split; assumption.
  - f_equal. apply elem_of_app in Hin. destruct Hin as [Hin | Hin].
    + exfalso. rewrite Forall_forall in Hearlier.
      destruct (Hearlier previous Hin) as (d & Hd & _ & Hlt).
      rewrite Hdate in Hd. injection Hd as <-.
      assert (Hle : (toR saved <= toR latest)%R).
      { apply (Hmax entry saved); [ | exact Hsaved].
        apply elem_of_app. right. apply list_elem_of_here. }
      lra.
    + apply list_elem_of_singleton in Hin. exact Hin.
Qed.

Lemma saved_entry_becomes_previous_witness :
  let demo1 := VObj [("id", VStr "demo-1"); ("co2e", VNum (dec 25 10));
                     ("timestamp", VStr "2023-10-25T22:13:20.000Z")] in
  let demo2 := VObj [("id", VStr "demo-2"); ("co2e", VNum (dec 18 10));
                     ("timestamp", VStr "2023-10-15T22:13:20.000Z")] in
  let w := page [] [("carbonLogs", Json (VArr [demo1; demo2]))] 1700000000000 in
  let logData := [("category", VStr "mixed"); ("co2e", VNum (dec 12 10))] in
  App.getPreviousCalculation isoHost (fst (API.saveCarbonLog logData w))
  = Some (VObj [("id", VStr "log-1700000000000"); ("category", VStr "mixed");
                ("co2e", VNum (dec 12 10));
                ("timestamp", VStr "2023-11-14T22:13:20.001Z")]).
Proof.
  intros demo1 demo2 w logData.
  assert (Hentry :
            API.jsonify
              (VObj (API.newLog (clock w (reads w)) (clock w (S (reads w)))
                       logData))
            = VObj [("id", VStr "log-1700000000000"); ("category", VStr "mixed");
                    ("co2e", VNum (dec 12 10));
                    ("timestamp", VStr "2023-11-14T22:13:20.001Z")])
    by (vm_compute; reflexivity).
  rewrite <- Hentry.
  let v := eval vm_compute in
             (App.entryDate isoHost
                (API.jsonify
                   (VObj (API.newLog (clock w (reads w)) (clock w (S (reads w)))
                            logData)))) in
  lazymatch v with
  | Some ?saved =>
      apply (saved_entry_becomes_previous isoHost logData w
               [demo1; demo2] saved);
        [reflexivity
        | repeat (apply List.Forall_cons; [vm_compute; reflexivity |]);
            apply List.Forall_nil
        | vm_compute; reflexivity
        | vm_compute; reflexivity
        | ]
  end.
  apply List.Forall_cons; [ | apply List.Forall_cons; [ | apply List.Forall_nil]].
  - let v := eval vm_compute in (App.entryDate isoHost demo1) in
    lazymatch v with
    | Some ?d =>
        exists d; split; [vm_compute; reflexivity |];
          split; [vm_compute; reflexivity | eval_toR; lra]
    end.
  - let v := eval vm_compute in (App.entryDate isoHost demo2) in
    lazymatch v with
    | Some ?d =>
        exists d; split; [vm_compute; reflexivity |];
          split; [vm_compute; reflexivity | eval_toR; lra]
    end.
Defined.

(* ===================================================================== *)
(** ** The direction of a comparison *)
(* ===================================================================== *)

(** A number beyond a positive bound in magnitude is above zero or below
    it. *)
Lemma beyond_bound_has_sign (mc : positive) (ec : Z) (d : number) :
  (Math_abs d > S754_finite false mc ec)%js = true ->
  if (d < zero)%js then (d > zero)%js = false else (d > zero)%js = true.
Proof.
  unfold gt, lt, SFltb.
  destruct d as [[] | [] | | [] m e]; cbn [Math_abs SFabs SFcompare zero];
    try discriminate; reflexivity.
Qed.

(** The comparison never misreports the direction: a reduction is
    reported only when the value displayed is below the previous one, an
    increase only when it is above, and equal values are reported as
    unchanged. *)
Theorem reported_direction_is_right (displayValue : number)
  (previousCalculation : value) (c : Comparison) :
  let previousValue :=
    (parseFloat_printed (App.previous_co2e previousCalculation) || zero)%js in
  finiteDouble displayValue = true ->
  finiteDouble previousValue = true ->
  App.compareWithPrevious displayValue previousCalculation = Some (Some c) ->
  (direction c = reduction -> (toR displayValue < toR previousValue)%R)
  /\ (direction c = increase -> (toR previousValue < toR displayValue)%R)
  /\ (toR displayValue = toR previousValue -> direction c = unchanged).
Proof.
  intros previousValue Hx Hy Hc.
  unfold App.compareWithPrevious, parseFloat_value in Hc.
  cbv zeta in Hc.
  destruct (truthy_value (App.previous_co2e previousCalculation));
    [ | discriminate Hc].
  destruct (ToString_throws (App.previous_co2e previousCalculation));
    [discriminate Hc |].
  cbn [mbind option_bind] in Hc. fold previousValue in Hc.
  injection Hc as <-. cbn [direction].
  destruct (sub_sign displayValue previousValue Hx Hy) as [Hgt Hlt].
  replace (dec 1 100) with (S754_finite false 5764607523034235 (-59))
    by (vm_compute; reflexivity).
  pose proof (beyond_bound_has_sign 5764607523034235 (-59)
                (displayValue - previousValue)%js) as Hsign.
  destruct (Math_abs (displayValue - previousValue)
            > S754_finite false 5764607523034235 (-59))%js.
  - specialize (Hsign eq_refl).
    destruct (displayValue - previousValue < zero)%js.
    + split; [intros _; apply Hlt; reflexivity |].
      split; [discriminate |]. intros Heq.
      assert (H : (toR displayValue < toR previousValue)%R)
        by (apply Hlt; reflexivity). lra.
    + split; [discriminate |].
      split; [intros _; apply Hgt; exact Hsign |]. intros Heq.
      assert (H : (toR previousValue < toR displayValue)%R)
        by (apply Hgt; exact Hsign). lra.
  - split; [discriminate |]. split; [discriminate | reflexivity].
Qed.

Lemma reported_direction_is_right_witness :
  let previous := VObj [("id", VStr "demo-1"); ("co2e", VNum (dec 25 10))] in
  exists c,
    App.compareWithPrevious (dec 18 10) previous = Some (Some c)
    /\ direction c = reduction
    /\ (toR (dec 18 10) < toR (dec 25 10))%R.
Proof.
  intros previous.
  let v := eval vm_compute in (App.compareWithPrevious (dec 18 10) previous) in
  lazymatch v with
  | Some (Some ?c) =>
      assert (Hc : App.compareWithPrevious (dec 18 10) previous
                   = Some (Some c))
        by (vm_compute; reflexivity);
      exists c; split; [exact Hc |]; split; [reflexivity |];
      refine (proj1 (reported_direction_is_right (dec 18 10) previous c
                       _ _ Hc) _);
      vm_compute; reflexivity
  end.
Defined.
